(** * The local image build of the airplane CLI (package [build])

    A shallow embedding of [pkg/build]: the task ID sanitizer, the registry
    auth provider, the build env resolver, the Dockerfile synthesizer for
    Python, and the [Build] / [Push] / [Local] pipeline that drives the Docker
    engine.  Go strings are byte strings ([string], one [ascii] per byte);
    Go maps are [gmap]s; calls that leave the process (Docker engine, Airplane
    API, filesystem, logger) are the nodes of a program tree whose answers
    come from the environment. *)

From Stdlib Require Import ZArith Ascii String List Lia Bool.
From stdpp Require Import base option list strings gmap fin_maps.

Local Open Scope string_scope.
Local Open Scope Z_scope.
Local Open Scope list_scope.

(** ** Bytes and runes *)

(** The numeric value of a byte, [0 <= byteZ c < 256]. *)
Definition byteZ (c : ascii) : Z := Z.of_N (N_of_ascii c).

(** [byte(z)] for [0 <= z < 256]. *)
Definition Zbyte (z : Z) : ascii := ascii_of_N (Z.to_N z).

(** The three characters that a string literal cannot spell here. *)
Definition dquote : string := String "034"%char EmptyString.
Definition newline : string := String "010"%char EmptyString.
Definition tab : string := String "009"%char EmptyString.

(** [s[len(s)-1]] when [s] is not empty. *)
Fixpoint last_byte (s : string) : option ascii :=
  match s with
  | EmptyString => None
  | String c EmptyString => Some c
  | String _ t => last_byte t
  end.

(** [s[:len(s)-1]] when [s] is not empty. *)
Fixpoint drop_last (s : string) : string :=
  match s with
  | EmptyString => EmptyString
  | String _ EmptyString => EmptyString
  | String c t => String c (drop_last t)
  end.

(** ** Package [unicode/utf8] *)
Module utf8.

Definition RuneError : Z := 0xFFFD.
Definition RuneSelf : Z := 0x80.
Definition MaxRune : Z := 0x10FFFF.

(** The table [first] together with [acceptRanges]: for a leading byte of
    a multi-byte sequence, the length of the sequence and the range the
    second byte must lie in.  [None] is an ASCII byte or an invalid leading
    byte; both decode with width 1. *)
Definition first (b : Z) : option (nat * Z * Z) :=
  if (0xC2 <=? b) && (b <=? 0xDF) then Some (2%nat, 0x80, 0xBF)
  else if b =? 0xE0 then Some (3%nat, 0xA0, 0xBF)
  else if (0xE1 <=? b) && (b <=? 0xEC) then Some (3%nat, 0x80, 0xBF)
  else if b =? 0xED then Some (3%nat, 0x80, 0x9F)
  else if (0xEE <=? b) && (b <=? 0xEF) then Some (3%nat, 0x80, 0xBF)
  else if b =? 0xF0 then Some (4%nat, 0x90, 0xBF)
  else if (0xF1 <=? b) && (b <=? 0xF3) then Some (4%nat, 0x80, 0xBF)
  else if b =? 0xF4 then Some (4%nat, 0x80, 0x8F)
  else None.

(** A continuation byte, [locb <= b <= hicb]. *)
Definition cont (b : Z) : bool := (0x80 <=? b) && (b <=? 0xBF).

(** [DecodeRuneInString] on a string whose first byte is [c0] and whose
    remaining bytes are [t]: the rune and its width in bytes. *)
Definition DecodeRune (c0 : ascii) (t : string) : Z * nat :=
  let s0 := byteZ c0 in
  match first s0 with
  | None => (if s0 <? RuneSelf then s0 else RuneError, 1%nat)
  | Some (sz, lo, hi) =>
      match t with
      | EmptyString => (RuneError, 1%nat)
      | String c1 t1 =>
          let s1 := byteZ c1 in
          if (s1 <? lo) || (hi <? s1) then (RuneError, 1%nat)
          else if (sz <=? 2)%nat then
            (Z.lor (Z.shiftl (Z.land s0 0x1F) 6) (Z.land s1 0x3F), 2%nat)
          else
            match t1 with
            | EmptyString => (RuneError, 1%nat)
            | String c2 t2 =>
                let s2 := byteZ c2 in
                if negb (cont s2) then (RuneError, 1%nat)
                else if (sz <=? 3)%nat then
                  (Z.lor (Z.lor (Z.shiftl (Z.land s0 0x0F) 12)
                                (Z.shiftl (Z.land s1 0x3F) 6))
                         (Z.land s2 0x3F), 3%nat)
                else
                  match t2 with
                  | EmptyString => (RuneError, 1%nat)
                  | String c3 _ =>
                      let s3 := byteZ c3 in
                      if negb (cont s3) then (RuneError, 1%nat)
                      else
                        (Z.lor (Z.lor (Z.lor (Z.shiftl (Z.land s0 0x07) 18)
                                             (Z.shiftl (Z.land s1 0x3F) 12))
                                      (Z.shiftl (Z.land s2 0x3F) 6))
                               (Z.land s3 0x3F), 4%nat)
                  end
            end
      end
  end.

(** [AppendRune] to the empty buffer: the UTF-8 encoding of [r]; runes out
    of range and surrogates are written as [RuneError]. *)
Definition EncodeRune (r : Z) : string :=
  let cb (z : Z) := Zbyte (Z.lor 0x80 (Z.land z 0x3F)) in
  let runeError := String (Zbyte 0xEF) (String (Zbyte 0xBF) (String (Zbyte 0xBD) EmptyString)) in
  if (0 <=? r) && (r <=? 0x7F) then String (Zbyte r) EmptyString
  else if (0 <=? r) && (r <=? 0x7FF) then
    String (Zbyte (Z.lor 0xC0 (Z.shiftr r 6))) (String (cb r) EmptyString)
  else if (r <? 0) || (MaxRune <? r) || ((0xD800 <=? r) && (r <=? 0xDFFF)) then
    runeError
  else if r <=? 0xFFFF then
    String (Zbyte (Z.lor 0xE0 (Z.shiftr r 12)))
      (String (cb (Z.shiftr r 6)) (String (cb r) EmptyString))
  else
    String (Zbyte (Z.lor 0xF0 (Z.shiftr r 18)))
      (String (cb (Z.shiftr r 12))
         (String (cb (Z.shiftr r 6)) (String (cb r) EmptyString))).

End utf8.

(** [s[n:]] for [n <= len(s)]. *)
Fixpoint drop_bytes (n : nat) (s : string) : string :=
  match n, s with
  | O, _ => s
  | S n', String _ t => drop_bytes n' t
  | S _, EmptyString => EmptyString
  end.

(** ** Packages [unicode] and [strings] *)
Section GoStrings.

(** [unicode.To(unicode.LowerCase, r)] for [r > unicode.MaxASCII]: the
    lower-case mapping of the Unicode case tables. *)
Variable lowerTable : Z -> Z.

(** [unicode.IsDigit] on a rune obtained from a single byte
    ([r <= unicode.MaxLatin1]): the Latin-1 branch of the function. *)
Definition unicode_IsDigit (r : Z) : bool := (48 <=? r) && (r <=? 57).

(** [unicode.ToLower]. *)
Definition unicode_ToLower (r : Z) : Z :=
  if r <=? 0x7F then
    if (65 <=? r) && (r <=? 90) then r + 32 else r
  else lowerTable r.

(** [strings.Map(mapping, s)]: every rune of [s] (an invalid byte reads as
    [utf8.RuneError]) is replaced by the encoding of its image, and runes
    with a negative image are dropped.  [fuel] bounds the number of runes. *)
Fixpoint Map_loop (mapping : Z -> Z) (fuel : nat) (s : string) : string :=
  match fuel, s with
  | O, _ => EmptyString
  | _, EmptyString => EmptyString
  | S fuel', String c0 t =>
      let '(c, width) := utf8.DecodeRune c0 t in
      let r := mapping c in
      (if 0 <=? r then utf8.EncodeRune r else EmptyString)
        +:+ Map_loop mapping fuel' (drop_bytes (width - 1)%nat t)
  end.

Definition strings_Map (mapping : Z -> Z) (s : string) : string :=
  Map_loop mapping (String.length s) s.

(** [c >= utf8.RuneSelf] nowhere in [s]. *)
Fixpoint isASCII (s : string) : bool :=
  match s with
  | EmptyString => true
  | String c t => (byteZ c <? utf8.RuneSelf) && isASCII t
  end.

(** The byte loop of [strings.ToLower] on an ASCII string. *)
Fixpoint lowerASCII (s : string) : string :=
  match s with
  | EmptyString => EmptyString
  | String c t =>
      let z := byteZ c in
      String (if (65 <=? z) && (z <=? 90) then Zbyte (z + 32) else c)
             (lowerASCII t)
  end.

(** [strings.ToLower]. *)
Definition strings_ToLower (s : string) : string :=
  if isASCII s then lowerASCII s else strings_Map unicode_ToLower s.

(** [strings.Index(s, sep)] as a split: the text before the first
    occurrence of [sep] in [s] and the text after it, or [None] when
    [strings.Index] returns -1. *)
Fixpoint cut (sep : string) (s : string) : option (string * string) :=
  if String.prefix sep s then
    Some (EmptyString, drop_bytes (String.length sep) s)
  else
    match s with
    | EmptyString => None
    | String c t =>
        match cut sep t with
        | Some (before, after) => Some (String c before, after)
        | None => None
        end
    end.

(** The loop of [strings.genSplit] for a non-empty separator: at most [n]
    cuts, then the rest. *)
Fixpoint split_loop (sep : string) (n : nat) (s : string) : list string :=
  match n with
  | O => [s]
  | S n' =>
      match cut sep s with
      | None => [s]
      | Some (before, after) => before :: split_loop sep n' after
      end
  end.

(** [strings.SplitN(s, sep, n)] for a non-empty [sep] and [n >= 0]: [nil]
    for [n = 0], otherwise at most [min n (len(s)+1)] pieces, the last one
    the unsplit remainder. *)
Definition strings_SplitN (s sep : string) (n : nat) : list string :=
  match n with
  | O => []
  | S _ => split_loop sep (Nat.min n (S (String.length s)) - 1) s
  end.

End GoStrings.

(** ** Outcomes of Go calls *)

(** A Go run-time panic. *)
Inductive panic : Type :=
| IndexOutOfRange (index : Z) (length : Z)
| NilDereference.

(** What a Go expression evaluates to: a value, or a run-time panic that
    unwinds the goroutine. *)
Inductive outcome (A : Type) : Type :=
| Val (a : A)
| Panics (p : panic).
Arguments Val {A} a.
Arguments Panics {A} p.

(** [s[i]] on a string, with Go's bounds check. *)
Definition index_byte (s : string) (i : Z) : outcome ascii :=
  if (i <? 0) || (Z.of_nat (String.length s) <=? i) then
    Panics (IndexOutOfRange i (Z.of_nat (String.length s)))
  else
    match String.get (Z.to_nat i) s with
    | Some c => Val c
    | None => Panics (IndexOutOfRange i (Z.of_nat (String.length s)))
    end.

(** ** Task ID sanitizer *)
Section Sanitizer.

Variable lowerTable : Z -> Z.

(** [sanitizeTaskID]: lower-case the ID and, when its last byte is a digit,
    replace that byte by the letter a. *)
Definition sanitizeTaskID (s : string) : outcome string :=
  let s := strings_ToLower lowerTable s in
  match index_byte s (Z.of_nat (String.length s) - 1) with
  | Panics p => Panics p
  | Val c =>
      if unicode_IsDigit (byteZ c) then
        Val (String.substring 0 (String.length s - 1) s +:+ "a")
      else Val s
  end.

End Sanitizer.

(** Whether the last byte of [s] is one of the digits 0 to 9. *)
Definition ends_in_digit (s : string) : bool :=
  match last_byte s with
  | Some c => unicode_IsDigit (byteZ c)
  | None => false
  end.


(** ** Errors and results *)

(** A Go [error] value, kept as the format and the arguments it was made
    from: [Errorf] for [fmt.Errorf], [errors.Errorf] and [errors.New],
    [Wrapf] for [errors.Wrap] and [errors.Wrapf] around a cause. *)
Inductive error : Type :=
| Errorf (format : string) (args : list string)
| Wrapf (cause : error) (format : string) (args : list string).

(** A Go return of the form [(T, error)]. *)
Inductive result (A : Type) : Type :=
| Ok (a : A)
| Err (e : error).
Arguments Ok {A} a.
Arguments Err {A} e.

(** ** Data model *)

(** [map[string]string] with its [nil]: [None] is the nil map. *)
Abbreviation Args := (option (gmap string string)) (only parsing).

(** [args[k]]: the zero value when the key is absent or the map is nil. *)
Definition args_get (args : Args) (k : string) : string :=
  match args with
  | Some m => default "" (m !! k)
  | None => ""
  end.

Record RegistryAuth : Type := mkRegistryAuth {
  Token : string;
  Repo : string
}.

(** [io.Writer] values the pipeline is handed. *)
Inductive Writer : Type :=
| Stderr
| UserWriter (id : nat).

(** Handles on resources owned by a collaborator. *)
Inductive Client : Type := DockerClient (id : nat).
Inductive Tree : Type := TreeHandle (id : nat).
Inductive Archive : Type := ArchiveHandle (id : nat).
Inductive Stream : Type := StreamHandle (id : nat).

(** [build.Config], with the [BuildEnv] field that [Local] sets. *)
Record Config : Type := mkConfig {
  Kind : string;
  Root : string;
  Builder_ : string;
  Args_ : Args;
  Auth : option RegistryAuth;
  Writer_ : option Writer;
  BuildEnv : gmap string string
}.

Record DockerfileConfig : Type := mkDockerfileConfig {
  df_Builder : string;
  df_Root : string;
  df_Args : Args
}.

(** [build.Builder]. *)
Record Builder : Type := mkBuilder {
  root : string;
  name : string;
  args : Args;
  writer : option Writer;
  auth : option RegistryAuth;
  client : Client
}.

Record BuildOutput : Type := mkBuildOutput { Tag : string }.

(** [types.AuthConfig] of the Docker API. *)
Record AuthConfig : Type := mkAuthConfig {
  Username : string;
  Password : string;
  Auth_ : string;
  Email : string;
  ServerAddress : string;
  IdentityToken : string;
  RegistryToken : string
}.

(** The fields of [types.ImageBuildOptions] that [Build] sets; every other
    field keeps its zero value. *)
Record ImageBuildOptions : Type := mkImageBuildOptions {
  Tags : list string;
  BuildArgs : gmap string (option string);
  Platform : string;
  AuthConfigs : gmap string AuthConfig
}.

(** [types.ImagePushOptions]: [RegistryAuth] is the only field [Push] sets. *)
Record ImagePushOptions : Type := mkImagePushOptions { RegistryAuth_ : string }.

(** [types.ImageSummary]: the field [Build] reads. *)
Record ImageSummary : Type := mkImageSummary { RepoTags : list string }.

(** [api.RegistryTokenResponse]. *)
Record RegistryTokenResponse : Type := mkRegistryTokenResponse {
  rt_Token : string;
  rt_Repo : string
}.

(** [api.GetConfigRequest]. *)
Record GetConfigRequest : Type := mkGetConfigRequest {
  req_Name : string;
  req_Tag : string;
  ShowSecret : bool
}.

(** [api.Config] and [api.GetConfigResponse]. *)
Record ApiConfig : Type := mkApiConfig {
  cfg_Name : string;
  cfg_Tag : string;
  cfg_Value : string;
  IsSecret : bool
}.
Record GetConfigResponse : Type := mkGetConfigResponse { Config_ : ApiConfig }.

(** [configs.NameTag], the result of [configs.ParseName]. *)
Record NameTag : Type := mkNameTag { nt_Name : string; nt_Tag : string }.

(** [api.EnvVarValue]: both fields are pointers. *)
Record EnvVarValue : Type := mkEnvVarValue {
  Value : option string;
  ConfigRef : option string
}.

(** [api.TaskEnv]. *)
Abbreviation TaskEnv := (gmap string EnvVarValue) (only parsing).

(** ** Programs over the collaborators *)

(** A call that leaves the process. *)
Inductive call : Type :=
| GetRegistryToken
| GetConfig (req : GetConfigRequest)
| LoggerLog (msg : string)
| Stat (path : string)
| NewClientWithOpts
| ImageBuild (cl : Client) (context : Archive) (opts : ImageBuildOptions)
| ImageList (cl : Client)
| ImagePush (cl : Client) (tag : string) (opts : ImagePushOptions)
| IoCopy (dst : option Writer) (src : Stream)
| StreamClose (src : Stream)
| NewTree
| TreeWrite (t : Tree) (path : string) (content : string)
| TreeCopy (t : Tree) (src : string)
| TreeArchive (t : Tree)
| TreeClose (t : Tree)
| ArchiveClose (a : Archive).

(** What the collaborator returns to each call.  [Stat] answers whether the
    path exists. *)
Definition answer (c : call) : Type :=
  match c with
  | GetRegistryToken => result RegistryTokenResponse
  | GetConfig _ => result GetConfigResponse
  | LoggerLog _ => unit
  | Stat _ => bool
  | NewClientWithOpts => result Client
  | ImageBuild _ _ _ => result Stream
  | ImageList _ => result (list ImageSummary)
  | ImagePush _ _ _ => result Stream
  | IoCopy _ _ => option error
  | StreamClose _ => unit
  | NewTree => result Tree
  | TreeWrite _ _ _ => option error
  | TreeCopy _ _ => option error
  | TreeArchive _ => result Archive
  | TreeClose _ => unit
  | ArchiveClose _ => unit
  end.

(** A Go function body: it returns, panics, or makes a call and goes on
    with the answer. *)
Inductive prog (A : Type) : Type :=
| Ret (a : A)
| Abort (p : panic)
| Do (c : call) (k : answer c -> prog A).
Arguments Ret {A} a.
Arguments Abort {A} p.
Arguments Do {A} c k.

Fixpoint prog_bind {A B : Type} (f : A -> prog B) (p : prog A) : prog B :=
  match p with
  | Ret a => f a
  | Abort q => Abort q
  | Do c k => Do c (fun x => prog_bind f (k x))
  end.

#[global] Instance prog_mret : MRet prog := fun A a => Ret a.
#[global] Instance prog_mbind : MBind prog := fun A B f p => prog_bind f p.

(** A call whose answer is returned as it is. *)
Definition perform (c : call) : prog (answer c) := Do c Ret.

(** An expression that may panic, inside a function body. *)
Definition eval {A : Type} (o : outcome A) : prog A :=
  match o with
  | Val a => Ret a
  | Panics p => Abort p
  end.

(** [defer cleanup] in front of [body]: [cleanup] runs when [body] returns
    and when it panics. *)
Fixpoint defer {A : Type} (cleanup : prog unit) (body : prog A) : prog A :=
  match body with
  | Ret a => prog_bind (fun _ => Ret a) cleanup
  | Abort q => prog_bind (fun _ => Abort q) cleanup
  | Do c k => Do c (fun x => defer cleanup (k x))
  end.

(** A call together with the answer it got. *)
Record event : Type := Event { ev_call : call; ev_answer : answer ev_call }.

(** A collaborator: it answers every call and moves to a new state. *)
Definition handler (W : Type) : Type := forall c : call, W -> answer c * W.

(** One run of a program against a collaborator: what the function does,
    the calls it made with their answers, and the final state. *)
Fixpoint run {W A : Type} (h : handler W) (p : prog A) (w : W)
  : outcome A * list event * W :=
  match p with
  | Ret a => (Val a, [], w)
  | Abort q => (Panics q, [], w)
  | Do c k =>
      let '(x, w1) := h c w in
      let '(r, t, w2) := run h (k x) w1 in
      (r, Event c x :: t, w2)
  end.

(** [P] holds of the trace and the outcome on every path of the program,
    whatever the answers. *)
Fixpoint always {A : Type} (P : list event -> outcome A -> Prop) (p : prog A) : Prop :=
  match p with
  | Ret a => P [] (Val a)
  | Abort q => P [] (Panics q)
  | Do c k => forall x : answer c, always (fun t r => P (Event c x :: t) r) (k x)
  end.

(** ** Package [text/template], on parsed templates *)

(** The actions the templates of this package use. *)
#[local] Set Warnings "-register-all".
Inductive node : Type :=
| Text (s : string)
| Field (name : string)
| IfField (name : string) (body : list node)
| IfNotField (name : string) (body : list node).

(** A field of the data struct handed to a template. *)
Inductive value : Type :=
| Str (s : string)
| Bool (b : bool).

Definition lookup_field (data : list (string * value)) (name : string) : result value :=
  match List.find (fun kv => String.eqb (fst kv) name) data with
  | Some kv => Ok (snd kv)
  | None => Err (Errorf "can't evaluate field %s" [name])
  end.

(** How a pipeline value prints. *)
Definition print_value (v : value) : string :=
  match v with
  | Str s => s
  | Bool true => "true"
  | Bool false => "false"
  end.

(** The truth of a pipeline value: the empty values are false. *)
Definition truth (v : value) : bool :=
  match v with
  | Str s => negb (String.eqb s "")
  | Bool b => b
  end.

(** The nodes of a list, executed in order into one buffer. *)
Definition execute_list (exec : node -> result string) : list node -> result string :=
  fix go (t : list node) : result string :=
    match t with
    | [] => Ok ""
    | n :: rest =>
        match exec n with
        | Err e => Err e
        | Ok a =>
            match go rest with
            | Ok b => Ok (a +:+ b)
            | Err e => Err e
            end
        end
    end.

(** One action of a template. *)
Fixpoint execute_node (data : list (string * value)) (n : node) : result string :=
  match n with
  | Text s => Ok s
  | Field f =>
      match lookup_field data f with
      | Ok v => Ok (print_value v)
      | Err e => Err e
      end
  | IfField f body =>
      match lookup_field data f with
      | Ok v => if truth v then execute_list (execute_node data) body else Ok ""
      | Err e => Err e
      end
  | IfNotField f body =>
      match lookup_field data f with
      | Ok v => if negb (truth v) then execute_list (execute_node data) body else Ok ""
      | Err e => Err e
      end
  end.

(** [Template.Execute] into a string builder. *)
Definition execute (t : list node) (data : list (string * value)) : result string :=
  execute_list (execute_node data) t.

(** Modelled from the spec: [applyTemplate] is a helper of this package that
    is not among the sources; section 4.3 has template rendering as pure text
    substitution whose failure is a template error, so it executes the parsed
    template on the data, as [pythonLegacy] does in line. *)
Definition applyTemplate (t : list node) (data : list (string * value)) : result string :=
  execute t data.

(** [strings.Split(s, sep)] for a non-empty [sep]. *)
Definition strings_Split (s sep : string) : list string :=
  split_loop sep (String.length s) s.

(** [strings.Join(elems, sep)]. *)
Fixpoint strings_Join (elems : list string) (sep : string) : string :=
  match elems with
  | [] => ""
  | [e] => e
  | e :: rest => e +:+ sep +:+ strings_Join rest sep
  end.

(** [filepath.IsAbs] as Unix has it: [strings.HasPrefix(path, "/")]. *)
Definition unix_IsAbs (path : string) : bool := String.prefix "/" path.

(** ** Registry auth provider *)

(** [RegistryAuth.host]: the first of the at most two pieces of [Repo] cut
    at a slash.  [SplitN] returns at least one piece here. *)
Definition host (r : RegistryAuth) : string :=
  match strings_SplitN (Repo r) "/" 2 with
  | h :: _ => h
  | [] => ""
  end.

(** [Builder.registryAuth]; [b.auth] is a pointer. *)
Definition registryAuth (b : Builder) : outcome AuthConfig :=
  match auth b with
  | None => Panics NilDereference
  | Some a =>
      Val {| Username := "oauth2accesstoken"; Password := Token a;
             Auth_ := ""; Email := ""; ServerAddress := "";
             IdentityToken := ""; RegistryToken := "" |}
  end.

(** [Builder.authconfigs]: the key is evaluated before the value. *)
Definition authconfigs (b : Builder) : outcome (gmap string AuthConfig) :=
  match auth b with
  | None => Panics NilDereference
  | Some a =>
      match registryAuth b with
      | Panics p => Panics p
      | Val ac => Val {[ host a := ac ]}
      end
  end.

(** ** The collaborators that are pure functions *)

(** Library functions and package data that the sources call and do not
    contain. *)
Record Externals : Type := mkExternals {
  (** [unicode.To(unicode.LowerCase, r)] above ASCII. *)
  lowerTable : Z -> Z;
  (** [filepath.IsAbs] of the operating system the CLI is built for. *)
  filepath_IsAbs : string -> bool;
  (** [filepath.Join] of two elements. *)
  filepath_Join : string -> string -> string;
  (** [path.Base]. *)
  path_Base : string -> string;
  (** [json.Marshal] of a [types.AuthConfig]. *)
  json_Marshal : AuthConfig -> result string;
  (** [base64.URLEncoding.EncodeToString]. *)
  base64_URLEncoding_EncodeToString : string -> string;
  (** [GetVersion(name, hint)] followed by [String()] on the version: the
      base image looked up in the version table. *)
  GetVersion : string -> string -> result string;
  (** [configs.ParseName]. *)
  configs_ParseName : string -> result NameTag;
  (** The parsed text of the embedded file [python-shim.py]. *)
  pythonShim : list node;
  (** What a generator other than Python's renders once its entrypoint is
      known to exist. *)
  renderRecipe : string -> string -> Args -> result string;
  (** The order in which a [range] loop visits a [TaskEnv]. *)
  range_TaskEnv : TaskEnv -> list (string * EnvVarValue)
}.

(** [definitions.Definition]: its [Env], and what [GetKindAndOptions]
    decodes from its per-kind part. *)
Record Definition_ : Type := mkDefinition {
  Env : TaskEnv;
  GetKindAndOptions : result (string * Args)
}.

(** [taskdir.TaskDirectory]. *)
Record TaskDirectory : Type := mkTaskDirectory { DefinitionRootPath : string }.

(** ** The package [build] *)
Section Build.

Variable X : Externals.

(** [New]: a builder from a configuration.  Creating the Docker client from
    the process environment is the one call it makes. *)
Definition New (c : Config) : prog (result Builder) :=
  if negb (filepath_IsAbs X (Root c)) then
    Ret (Err (Errorf "build: expected an absolute path, got %q" [Root c]))
  else
    let builder := if String.eqb (Builder_ c) "" then "manual" else Builder_ c in
    let args := match Args_ c with None => Some ∅ | Some m => Some m end in
    let writer := match Writer_ c with None => Some Stderr | Some w => Some w end in
    match Auth c with
    | None => Ret (Err (Errorf "build: builder requires registry auth" []))
    | Some a =>
        cl ← perform NewClientWithOpts;
        match cl with
        | Err e => Ret (Err e)
        | Ok cl =>
            Ret (Ok {| root := Root c; name := builder; args := args;
                       writer := writer; auth := Some a; client := cl |})
        end
    end.

(** [exist]: the first path that does not exist is reported by its base
    name. *)
Fixpoint exist (paths : list string) : prog (option error) :=
  match paths with
  | [] => Ret None
  | p :: rest =>
      found ← perform (Stat p);
      if found : bool then exist rest
      else Ret (Some (Errorf "build: the file %s is required" [path_Base X p]))
  end.

(** Modelled from the spec: the package [fsx] is not among the sources.
    Section 4.3 has a missing required file fail with an error naming the
    file, and section 6 has these checks as simple existence checks, so
    [fsx.AssertExistsAll] is [exist] and [fsx.Exists] is one [Stat]. *)
Definition fsx_AssertExistsAll (paths : list string) : prog (option error) :=
  exist paths.
Definition fsx_Exists (path : string) : prog bool := perform (Stat path).

(** [NamePython]. *)
Definition NamePython : string := "python".

(** The Dockerfile template of [python]. *)
Definition python_dockerfile : list node :=
  [ Text (newline +:+ "    FROM ");
    Field "Base";
    Text (newline +:+ "    WORKDIR /airplane" +:+ newline
          +:+ "    RUN mkdir -p .airplane && echo '");
    Field "Shim";
    Text ("' > .airplane/shim.py" +:+ newline +:+ "    ");
    IfField "HasRequirements"
      [ Text (newline +:+ "    COPY requirements.txt ." +:+ newline
              +:+ "    RUN pip install -r requirements.txt" +:+ newline +:+ "    ") ];
    Text (newline +:+ "    COPY . ." +:+ newline
          +:+ "    ENTRYPOINT [" +:+ dquote +:+ "python" +:+ dquote +:+ ", "
          +:+ dquote +:+ ".airplane/shim.py" +:+ dquote +:+ "]" +:+ newline +:+ tab) ].

(** The Dockerfile template of [pythonLegacy]. *)
Definition pythonLegacy_dockerfile : list node :=
  [ Text (newline +:+ "    FROM ");
    Field "Base";
    Text (newline +:+ "    WORKDIR /airplane" +:+ newline +:+ tab +:+ tab);
    IfNotField "HasRequirements"
      [ Text (newline +:+ tab +:+ tab +:+ "RUN echo > requirements.txt"
              +:+ newline +:+ tab +:+ tab) ];
    Text (newline +:+ "    COPY . ." +:+ newline
          +:+ "    RUN pip install -r requirements.txt" +:+ newline
          +:+ "    ENTRYPOINT [" +:+ dquote +:+ "python" +:+ dquote +:+ ", "
          +:+ dquote +:+ "/airplane/");
    Field "Entrypoint";
    Text (dquote +:+ "]" +:+ newline +:+ tab) ].

(** [PythonShim]: the shim file for an entrypoint. *)
Definition PythonShim (entrypoint : string) : result string :=
  match applyTemplate (pythonShim X) [("Entrypoint", Str entrypoint)] with
  | Err e => Err (Wrapf e "rendering shim" [])
  | Ok shim => Ok shim
  end.

(** [pythonLegacy]: the Dockerfile of legacy Python support. *)
Definition pythonLegacy (root : string) (args : Args) : prog (result string) :=
  let entrypoint := args_get args "entrypoint" in
  let main := filepath_Join X root entrypoint in
  let reqs := filepath_Join X root "requirements.txt" in
  missing ← fsx_AssertExistsAll [main];
  match missing with
  | Some e => Ret (Err e)
  | None =>
      match GetVersion X NamePython "3" with
      | Err e => Ret (Err e)
      | Ok v =>
          noreqs ← fsx_AssertExistsAll [reqs];
          match execute pythonLegacy_dockerfile
                  [("Base", Str v); ("Entrypoint", Str entrypoint);
                   ("HasRequirements",
                    Bool (match noreqs with None => true | Some _ => false end))] with
          | Err e => Ret (Err e)
          | Ok buf => Ret (Ok buf)
          end
      end
  end.

(** [python]: the Dockerfile for Python, with the shim unless the [shim]
    option is anything but true. *)
Definition python (root : string) (args : Args) : prog (result string) :=
  if negb (String.eqb (args_get args "shim") "true") then pythonLegacy root args
  else
    let entrypoint := args_get args "entrypoint" in
    missing ← fsx_AssertExistsAll [filepath_Join X root entrypoint];
    match missing with
    | Some e => Ret (Err e)
    | None =>
        match GetVersion X NamePython "3" with
        | Err e => Ret (Err e)
        | Ok v =>
            match PythonShim entrypoint with
            | Err e => Ret (Err e)
            | Ok shim =>
                hasreqs ← fsx_Exists (filepath_Join X root "requirements.txt");
                match applyTemplate python_dockerfile
                        [("Base", Str v);
                         ("Shim", Str (strings_Join (strings_Split shim newline)
                                         ("\n\" +:+ newline)));
                         ("HasRequirements", Bool hasreqs)] with
                | Err e => Ret (Err (Wrapf e "rendering dockerfile" []))
                | Ok df => Ret (Ok df)
                end
            end
        end
    end.

(** Modelled from the spec: the generators [golang], [deno], [node] and
    [docker] are not among the sources.  Section 4.3 has every generator
    verify that the entrypoint exists under the root, a missing file failing
    with an error that names it, before it resolves a version and renders
    its template. *)
Definition generator (kind : string) (root : string) (args : Args) : prog (result string) :=
  let entrypoint := args_get args "entrypoint" in
  missing ← exist [filepath_Join X root entrypoint];
  match missing with
  | Some e => Ret (Err e)
  | None => Ret (renderRecipe X kind root args)
  end.

Definition BuilderNameGo : string := "go".
Definition BuilderNameDeno : string := "deno".
Definition BuilderNamePython : string := "python".
Definition BuilderNameNode : string := "node".
Definition BuilderNameDocker : string := "docker".

Definition golang : string -> Args -> prog (result string) := generator BuilderNameGo.
Definition deno : string -> Args -> prog (result string) := generator BuilderNameDeno.
Definition node_ : string -> Args -> prog (result string) := generator BuilderNameNode.
Definition docker : string -> Args -> prog (result string) := generator BuilderNameDocker.

(** [BuildDockerfile]: the switch on the builder name. *)
Definition BuildDockerfile (c : DockerfileConfig) : prog (result string) :=
  if String.eqb (df_Builder c) BuilderNameGo then golang (df_Root c) (df_Args c)
  else if String.eqb (df_Builder c) BuilderNameDeno then deno (df_Root c) (df_Args c)
  else if String.eqb (df_Builder c) BuilderNamePython then python (df_Root c) (df_Args c)
  else if String.eqb (df_Builder c) BuilderNameNode then node_ (df_Root c) (df_Args c)
  else if String.eqb (df_Builder c) BuilderNameDocker then docker (df_Root c) (df_Args c)
  else Ret (Err (Errorf "build: unknown builder type %q" [df_Builder c])).

(** The search of [Build] through the image listing: the first tag equal
    to [tag]. *)
Fixpoint find_tag (tag : string) (images : list ImageSummary) : option string :=
  match images with
  | [] => None
  | img :: rest =>
      match List.find (fun t => String.eqb t tag) (RepoTags img) with
      | Some t => Some t
      | None => find_tag tag rest
      end
  end.

(** The tag [Build] composes. *)
Definition image_tag (repo sanitized version : string) : string :=
  repo +:+ "/" +:+ ("task-" +:+ sanitized) +:+ ":" +:+ version.

(** [Builder.Build]. *)
Definition Build (b : Builder) (taskID version : string) : prog (result BuildOutput) :=
  match auth b with
  | None => Abort NilDereference
  | Some a =>
      let repo := Repo a in
      sanitized ← eval (sanitizeTaskID (lowerTable X) taskID);
      let tag := image_tag repo sanitized version in
      tree ← perform NewTree;
      match tree with
      | Err e => Ret (Err (Wrapf e "new tree" []))
      | Ok tree =>
          defer (perform (TreeClose tree)) (
            buf ← BuildDockerfile {| df_Builder := name b; df_Root := root b;
                                     df_Args := args b |};
            match buf with
            | Err e => Ret (Err (Wrapf e "creating dockerfile" []))
            | Ok buf =>
                werr ← perform (TreeWrite tree "Dockerfile" buf);
                match werr with
                | Some e => Ret (Err (Wrapf e "writing dockerfile" []))
                | None =>
                    cerr ← perform (TreeCopy tree (root b));
                    match cerr with
                    | Some e => Ret (Err (Wrapf e "copy %q" [root b]))
                    | None =>
                        bc ← perform (TreeArchive tree);
                        match bc with
                        | Err e => Ret (Err (Wrapf e "archive tree" []))
                        | Ok bc =>
                            defer (perform (ArchiveClose bc)) (
                              acs ← eval (authconfigs b);
                              let opts := {| Tags := [tag]; BuildArgs := ∅;
                                             Platform := "linux/amd64";
                                             AuthConfigs := acs |} in
                              resp ← perform (ImageBuild (client b) bc opts);
                              match resp with
                              | Err e => Ret (Err (Wrapf e "image build" []))
                              | Ok body =>
                                  defer (perform (StreamClose body)) (
                                    cp ← perform (IoCopy (writer b) body);
                                    match cp with
                                    | Some e => Ret (Err (Wrapf e "copy output" []))
                                    | None =>
                                        images ← perform (ImageList (client b));
                                        match images with
                                        | Err e => Ret (Err (Wrapf e "image list" []))
                                        | Ok images =>
                                            match find_tag tag images with
                                            | Some t => Ret (Ok {| Tag := t |})
                                            | None =>
                                                Ret (Err (Errorf "build: image with the tag %q was not found" [tag]))
                                            end
                                        end
                                    end)
                              end)
                        end
                    end
                end
            end)
      end
  end.

(** [Builder.Push]. *)
Definition Push (b : Builder) (tag : string) : prog (option error) :=
  ac ← eval (registryAuth b);
  match json_Marshal X ac with
  | Err e => Ret (Some e)
  | Ok authjson =>
      resp ← perform (ImagePush (client b) tag
                        {| RegistryAuth_ := base64_URLEncoding_EncodeToString X authjson |});
      match resp with
      | Err e => Ret (Some e)
      | Ok resp =>
          defer (perform (StreamClose resp)) (
            cp ← perform (IoCopy (writer b) resp);
            match cp with
            | Some e => Ret (Some (Wrapf e "image push" []))
            | None => Ret None
            end)
      end
  end.

(** The loop of [getBuildEnv] over the entries in the order of the range. *)
Fixpoint getBuildEnv_loop (entries : list (string * EnvVarValue))
                          (buildEnv : gmap string string)
  : prog (result (gmap string string)) :=
  match entries with
  | [] => Ret (Ok buildEnv)
  | (k, v) :: rest =>
      match Value v with
      | Some literal => getBuildEnv_loop rest (<[k := literal]> buildEnv)
      | None =>
          match ConfigRef v with
          | Some config =>
              match configs_ParseName X config with
              | Err e => Ret (Err e)
              | Ok nt =>
                  res ← perform (GetConfig {| req_Name := nt_Name nt;
                                              req_Tag := nt_Tag nt;
                                              ShowSecret := true |});
                  match res with
                  | Err e => Ret (Err e)
                  | Ok res =>
                      getBuildEnv_loop rest (<[k := cfg_Value (Config_ res)]> buildEnv)
                  end
              end
          | None => getBuildEnv_loop rest buildEnv
          end
      end
  end.

(** [getBuildEnv]. *)
Definition getBuildEnv (def : Definition_) : prog (result (gmap string string)) :=
  getBuildEnv_loop (range_TaskEnv X (Env def)) ∅.

(** [Local]: build the task image with the local Docker daemon and push
    it. *)
Definition Local (dir : TaskDirectory) (def : Definition_) (taskID : string)
  : prog (option error) :=
  registry ← perform GetRegistryToken;
  match registry with
  | Err e => Ret (Some (Wrapf e "getting registry token" []))
  | Ok registry =>
      buildEnv ← getBuildEnv def;
      match buildEnv with
      | Err e => Ret (Some e)
      | Ok buildEnv =>
          match GetKindAndOptions def with
          | Err e => Ret (Some e)
          | Ok (kind, options) =>
              b ← New {| Kind := ""; Root := DefinitionRootPath dir;
                         Builder_ := kind; Args_ := options;
                         Auth := Some {| Token := rt_Token registry;
                                         Repo := rt_Repo registry |};
                         Writer_ := None; BuildEnv := buildEnv |};
              match b with
              | Err e => Ret (Some (Wrapf e "new build" []))
              | Ok b =>
                  _ ← perform (LoggerLog "Building...");
                  bo ← Build b taskID "latest";
                  match bo with
                  | Err e => Ret (Some (Wrapf e "build" []))
                  | Ok bo =>
                      _ ← perform (LoggerLog "Pushing...");
                      perr ← Push b (Tag bo);
                      match perr with
                      | Some e => Ret (Some (Wrapf e "push" []))
                      | None => Ret None
                      end
                  end
              end
          end
      end
  end.

End Build.

(** ** Reading a trace *)

(** The collaborator a call goes to. *)
Inductive party : Type :=
| AirplaneAPI
| Logger
| Filesystem
| DockerInit
| DockerEngine
| Staging
| Streams.

Definition party_of (c : call) : party :=
  match c with
  | GetRegistryToken | GetConfig _ => AirplaneAPI
  | LoggerLog _ => Logger
  | Stat _ => Filesystem
  | NewClientWithOpts => DockerInit
  | ImageBuild _ _ _ | ImageList _ | ImagePush _ _ _ => DockerEngine
  | IoCopy _ _ | StreamClose _ => Streams
  | NewTree | TreeWrite _ _ _ | TreeCopy _ _ | TreeArchive _ | TreeClose _
  | ArchiveClose _ => Staging
  end.

(** The answer to a [Stat], with its path. *)
Definition stat_of (e : event) : option (string * bool) :=
  match e with
  | Event c x =>
      match c return answer c -> option (string * bool) with
      | Stat p => fun found => Some (p, found)
      | _ => fun _ => None
      end x
  end.

(** The answer to a [GetRegistryToken]. *)
Definition token_of (e : event) : option (result RegistryTokenResponse) :=
  match e with
  | Event c x =>
      match c return answer c -> option (result RegistryTokenResponse) with
      | GetRegistryToken => fun r => Some r
      | _ => fun _ => None
      end x
  end.

(** The answer to a [GetConfig], with its request. *)
Definition config_of (e : event) : option (GetConfigRequest * result GetConfigResponse) :=
  match e with
  | Event c x =>
      match c return answer c -> option (GetConfigRequest * result GetConfigResponse) with
      | GetConfig req => fun r => Some (req, r)
      | _ => fun _ => None
      end x
  end.

(** The answer to an [ImageList]. *)
Definition listing_of (e : event) : option (result (list ImageSummary)) :=
  match e with
  | Event c x =>
      match c return answer c -> option (result (list ImageSummary)) with
      | ImageList _ => fun r => Some r
      | _ => fun _ => None
      end x
  end.

(** The request of an [ImageBuild]. *)
Definition build_request (e : event) : option (Client * Archive * ImageBuildOptions) :=
  match ev_call e with
  | ImageBuild cl bc opts => Some (cl, bc, opts)
  | _ => None
  end.

(** The request of an [ImagePush]. *)
Definition push_request (e : event) : option (Client * string * ImagePushOptions) :=
  match ev_call e with
  | ImagePush cl tag opts => Some (cl, tag, opts)
  | _ => None
  end.

(** The content written to the staging tree under a path. *)
Definition written (e : event) : option (string * string) :=
  match ev_call e with
  | TreeWrite _ path content => Some (path, content)
  | _ => None
  end.

(** The outcome and the trace of a run. *)
Definition outcome_of {W A : Type} (x : outcome A * list event * W) : outcome A := x.1.1.
Definition trace_of {W A : Type} (x : outcome A * list event * W) : list event := x.1.2.

(** The names [BuildDockerfile] dispatches on. *)
Definition recognized (builder : string) : bool :=
  String.eqb builder BuilderNameGo || String.eqb builder BuilderNameDeno
  || String.eqb builder BuilderNamePython || String.eqb builder BuilderNameNode
  || String.eqb builder BuilderNameDocker.

(** The errors by the names the design gives them. *)
Definition ImageNotFoundError (tag : string) : error :=
  Errorf "build: image with the tag %q was not found" [tag].
Definition MissingFileError (file : string) : error :=
  Errorf "build: the file %s is required" [file].
Definition UnsupportedBuilderError (builder : string) : error :=
  Errorf "build: unknown builder type %q" [builder].

(** ** A concrete environment, for evaluating the model *)

(** Library functions read off small stand-ins: no case mapping above
    ASCII, paths joined by a slash, credentials rendered as user:password. *)
Definition sampleX : Externals := {|
  lowerTable := fun r => r;
  filepath_IsAbs := unix_IsAbs;
  filepath_Join := fun dir file => dir +:+ "/" +:+ file;
  path_Base := fun p => p;
  json_Marshal := fun ac => Ok (Username ac +:+ ":" +:+ Password ac);
  base64_URLEncoding_EncodeToString := fun s => s;
  GetVersion := fun family hint => Ok (family +:+ ":" +:+ hint);
  configs_ParseName := fun s => Ok {| nt_Name := s; nt_Tag := "" |};
  pythonShim := [Text "run("; Field "Entrypoint"; Text ")"];
  renderRecipe := fun kind _ _ => Ok ("FROM " +:+ kind);
  range_TaskEnv := map_to_list
|}.

(** The state of the sample collaborator: the files that exist, the
    configs the API serves, and the image tags the engine lists. *)
Record world : Type := mkWorld {
  files : list string;
  remote : gmap string string;
  images : list string
}.

(** A collaborator whose engine tags every image it is asked to build when
    [builds] is set, and otherwise answers the build call without producing
    an image. *)
Definition sample_handler (builds : bool) : handler world :=
  fun c =>
    match c return world -> answer c * world with
    | GetRegistryToken => fun w =>
        (Ok {| rt_Token := "tok"; rt_Repo := "gcr.io/airplane" |}, w)
    | GetConfig req => fun w =>
        (match remote w !! req_Name req with
         | Some v => Ok {| Config_ := {| cfg_Name := req_Name req; cfg_Tag := req_Tag req;
                                        cfg_Value := v; IsSecret := true |} |}
         | None => Err (Errorf "config not found" [req_Name req])
         end, w)
    | LoggerLog _ => fun w => (tt, w)
    | Stat p => fun w => (existsb (String.eqb p) (files w), w)
    | NewClientWithOpts => fun w => (Ok (DockerClient 0), w)
    | ImageBuild _ _ opts => fun w =>
        (Ok (StreamHandle 1),
         if builds then {| files := files w; remote := remote w;
                           images := Tags opts ++ images w |} else w)
    | ImageList _ => fun w => (Ok [{| RepoTags := images w |}], w)
    | ImagePush _ _ _ => fun w => (Ok (StreamHandle 2), w)
    | IoCopy _ _ => fun w => (None, w)
    | StreamClose _ => fun w => (tt, w)
    | NewTree => fun w => (Ok (TreeHandle 0), w)
    | TreeWrite _ _ _ => fun w => (None, w)
    | TreeCopy _ _ => fun w => (None, w)
    | TreeArchive _ => fun w => (Ok (ArchiveHandle 0), w)
    | TreeClose _ => fun w => (tt, w)
    | ArchiveClose _ => fun w => (tt, w)
    end.

(** A Python project with its entrypoint and its manifest. *)
Definition sample_world : world := {|
  files := ["/app/main.py"; "/app/requirements.txt"];
  remote := {[ "db/url" := "postgres://db" ]};
  images := []
|}.

Definition sample_builder (shim : string) : Builder := {|
  root := "/app";
  name := "python";
  args := Some {[ "shim" := shim; "entrypoint" := "main.py" ]};
  writer := Some Stderr;
  auth := Some {| Token := "tok"; Repo := "gcr.io/airplane" |};
  client := DockerClient 0
|}.

Definition sample_definition : Definition_ := {|
  Env := {[ "MODE" := {| Value := Some "fast"; ConfigRef := None |};
            "DB" := {| Value := None; ConfigRef := Some "db/url" |} ]};
  GetKindAndOptions := Ok ("python", Some {[ "shim" := "true"; "entrypoint" := "main.py" ]})
|}.

(** ** What holds of every run *)
Section Posts.

Variable X : Externals.

(** The path of the entrypoint a generator checks. *)
Definition entrypoint_path (c : DockerfileConfig) : string :=
  filepath_Join X (df_Root c) (args_get (df_Args c) "entrypoint").

(** What holds of every run of [BuildDockerfile]: it returns, it only looks
    at the filesystem, and it either found the entrypoint or failed with the
    error that names it; an unrecognized builder fails at once. *)
Definition BuildDockerfile_post (c : DockerfileConfig)
           (t : list event) (r : outcome (result string)) : Prop :=
  (exists v, r = Val v) /\
  Forall (fun e => party_of (ev_call e) = Filesystem) t /\
  (if recognized (df_Builder c) then
     In (Some (entrypoint_path c, true)) (map stat_of t) \/
     (r = Val (Err (MissingFileError (path_Base X (entrypoint_path c)))) /\
      t = [Event (Stat (entrypoint_path c)) false])
   else
     t = [] /\ r = Val (Err (UnsupportedBuilderError (df_Builder c)))).

(** [types.AuthConfig] for a registry token: the fixed user name and the
    token as the password. *)
Definition token_credential (token : string) : AuthConfig :=
  {| Username := "oauth2accesstoken"; Password := token;
     Auth_ := ""; Email := ""; ServerAddress := "";
     IdentityToken := ""; RegistryToken := "" |}.

(** The build request for a tag under a registry auth. *)
Definition build_options (a : RegistryAuth) (tag : string) : ImageBuildOptions :=
  {| Tags := [tag]; BuildArgs := ∅; Platform := "linux/amd64";
     AuthConfigs := {[ host a := token_credential (Token a) ]} |}.

(** What a call of [Build] may be. *)
Definition Build_call (b : Builder) (a : RegistryAuth) (tag : string) (e : event) : Prop :=
  match ev_call e with
  | ImageBuild cl _ opts => cl = client b /\ opts = build_options a tag
  | ImageList cl => cl = client b
  | ImagePush _ _ _ => False
  | c => party_of c = Filesystem \/ party_of c = Staging \/ party_of c = Streams
  end.

(** What holds of every run of [Build] on a builder with registry auth [a]
    and a task ID that sanitizes to [sid]. *)
Definition Build_post (b : Builder) (a : RegistryAuth) (sid version : string)
           (t : list event) (r : outcome (result BuildOutput)) : Prop :=
  let tag := image_tag (Repo a) sid version in
  let c := {| df_Builder := name b; df_Root := root b; df_Args := args b |} in
  (exists v, r = Val v) /\
  Forall (Build_call b a tag) t /\
  (forall images, In (Some (Ok images)) (map listing_of t) ->
     r = Val (match find_tag tag images with
              | Some found => Ok {| Tag := found |}
              | None => Err (ImageNotFoundError tag)
              end)) /\
  (forall out, r = Val (Ok out) ->
     exists images, In (Some (Ok images)) (map listing_of t)) /\
  (forall e, In e t -> party_of (ev_call e) = DockerEngine ->
     recognized (name b) = true /\
     In (Some (entrypoint_path c, true)) (map stat_of t)).

(** What holds of every run of [New]. *)
Definition New_post (c : Config) (t : list event) (r : outcome (result Builder)) : Prop :=
  (exists v, r = Val v) /\
  Forall (fun e => ev_call e = NewClientWithOpts) t /\
  (filepath_IsAbs X (Root c) = false \/ Auth c = None ->
   t = [] /\ exists e, r = Val (Err e)) /\
  (forall b, r = Val (Ok b) ->
     filepath_IsAbs X (Root c) = true /\
     root b = Root c /\
     name b = (if String.eqb (Builder_ c) "" then "manual" else Builder_ c) /\
     args b = Some (default ∅ (Args_ c)) /\
     writer b = Some (default Stderr (Writer_ c)) /\
     auth b = Auth c /\
     Auth c <> None).

(** What a call of [Push] may be. *)
Definition Push_call (b : Builder) (a : RegistryAuth) (tag : string) (e : event) : Prop :=
  match ev_call e with
  | ImagePush cl pushed opts =>
      cl = client b /\ pushed = tag /\
      exists authjson,
        json_Marshal X (token_credential (Token a)) = Ok authjson /\
        opts = {| RegistryAuth_ := base64_URLEncoding_EncodeToString X authjson |}
  | ImageBuild _ _ _ | ImageList _ => False
  | c => party_of c = Streams
  end.

(** What holds of every run of [Push] on a builder with registry auth. *)
Definition Push_post (b : Builder) (a : RegistryAuth) (tag : string)
           (t : list event) (r : outcome (option error)) : Prop :=
  (exists v, r = Val v) /\ Forall (Push_call b a tag) t.

(** The request [getBuildEnv] sends for a parsed config name. *)
Definition config_request (nt : NameTag) : GetConfigRequest :=
  {| req_Name := nt_Name nt; req_Tag := nt_Tag nt; ShowSecret := true |}.

(** An entry of the task environment as the resolved map [m] has it: a
    literal as it is; a reference as the value the API returned for it in
    the trace; an entry with neither as the map had it before. *)
Definition resolved (t : list event) (before m : gmap string string)
           (k : string) (v : EnvVarValue) : Prop :=
  match Value v with
  | Some literal => m !! k = Some literal
  | None =>
      match ConfigRef v with
      | Some config =>
          exists nt res,
            configs_ParseName X config = Ok nt /\
            In (Some (config_request nt, Ok res)) (map config_of t) /\
            m !! k = Some (cfg_Value (Config_ res))
      | None => m !! k = before !! k
      end
  end.

(** A reference entry whose resolution went through in the trace. *)
Definition reference_resolved (t : list event) (v : EnvVarValue) : Prop :=
  forall config, Value v = None -> ConfigRef v = Some config ->
    exists nt res,
      configs_ParseName X config = Ok nt /\
      In (Some (config_request nt, Ok res)) (map config_of t).

(** A [GetConfig] with the secret-reveal flag set. *)
Definition reveals_secret (e : event) : Prop :=
  exists req, ev_call e = GetConfig req /\ ShowSecret req = true.

(** A call that the API answered with an error. *)
Definition config_failed (e : event) : Prop :=
  exists req err, config_of e = Some (req, Err err).

(** What holds of every run of the loop of [getBuildEnv] over [entries],
    started with the map [before]. *)
Definition getBuildEnv_post (entries : list (string * EnvVarValue))
           (before : gmap string string)
           (t : list event) (r : outcome (result (gmap string string))) : Prop :=
  (exists v, r = Val v) /\
  Forall reveals_secret t /\
  (forall req err, In (Some (req, Err err)) (map config_of t) ->
     r = Val (Err err) /\
     exists t0, t = t0 ++ [Event (GetConfig req) (Err err)] /\
                Forall (fun e => ~ config_failed e) t0) /\
  (forall m, r = Val (Ok m) ->
     (forall k v, In (k, v) entries -> resolved t before m k v) /\
     (forall k, ~ In k (map fst entries) -> m !! k = before !! k)).

(** What holds of every run of [Local]. *)
Definition Local_post (dir : TaskDirectory) (def : Definition_) (taskID : string)
           (t : list event) (r : outcome (option error)) : Prop :=
  (* a root that is not absolute stops the pipeline at [New] *)
  (filepath_IsAbs X (DefinitionRootPath dir) = false ->
   Forall (fun e => party_of (ev_call e) = AirplaneAPI) t /\
   exists e, r = Val (Some e)) /\
  (* whatever follows the resolution of the environment follows its success *)
  (forall e, In e t -> party_of (ev_call e) <> AirplaneAPI ->
     Forall (fun e => ~ config_failed e) t /\
     forall k v, Env def !! k = Some v -> reference_resolved t v) /\
  (* a failed resolution is what [Local] returns *)
  (forall req err, In (Some (req, Err err)) (map config_of t) ->
     r = Val (Some err)) /\
  (* every engine request is made for the one composed tag *)
  (forall e, In e t -> party_of (ev_call e) = DockerEngine ->
     exists registry sid,
       In (Some (Ok registry)) (map token_of t) /\
       sanitizeTaskID (lowerTable X) taskID = Val sid /\
       let a := {| Token := rt_Token registry; Repo := rt_Repo registry |} in
       let tag := image_tag (rt_Repo registry) sid "latest" in
       (forall cl bc opts, build_request e = Some (cl, bc, opts) ->
          opts = build_options a tag) /\
       (forall images, listing_of e = Some (Ok images) ->
          find_tag tag images = None ->
          r = Val (Some (Wrapf (ImageNotFoundError tag) "build" []))) /\
       (forall cl pushed opts, push_request e = Some (cl, pushed, opts) ->
          pushed = tag /\
          (exists authjson,
             json_Marshal X (token_credential (rt_Token registry)) = Ok authjson /\
             opts = {| RegistryAuth_ := base64_URLEncoding_EncodeToString X authjson |}) /\
          (exists images, In (Some (Ok images)) (map listing_of t)) /\
          (forall images, In (Some (Ok images)) (map listing_of t) ->
             exists img, In img images /\ In tag (RepoTags img)))) /\
  (* the registry token is asked for once *)
  (forall x y, In (Some x) (map token_of t) -> In (Some y) (map token_of t) -> x = y) /\
  (* a pipeline that never left the API returned an error *)
  (Forall (fun e => party_of (ev_call e) = AirplaneAPI) t ->
   exists e, r = Val (Some e)).

End Posts.

(** ** Recipe texts and string predicates *)

(** [strings.Contains]. *)
Definition strings_Contains (s substr : string) : bool :=
  match cut substr s with
  | Some _ => true
  | None => false
  end.

(** Whether the byte [c] occurs in [s]. *)
Fixpoint has_byte (c : ascii) (s : string) : bool :=
  match s with
  | EmptyString => false
  | String d t => Ascii.eqb c d || has_byte c t
  end.

(** The fixed parts of the recipe with the shim, around the base image and
    the embedded shim. *)
Definition shim_recipe_head : string := newline +:+ "    FROM ".
Definition shim_recipe_middle : string :=
  newline +:+ "    WORKDIR /airplane" +:+ newline
  +:+ "    RUN mkdir -p .airplane && echo '".
Definition shim_recipe_tail : string :=
  "' > .airplane/shim.py" +:+ newline +:+ "    " +:+ newline
  +:+ "    COPY . ." +:+ newline
  +:+ "    ENTRYPOINT [" +:+ dquote +:+ "python" +:+ dquote +:+ ", "
  +:+ dquote +:+ ".airplane/shim.py" +:+ dquote +:+ "]" +:+ newline +:+ tab.

(** The shim as the recipe embeds it: every line break is written as the
    two characters of an escaped line break, a backslash and a line break. *)
Definition embedded_shim (shim : string) : string :=
  strings_Join (strings_Split shim newline) ("\n\" +:+ newline).

(** The recipe for a project without manifest, built with the shim. *)
Definition shim_recipe (base shim : string) : string :=
  shim_recipe_head +:+ base +:+ shim_recipe_middle
  +:+ embedded_shim shim +:+ shim_recipe_tail.

(** The fixed part of the legacy recipe after the base image, for a project
    with a manifest and the entrypoint main.py. *)
Definition legacy_recipe_tail : string :=
  newline +:+ "    WORKDIR /airplane" +:+ newline +:+ tab +:+ tab +:+ newline
  +:+ "    COPY . ." +:+ newline
  +:+ "    RUN pip install -r requirements.txt" +:+ newline
  +:+ "    ENTRYPOINT [" +:+ dquote +:+ "python" +:+ dquote +:+ ", "
  +:+ dquote +:+ "/airplane/main.py" +:+ dquote +:+ "]" +:+ newline +:+ tab.

Definition legacy_recipe (base : string) : string :=
  shim_recipe_head +:+ base +:+ legacy_recipe_tail.

(** The entrypoint lines of the two recipes. *)
Definition shim_entrypoint_line : string :=
  "ENTRYPOINT [" +:+ dquote +:+ "python" +:+ dquote +:+ ", "
  +:+ dquote +:+ ".airplane/shim.py" +:+ dquote +:+ "]".
Definition main_entrypoint_line : string :=
  "ENTRYPOINT [" +:+ dquote +:+ "python" +:+ dquote +:+ ", "
  +:+ dquote +:+ "/airplane/main.py" +:+ dquote +:+ "]".

(** The build arguments of the two scenarios. *)
Definition shim_args (shim : string) : Args :=
  Some {[ "shim" := shim; "entrypoint" := "main.py" ]}.

(** A project with its entrypoint and no manifest. *)
Definition bare_world : world := {|
  files := ["/app/main.py"];
  remote := ∅;
  images := []
|}.

(** A root with no file. *)
Definition empty_world : world := {| files := []; remote := ∅; images := [] |}.

(** ** More of the sanitizer *)

(** Whether no byte of [s] is an upper-case ASCII letter. *)
Fixpoint no_upper (s : string) : bool :=
  match s with
  | EmptyString => true
  | String c t => negb ((65 <=? byteZ c) && (byteZ c <=? 90)) && no_upper t
  end.

(** ** Traces of the existence check *)

(** A [Stat] of [p] that found the path. *)
Definition found (p : string) : event := Event (Stat p) true.


(** ** The runs of [Build] and [Push] *)

(** [t] and [r] are the calls and the outcome of the program [p] for some
    answers of the collaborators. *)
Fixpoint can_run {A : Type} (p : prog A) (t : list event) (r : outcome A) : Prop :=
  match p with
  | Ret a => t = [] /\ r = Val a
  | Abort q => t = [] /\ r = Panics q
  | Do c k => exists (x : answer c) (t' : list event),
                t = Event c x :: t' /\ can_run (k x) t' r
  end.

(** How far a run of [Build] got: the call that failed with its error, or
    the image listing it obtained. *)
Inductive Build_stop : Type :=
| NoTree (e : error)
| NoDockerfile (tree : Tree) (e : error)
| NotWritten (tree : Tree) (buf : string) (e : error)
| NotCopied (tree : Tree) (buf : string) (e : error)
| NotArchived (tree : Tree) (buf : string) (e : error)
| NotBuilt (tree : Tree) (buf : string) (bc : Archive) (e : error)
| NotStreamed (tree : Tree) (buf : string) (bc : Archive) (body : Stream) (e : error)
| NotListed (tree : Tree) (buf : string) (bc : Archive) (body : Stream) (e : error)
| Listed (tree : Tree) (buf : string) (bc : Archive) (body : Stream)
         (images : list ImageSummary).

(** The calls of such a run, in order; [tfs] are the calls of
    [BuildDockerfile], which is called once the staging tree exists. *)
Definition Build_trace (b : Builder) (a : RegistryAuth) (tag : string)
           (tfs : list event) (s : Build_stop) : list event :=
  let opts := build_options a tag in
  match s with
  | NoTree e => [Event NewTree (Err e)]
  | NoDockerfile tree e =>
      Event NewTree (Ok tree) :: tfs ++ [Event (TreeClose tree) tt]
  | NotWritten tree buf e =>
      Event NewTree (Ok tree) :: tfs
      ++ [Event (TreeWrite tree "Dockerfile" buf) (Some e);
          Event (TreeClose tree) tt]
  | NotCopied tree buf e =>
      Event NewTree (Ok tree) :: tfs
      ++ [Event (TreeWrite tree "Dockerfile" buf) None;
          Event (TreeCopy tree (root b)) (Some e);
          Event (TreeClose tree) tt]
  | NotArchived tree buf e =>
      Event NewTree (Ok tree) :: tfs
      ++ [Event (TreeWrite tree "Dockerfile" buf) None;
          Event (TreeCopy tree (root b)) None;
          Event (TreeArchive tree) (Err e);
          Event (TreeClose tree) tt]
  | NotBuilt tree buf bc e =>
      Event NewTree (Ok tree) :: tfs
      ++ [Event (TreeWrite tree "Dockerfile" buf) None;
          Event (TreeCopy tree (root b)) None;
          Event (TreeArchive tree) (Ok bc);
          Event (ImageBuild (client b) bc opts) (Err e);
          Event (ArchiveClose bc) tt;
          Event (TreeClose tree) tt]
  | NotStreamed tree buf bc body e =>
      Event NewTree (Ok tree) :: tfs
      ++ [Event (TreeWrite tree "Dockerfile" buf) None;
          Event (TreeCopy tree (root b)) None;
          Event (TreeArchive tree) (Ok bc);
          Event (ImageBuild (client b) bc opts) (Ok body);
          Event (IoCopy (writer b) body) (Some e);
          Event (StreamClose body) tt;
          Event (ArchiveClose bc) tt;
          Event (TreeClose tree) tt]
  | NotListed tree buf bc body e =>
      Event NewTree (Ok tree) :: tfs
      ++ [Event (TreeWrite tree "Dockerfile" buf) None;
          Event (TreeCopy tree (root b)) None;
          Event (TreeArchive tree) (Ok bc);
          Event (ImageBuild (client b) bc opts) (Ok body);
          Event (IoCopy (writer b) body) None;
          Event (ImageList (client b)) (Err e);
          Event (StreamClose body) tt;
          Event (ArchiveClose bc) tt;
          Event (TreeClose tree) tt]
  | Listed tree buf bc body images =>
      Event NewTree (Ok tree) :: tfs
      ++ [Event (TreeWrite tree "Dockerfile" buf) None;
          Event (TreeCopy tree (root b)) None;
          Event (TreeArchive tree) (Ok bc);
          Event (ImageBuild (client b) bc opts) (Ok body);
          Event (IoCopy (writer b) body) None;
          Event (ImageList (client b)) (Ok images);
          Event (StreamClose body) tt;
          Event (ArchiveClose bc) tt;
          Event (TreeClose tree) tt]
  end.

(** What [Build] returns in such a run. *)
Definition Build_result (b : Builder) (tag : string) (s : Build_stop)
  : result BuildOutput :=
  match s with
  | NoTree e => Err (Wrapf e "new tree" [])
  | NoDockerfile _ e => Err (Wrapf e "creating dockerfile" [])
  | NotWritten _ _ e => Err (Wrapf e "writing dockerfile" [])
  | NotCopied _ _ e => Err (Wrapf e "copy %q" [root b])
  | NotArchived _ _ e => Err (Wrapf e "archive tree" [])
  | NotBuilt _ _ _ e => Err (Wrapf e "image build" [])
  | NotStreamed _ _ _ _ e => Err (Wrapf e "copy output" [])
  | NotListed _ _ _ _ e => Err (Wrapf e "image list" [])
  | Listed _ _ _ _ images =>
      match find_tag tag images with
      | Some t => Ok {| Tag := t |}
      | None => Err (ImageNotFoundError tag)
      end
  end.

(** What [BuildDockerfile] returned in such a run, when it was called. *)
Definition Build_dockerfile (s : Build_stop) : option (result string) :=
  match s with
  | NoTree _ => None
  | NoDockerfile _ e => Some (Err e)
  | NotWritten _ buf _ | NotCopied _ buf _ | NotArchived _ buf _
  | NotBuilt _ buf _ _ | NotStreamed _ buf _ _ _ | NotListed _ buf _ _ _
  | Listed _ buf _ _ _ => Some (Ok buf)
  end.

(** Every run of [Build] on a builder with registry auth [a] and a task ID
    that sanitizes to [sid] is one of these. *)
Definition Build_runs (X : Externals) (b : Builder) (a : RegistryAuth)
           (sid version : string) (t : list event)
           (r : outcome (result BuildOutput)) : Prop :=
  let tag := image_tag (Repo a) sid version in
  let c := {| df_Builder := name b; df_Root := root b; df_Args := args b |} in
  exists s tfs,
    t = Build_trace b a tag tfs s /\
    r = Val (Build_result b tag s) /\
    match Build_dockerfile s with
    | None => tfs = []
    | Some d =>
        can_run (BuildDockerfile X c) tfs (Val d) /\
        Forall (fun e => party_of (ev_call e) = Filesystem) tfs
    end.

(** The call that gives back what a successful call acquired. *)
Definition release_of (e : event) : option event :=
  match e with
  | Event c x =>
      match c return answer c -> option event with
      | NewTree => fun r =>
          match r with Ok tree => Some (Event (TreeClose tree) tt) | Err _ => None end
      | TreeArchive _ => fun r =>
          match r with Ok bc => Some (Event (ArchiveClose bc) tt) | Err _ => None end
      | ImageBuild _ _ _ => fun r =>
          match r with Ok body => Some (Event (StreamClose body) tt) | Err _ => None end
      | ImagePush _ _ _ => fun r =>
          match r with Ok resp => Some (Event (StreamClose resp) tt) | Err _ => None end
      | _ => fun _ => None
      end x
  end.

(** The calls that release a resource. *)
Definition is_release (c : call) : bool :=
  match c with
  | TreeClose _ | ArchiveClose _ | StreamClose _ => true
  | _ => false
  end.

(** The error [Build] returns for a call that failed. *)
Definition Build_failure (b : Builder) (e : event) : option error :=
  match e with
  | Event c x =>
      match c return answer c -> option error with
      | NewTree => fun r =>
          match r with Err e => Some (Wrapf e "new tree" []) | Ok _ => None end
      | TreeWrite _ _ _ => fun r =>
          match r with Some e => Some (Wrapf e "writing dockerfile" []) | None => None end
      | TreeCopy _ _ => fun r =>
          match r with Some e => Some (Wrapf e "copy %q" [root b]) | None => None end
      | TreeArchive _ => fun r =>
          match r with Err e => Some (Wrapf e "archive tree" []) | Ok _ => None end
      | ImageBuild _ _ _ => fun r =>
          match r with Err e => Some (Wrapf e "image build" []) | Ok _ => None end
      | IoCopy _ _ => fun r =>
          match r with Some e => Some (Wrapf e "copy output" []) | None => None end
      | ImageList _ => fun r =>
          match r with Err e => Some (Wrapf e "image list" []) | Ok _ => None end
      | _ => fun _ => None
      end x
  end.

(** The first failed call of a list of events, with what precedes and what
    follows it. *)
Fixpoint first_failure (b : Builder) (t : list event)
  : option (list event * event * list event) :=
  match t with
  | [] => None
  | e :: rest =>
      match Build_failure b e with
      | Some _ => Some ([], e, rest)
      | None =>
          match first_failure b rest with
          | Some (before, f, after) => Some (e :: before, f, after)
          | None => None
          end
      end
  end.

(** The sample collaborator with a staging tree that refuses the copy of
    the root. *)
Definition copy_refused : handler world :=
  fun c =>
    match c as c' return world -> answer c' * world with
    | TreeCopy _ _ => fun w => (Some (Errorf "permission denied" []), w)
    | c' => sample_handler true c'
    end.

(** ** The lookups of [getBuildEnv] *)

(** The config an entry of the task environment makes [getBuildEnv] look
    up: none for an entry with a literal value, none for an entry with
    neither value nor reference, and the parsed name for a reference. *)
Definition needed_config (X : Externals) (kv : string * EnvVarValue)
  : option GetConfigRequest :=
  match Value kv.2, ConfigRef kv.2 with
  | None, Some config =>
      match configs_ParseName X config with
      | Ok nt => Some (config_request nt)
      | Err _ => None
      end
  | _, _ => None
  end.

(** The calls that resolve a whole list of entries. *)
Definition lookups (X : Externals) (entries : list (string * EnvVarValue)) : list call :=
  map GetConfig (omap (needed_config X) entries).

(** ** The runs of [Local] *)

(** A line that [Local] logs. *)
Definition log_of (e : event) : option string :=
  match ev_call e with
  | LoggerLog msg => Some msg
  | _ => None
  end.

(** Every run of [Local] goes through its stages in order and stops at the
    first one that fails: the registry token, the build environment, the
    kind and options of the definition, the builder, the build, the push. *)
Definition Local_runs (X : Externals) (dir : TaskDirectory) (def : Definition_)
           (taskID : string) (t : list event) (r : outcome (option error)) : Prop :=
  (exists e, t = [Event GetRegistryToken (Err e)] /\
             r = Val (Some (Wrapf e "getting registry token" []))) \/
  exists registry tenv renv,
    can_run (getBuildEnv X def) tenv (Val renv) /\
    let head := Event GetRegistryToken (Ok registry) :: tenv in
    let a := {| Token := rt_Token registry; Repo := rt_Repo registry |} in
    match renv, GetKindAndOptions def with
    | Err e, _ => t = head /\ r = Val (Some e)
    | Ok _, Err e => t = head /\ r = Val (Some e)
    | Ok buildEnv, Ok (kind, options) =>
        let c := {| Kind := ""; Root := DefinitionRootPath dir; Builder_ := kind;
                    Args_ := options; Auth := Some a; Writer_ := None;
                    BuildEnv := buildEnv |} in
        exists tnew rnew,
          can_run (New X c) tnew (Val rnew) /\
          match rnew with
          | Err e => t = head ++ tnew /\ r = Val (Some (Wrapf e "new build" []))
          | Ok b =>
              exists tbuild rbuild,
                can_run (Build X b taskID "latest") tbuild rbuild /\
                let built := head ++ tnew
                             ++ Event (LoggerLog "Building...") tt :: tbuild in
                match rbuild with
                | Panics q => t = built /\ r = Panics q
                | Val (Err e) => t = built /\ r = Val (Some (Wrapf e "build" []))
                | Val (Ok bo) =>
                    exists tpush rpush,
                      can_run (Push X b (Tag bo)) tpush (Val rpush) /\
                      t = built ++ Event (LoggerLog "Pushing...") tt :: tpush /\
                      r = Val (match rpush with
                               | Some e => Some (Wrapf e "push" [])
                               | None => None
                               end)
                end
          end
    end.

(** ** The recipes of [python] *)

(** The step of the recipe with the shim that installs the dependencies,
    present when requirements.txt exists. *)
Definition install_step (hasreqs : bool) : string :=
  if hasreqs then
    newline +:+ "    COPY requirements.txt ." +:+ newline
    +:+ "    RUN pip install -r requirements.txt" +:+ newline +:+ "    "
  else "".

(** The recipe with the shim. *)
Definition shim_text (base shim : string) (hasreqs : bool) : string :=
  newline +:+ "    FROM " +:+ base +:+ newline
  +:+ "    WORKDIR /airplane" +:+ newline
  +:+ "    RUN mkdir -p .airplane && echo '" +:+ embedded_shim shim
  +:+ "' > .airplane/shim.py" +:+ newline +:+ "    "
  +:+ install_step hasreqs +:+ newline
  +:+ "    COPY . ." +:+ newline
  +:+ "    ENTRYPOINT [" +:+ dquote +:+ "python" +:+ dquote +:+ ", "
  +:+ dquote +:+ ".airplane/shim.py" +:+ dquote +:+ "]" +:+ newline +:+ tab.

(** The step of the legacy recipe that creates an empty requirements.txt,
    present when the file does not exist. *)
Definition empty_requirements_step (hasreqs : bool) : string :=
  if hasreqs then ""
  else newline +:+ tab +:+ tab +:+ "RUN echo > requirements.txt"
       +:+ newline +:+ tab +:+ tab.

(** The legacy recipe. *)
Definition legacy_text (base entrypoint : string) (hasreqs : bool) : string :=
  newline +:+ "    FROM " +:+ base +:+ newline
  +:+ "    WORKDIR /airplane" +:+ newline +:+ tab +:+ tab
  +:+ empty_requirements_step hasreqs +:+ newline
  +:+ "    COPY . ." +:+ newline
  +:+ "    RUN pip install -r requirements.txt" +:+ newline
  +:+ "    ENTRYPOINT [" +:+ dquote +:+ "python" +:+ dquote +:+ ", "
  +:+ dquote +:+ "/airplane/" +:+ entrypoint +:+ dquote +:+ "]" +:+ newline +:+ tab.

(** ** Package [definitions] *)
Module definitions.

(** [api.TaskKind]: the kinds that the package names, which are distinct
    strings, and any other string. *)
Inductive TaskKind : Type :=
| TaskKindDeno
| TaskKindDockerfile
| TaskKindGo
| TaskKindNode
| TaskKindPython
| TaskKindImage
| TaskKindShell
| TaskKindSQL
| TaskKindREST
| TaskKindOther (name : string).

(** [ImageDefinition]: the fields that [NewDefinitionFromTask] sets. *)
Record ImageDefinition : Type := mkImageDefinition {
  Image_ : string;
  Command : list string
}.

Section Definitions.

(** A value of an options map that is neither nil nor a string. *)
Variable Object : Type.

(** An [interface{}] value of an options map. *)
Inductive any : Type :=
| Nil
| Str (s : string)
| Obj (o : Object).

(** [api.KindOptions], a [map[string]interface{}]; [options[k]] is nil for
    a key that is absent. *)
Local Abbreviation KindOptions := (gmap string any) (only parsing).

Definition get (options : KindOptions) (k : string) : any :=
  default Nil (options !! k).

(** The struct of each kind other than the image kind: [DenoDefinition],
    [DockerfileDefinition], [GoDefinition], [NodeDefinition],
    [PythonDefinition], [ShellDefinition], [SQLDefinition] and
    [RESTDefinition].  The functions below read none of their fields. *)
Variable KindDefinition : TaskKind -> Type.

(** The zero value of the struct of a kind, and what [mapstructure.Decode]
    does from an options map into such a struct and from the struct into a
    fresh options map. *)
Variable zero : forall k, KindDefinition k.
Variable Decode_options : forall k, KindOptions -> KindDefinition k -> result (KindDefinition k).
Variable Decode_struct : forall k, KindDefinition k -> result KindOptions.

(** [json.Marshal] of a value of an options map. *)
Variable json_Marshal : any -> result string.

(** The fields of a definition that are copied from the task as they are. *)
Variable Revision : Type.

(** The name of a kind as [fmt] prints it. *)
Variable kind_name : TaskKind -> string.

(** [Definition], which is [Definition_0_2]: the slug, the fields shared
    with the task, and one pointer for each kind. *)
Record Definition_0_2 : Type := mkDefinition_0_2 {
  Slug : string;
  Shared : Revision;
  Deno : option (KindDefinition TaskKindDeno);
  Dockerfile : option (KindDefinition TaskKindDockerfile);
  Go : option (KindDefinition TaskKindGo);
  Image : option ImageDefinition;
  Node : option (KindDefinition TaskKindNode);
  Python : option (KindDefinition TaskKindPython);
  Shell : option (KindDefinition TaskKindShell);
  SQL : option (KindDefinition TaskKindSQL);
  REST : option (KindDefinition TaskKindREST)
}.

(** [api.Task]: the fields that [NewDefinitionFromTask] reads. *)
Record Task : Type := mkTask {
  task_Slug : string;
  task_Shared : Revision;
  task_Kind : TaskKind;
  task_KindOptions : option KindOptions;
  task_Command : list string;
  task_Image : option string
}.

(** The definition that [NewDefinitionFromTask] starts from: no kind set. *)
Definition bare (task : Task) : Definition_0_2 :=
  {| Slug := task_Slug task; Shared := task_Shared task;
     Deno := None; Dockerfile := None; Go := None; Image := None; Node := None;
     Python := None; Shell := None; SQL := None; REST := None |}.

(** The decoding of the task's options into the struct of kind [k], which
    starts as the zero value; nil options are not decoded. *)
Definition decode_kind (k : TaskKind) (task : Task) : result (KindDefinition k) :=
  match task_KindOptions task with
  | None => Ok (zero k)
  | Some options =>
      match Decode_options k options (zero k) with
      | Ok d => Ok d
      | Err e => Err (Wrapf e "decoding options" [])
      end
  end.

(** [NewDefinitionFromTask]. *)
Definition NewDefinitionFromTask (task : Task) : result Definition_0_2 :=
  let def := bare task in
  let set (k : TaskKind) (put : KindDefinition k -> Definition_0_2) :=
    match decode_kind k task with
    | Ok d => Ok (put d)
    | Err e => Err e
    end in
  match task_Kind task with
  | TaskKindDeno =>
      set TaskKindDeno
          (fun d => {| Slug := Slug def; Shared := Shared def; Deno := Some d;
                       Dockerfile := None; Go := None; Image := None; Node := None;
                       Python := None; Shell := None; SQL := None; REST := None |})
  | TaskKindDockerfile =>
      set TaskKindDockerfile
          (fun d => {| Slug := Slug def; Shared := Shared def; Deno := None;
                       Dockerfile := Some d; Go := None; Image := None; Node := None;
                       Python := None; Shell := None; SQL := None; REST := None |})
  | TaskKindGo =>
      set TaskKindGo
          (fun d => {| Slug := Slug def; Shared := Shared def; Deno := None;
                       Dockerfile := None; Go := Some d; Image := None; Node := None;
                       Python := None; Shell := None; SQL := None; REST := None |})
  | TaskKindNode =>
      set TaskKindNode
          (fun d => {| Slug := Slug def; Shared := Shared def; Deno := None;
                       Dockerfile := None; Go := None; Image := None; Node := Some d;
                       Python := None; Shell := None; SQL := None; REST := None |})
  | TaskKindPython =>
      set TaskKindPython
          (fun d => {| Slug := Slug def; Shared := Shared def; Deno := None;
                       Dockerfile := None; Go := None; Image := None; Node := None;
                       Python := Some d; Shell := None; SQL := None; REST := None |})
  | TaskKindImage =>
      Ok {| Slug := Slug def; Shared := Shared def; Deno := None;
            Dockerfile := None; Go := None;
            Image := Some {| Image_ := default "" (task_Image task);
                             Command := task_Command task |};
            Node := None; Python := None; Shell := None; SQL := None; REST := None |}
  | TaskKindShell =>
      set TaskKindShell
          (fun d => {| Slug := Slug def; Shared := Shared def; Deno := None;
                       Dockerfile := None; Go := None; Image := None; Node := None;
                       Python := None; Shell := Some d; SQL := None; REST := None |})
  | TaskKindSQL =>
      set TaskKindSQL
          (fun d => {| Slug := Slug def; Shared := Shared def; Deno := None;
                       Dockerfile := None; Go := None; Image := None; Node := None;
                       Python := None; Shell := None; SQL := Some d; REST := None |})
  | TaskKindREST =>
      set TaskKindREST
          (fun d => {| Slug := Slug def; Shared := Shared def; Deno := None;
                       Dockerfile := None; Go := None; Image := None; Node := None;
                       Python := None; Shell := None; SQL := None; REST := Some d |})
  | TaskKindOther _ =>
      Err (Errorf "unknown kind specified: %s" [kind_name (task_Kind task)])
  end.

(** The options of a REST definition as the API expects them: the body
    under one key, as a string when it is JSON, and the type of the body. *)
Definition rest_options (options : KindOptions) : result KindOptions :=
  match get options "jsonBody" with
  | Str s =>
      Ok (delete "jsonBody"
            (<["bodyType" := Str "json"]> (<["body" := Str s]> options)))
  | Obj o =>
      match json_Marshal (Obj o) with
      | Err e => Err (Wrapf e "marshalling JSON body" [])
      | Ok jsonBody =>
          Ok (delete "jsonBody"
                (<["bodyType" := Str "json"]> (<["body" := Str jsonBody]> options)))
      end
  | Nil =>
      match get options "formUrlEncodedBody" with
      | Nil =>
          match get options "formDataBody" with
          | Nil => Ok (<["bodyType" := Str "raw"]> options)
          | v =>
              Ok (delete "formDataBody"
                    (<["bodyType" := Str "form-data"]> (<["formData" := v]> options)))
          end
      | v =>
          Ok (delete "formUrlEncodedBody"
                (<["bodyType" := Str "x-www-form-urlencoded"]>
                   (<["formData" := v]> options)))
      end
  end.

(** The decoding of the struct of kind [k] into a fresh options map. *)
Definition decoded (k : TaskKind) (d : KindDefinition k) (what : string)
  : result (TaskKind * KindOptions) :=
  match Decode_struct k d with
  | Ok options => Ok (k, options)
  | Err e => Err (Wrapf e what [])
  end.

(** [Definition.GetKindAndOptions]. *)
Definition GetKindAndOptions (def : Definition_0_2) : result (TaskKind * KindOptions) :=
  match Deno def with
  | Some d => decoded TaskKindDeno d "decoding Deno definition"
  | None =>
  match Dockerfile def with
  | Some d => decoded TaskKindDockerfile d "decoding Dockerfile definition"
  | None =>
  match Image def with
  | Some _ => Ok (TaskKindImage, ∅)
  | None =>
  match Go def with
  | Some d => decoded TaskKindGo d "decoding Go definition"
  | None =>
  match Node def with
  | Some d => decoded TaskKindNode d "decoding Node definition"
  | None =>
  match Python def with
  | Some d => decoded TaskKindPython d "decoding Python definition"
  | None =>
  match Shell def with
  | Some d => decoded TaskKindShell d "decoding Shell definition"
  | None =>
  match SQL def with
  | Some d => decoded TaskKindSQL d "decoding SQL definition"
  | None =>
  match REST def with
  | Some d =>
      match Decode_struct TaskKindREST d with
      | Err e => Err (Wrapf e "decoding REST definition" [])
      | Ok options =>
          match rest_options options with
          | Ok options => Ok (TaskKindREST, options)
          | Err e => Err e
          end
      end
  | None => Err (Errorf "No kind specified" [])
  end end end end end end end end end.

(** The names of the kinds that [Validate] finds set, in its order. *)
Definition defined_kinds (def : Definition_0_2) : list string :=
  (if Deno def is Some _ then ["deno"] else [])
  ++ (if Dockerfile def is Some _ then ["dockerfile"] else [])
  ++ (if Image def is Some _ then ["image"] else [])
  ++ (if Go def is Some _ then ["go"] else [])
  ++ (if Node def is Some _ then ["node"] else [])
  ++ (if Python def is Some _ then ["python"] else [])
  ++ (if SQL def is Some _ then ["sql"] else [])
  ++ (if REST def is Some _ then ["rest"] else []).

(** [Definition.Validate]. *)
Definition Validate (def : Definition_0_2) : Definition_0_2 * option error :=
  if String.eqb (Slug def) "" then (def, Some (Errorf "Expected a task slug" []))
  else
    let defs := defined_kinds def in
    if Nat.eqb (length defs) 0 then (def, Some (Errorf "No task type defined" []))
    else if Nat.ltb 1 (length defs) then
      (def, Some (Errorf "Too many task types defined: only one of (%s) expected"
                         [strings_Join defs ", "]))
    else (def, None).

(** Whether the pointer of a kind is set in a definition. *)
Definition is_set (def : Definition_0_2) (k : TaskKind) : bool :=
  match k with
  | TaskKindDeno => if Deno def is Some _ then true else false
  | TaskKindDockerfile => if Dockerfile def is Some _ then true else false
  | TaskKindGo => if Go def is Some _ then true else false
  | TaskKindImage => if Image def is Some _ then true else false
  | TaskKindNode => if Node def is Some _ then true else false
  | TaskKindPython => if Python def is Some _ then true else false
  | TaskKindShell => if Shell def is Some _ then true else false
  | TaskKindSQL => if SQL def is Some _ then true else false
  | TaskKindREST => if REST def is Some _ then true else false
  | TaskKindOther _ => false
  end.

(** The order in which [GetKindAndOptions] looks at the kinds. *)
Definition precedence : list TaskKind :=
  [TaskKindDeno; TaskKindDockerfile; TaskKindImage; TaskKindGo; TaskKindNode;
   TaskKindPython; TaskKindShell; TaskKindSQL; TaskKindREST].

(** A definition with another shell pointer. *)
Definition with_Shell (def : Definition_0_2) (sh : option (KindDefinition TaskKindShell))
  : Definition_0_2 :=
  {| Slug := Slug def; Shared := Shared def; Deno := Deno def;
     Dockerfile := Dockerfile def; Go := Go def; Image := Image def;
     Node := Node def; Python := Python def; Shell := sh; SQL := SQL def;
     REST := REST def |}.

(** Writing the field [Entrypoint] of the struct of a kind. *)
Variable set_Entrypoint : forall k, KindDefinition k -> string -> KindDefinition k.

(** [pathcase.ActualFilename], which looks the name up in the file system,
    [filepath.Rel] and [filepath.Base]. *)
Variable pathcase_ActualFilename : string -> result string.
Variable filepath_Rel : string -> string -> result string.
Variable filepath_Base : string -> string.

(** The kind that [GetKindAndOptions] returns when its options and its
    error are dropped: the empty string beside an error. *)
Definition kind_of (def : Definition_0_2) : TaskKind :=
  match GetKindAndOptions def with
  | Ok (kind, _) => kind
  | Err _ => TaskKindOther ""
  end.

(** A definition with another node, python or shell pointer. *)
Definition with_Node (def : Definition_0_2) (d : option (KindDefinition TaskKindNode))
  : Definition_0_2 :=
  {| Slug := Slug def; Shared := Shared def; Deno := Deno def;
     Dockerfile := Dockerfile def; Go := Go def; Image := Image def;
     Node := d; Python := Python def; Shell := Shell def; SQL := SQL def;
     REST := REST def |}.

Definition with_Python (def : Definition_0_2) (d : option (KindDefinition TaskKindPython))
  : Definition_0_2 :=
  {| Slug := Slug def; Shared := Shared def; Deno := Deno def;
     Dockerfile := Dockerfile def; Go := Go def; Image := Image def;
     Node := Node def; Python := d; Shell := Shell def; SQL := SQL def;
     REST := REST def |}.

(** [Definition.SetEntrypoint] on the definition that the receiver points
    to: the definition afterwards, the warnings logged with their
    arguments, and the error.  Writing [def.Node.Entrypoint] panics when
    [def.Node] is nil, and likewise for the other kinds. *)
Definition SetEntrypoint (def : Definition_0_2) (taskroot absEntrypoint : string)
  : outcome (Definition_0_2 * list (string * list string) * option error) :=
  let origEntrypoint := absEntrypoint in
  match pathcase_ActualFilename absEntrypoint with
  | Err e => Val (def, [], Some e)
  | Ok absEntrypoint =>
      let warnings :=
        if negb (String.eqb absEntrypoint origEntrypoint) then
          [("Using %q instead of %q - different casing may not work on all operating systems",
            [filepath_Base absEntrypoint; filepath_Base origEntrypoint])]
        else [] in
      match filepath_Rel taskroot absEntrypoint with
      | Err e => Val (def, warnings, Some e)
      | Ok ep =>
          match kind_of def with
          | TaskKindNode =>
              match Node def with
              | Some d =>
                  Val (with_Node def (Some (set_Entrypoint TaskKindNode d ep)),
                       warnings, None)
              | None => Panics NilDereference
              end
          | TaskKindPython =>
              match Python def with
              | Some d =>
                  Val (with_Python def (Some (set_Entrypoint TaskKindPython d ep)),
                       warnings, None)
              | None => Panics NilDereference
              end
          | TaskKindShell =>
              match Shell def with
              | Some d =>
                  Val (with_Shell def (Some (set_Entrypoint TaskKindShell d ep)),
                       warnings, None)
              | None => Panics NilDereference
              end
          | kind =>
              Val (def, warnings, Some (Errorf "unexpected kind %q" [kind_name kind]))
          end
      end
  end.

(** The cause of an error of [validateYAML], as [errors.Cause] gives it:
    an [ErrInvalidYAML] with its text, an [ErrSchemaValidation] with the
    field and the description of each of its errors, or any other error. *)
Inductive cause : Type :=
| ErrInvalidYAML (text : string)
| ErrSchemaValidation (errors : list (string * string))
| OtherCause (e : error).

(** What [validateYAML] returns: nil, or an error and its cause. *)
Inductive validation : Type :=
| Valid
| Refused (err : error) (c : cause).

(** The definitions of the schema before, [Definition_0_1]. *)
Variable Definition_0_1 : Type.

(** [validateYAML] against the struct of either schema, [yaml.Unmarshal]
    into either struct, [Definition_0_1.upgrade] and
    [newErrReadDefinition]. *)
Variable validateYAML : list Byte.byte -> validation.
Variable validateYAML_0_1 : list Byte.byte -> validation.
Variable yaml_Unmarshal : list Byte.byte -> result Definition_0_2.
Variable yaml_Unmarshal_0_1 : list Byte.byte -> result Definition_0_1.
Variable upgrade : Definition_0_1 -> Definition_0_2 * option error.
Variable newErrReadDefinition : string -> list string -> error.

(** The zero value [Definition{}]. *)
Variable zero_Definition : Definition_0_2.

(** [tryOlderDefinitions].  When the buffer does not unmarshal it returns
    [err], the error of the validation, which is nil there. *)
Definition tryOlderDefinitions (buf : list Byte.byte) : Definition_0_2 * option error :=
  match validateYAML_0_1 buf with
  | Valid =>
      match yaml_Unmarshal_0_1 buf with
      | Err _ => (zero_Definition, None)
      | Ok def => upgrade def
      end
  | Refused err _ => (zero_Definition, Some err)
  end.

(** [UnmarshalDefinition]. *)
Definition UnmarshalDefinition (buf : list Byte.byte) (defPath : string)
  : Definition_0_2 * option error :=
  match validateYAML buf with
  | Refused _ c =>
      match tryOlderDefinitions buf with
      | (def, None) => (def, None)
      | (_, Some _) =>
          match c with
          | ErrInvalidYAML text =>
              (zero_Definition,
               Some (newErrReadDefinition
                       ("Error reading " +:+ defPath +:+ ", invalid YAML:" +:+ newline
                        +:+ "  " +:+ text) []))
          | ErrSchemaValidation errors =>
              (zero_Definition,
               Some (newErrReadDefinition
                       ("Error reading " +:+ defPath)
                       (map (fun verr => verr.1 +:+ ": " +:+ verr.2) errors)))
          | OtherCause e => (zero_Definition, Some (Wrapf e "reading %s" [defPath]))
          end
      end
  | Valid =>
      match yaml_Unmarshal buf with
      | Err e => (zero_Definition, Some (Wrapf e "unmarshalling task definition" []))
      | Ok def => (def, None)
      end
  end.

End Definitions.

Abbreviation KindOptions Object := (gmap string (any Object)) (only parsing).

Arguments Nil {Object}.
Arguments Str {Object} s.
Arguments Obj {Object} o.
Arguments get {Object} options k.
Arguments Slug {KindDefinition Revision} d.
Arguments Shared {KindDefinition Revision} d.
Arguments Deno {KindDefinition Revision} d.
Arguments Dockerfile {KindDefinition Revision} d.
Arguments Go {KindDefinition Revision} d.
Arguments Image {KindDefinition Revision} d.
Arguments Node {KindDefinition Revision} d.
Arguments Python {KindDefinition Revision} d.
Arguments Shell {KindDefinition Revision} d.
Arguments SQL {KindDefinition Revision} d.
Arguments REST {KindDefinition Revision} d.
Arguments task_Slug {Object Revision} t.
Arguments task_Shared {Object Revision} t.
Arguments task_Kind {Object Revision} t.
Arguments task_KindOptions {Object Revision} t.
Arguments task_Command {Object Revision} t.
Arguments task_Image {Object Revision} t.
Arguments is_set {KindDefinition Revision} def k.
Arguments with_Shell {KindDefinition Revision} def sh.
Arguments with_Node {KindDefinition Revision} def d.
Arguments with_Python {KindDefinition Revision} def d.
Arguments defined_kinds {KindDefinition Revision} def.
Arguments Validate {KindDefinition Revision} def.

End definitions.

(** A task of the Python kind with nil options, and the definition made
    of it, over structs with no fields. *)
Definition sample_task : definitions.Task unit unit :=
  definitions.mkTask unit unit "echo" tt definitions.TaskKindPython None [] None.

Definition sample_task_definition : definitions.Definition_0_2 (fun _ => unit) unit :=
  definitions.mkDefinition_0_2 (fun _ => unit) unit "echo" tt
    None None None None None (Some tt) None None None.

(** A REST definition whose decoded options carry a JSON body as a string. *)
Definition sample_rest_definition : definitions.Definition_0_2 (fun _ => unit) unit :=
  definitions.mkDefinition_0_2 (fun _ => unit) unit "fetch" tt
    None None None None None None None None (Some tt).

Definition sample_rest_options : gmap string (definitions.any unit) :=
  {[ "jsonBody" := definitions.Str "{}"; "method" := definitions.Str "GET" ]}.

(** ** Programs over the collaborators of other packages *)
Module effects.

Section Programs.

(** The calls a package makes and the type of the answer to each. *)
Variable call : Type.
Variable answer : call -> Type.

(** A Go function body over these calls. *)
Inductive prog (A : Type) : Type :=
| Ret (a : A)
| Abort (p : panic)
| Do (c : call) (k : answer c -> prog A).
Arguments Ret {A} a.
Arguments Abort {A} p.
Arguments Do {A} c k.

Fixpoint bind {A B : Type} (p : prog A) (f : A -> prog B) : prog B :=
  match p with
  | Ret a => f a
  | Abort q => Abort q
  | Do c k => Do c (fun x => bind (k x) f)
  end.

(** A call together with the answer it got. *)
Record event : Type := Event { ev_call : call; ev_answer : answer ev_call }.

(** One run against a collaborator with state. *)
Fixpoint run {W A : Type} (h : forall c : call, W -> answer c * W) (p : prog A) (w : W)
  : outcome A * list event * W :=
  match p with
  | Ret a => (Val a, [], w)
  | Abort q => (Panics q, [], w)
  | Do c k =>
      let '(x, w1) := h c w in
      let '(r, t, w2) := run h (k x) w1 in
      (r, Event c x :: t, w2)
  end.

(** [P] holds of the calls and the outcome on every path. *)
Fixpoint always {A : Type} (P : list event -> outcome A -> Prop) (p : prog A) : Prop :=
  match p with
  | Ret a => P [] (Val a)
  | Abort q => P [] (Panics q)
  | Do c k => forall x : answer c, always (fun t r => P (Event c x :: t) r) (k x)
  end.

End Programs.

Arguments Ret {call answer A} a.
Arguments Abort {call answer A} p.
Arguments Do {call answer A} c k.
Arguments bind {call answer A B} p f.
Arguments Event {call answer} ev_call ev_answer.
Arguments ev_call {call answer} e.
Arguments ev_answer {call answer} e.
Arguments run {call answer W A} h p w.
Arguments always {call answer A} P p.

End effects.

(** ** Package [api]: the HTTP client *)
Module api.

(** [Client]. *)
Record Client : Type := mkClient {
  Host_ : string;
  Token_ : string;
  APIKey : string;
  TeamID : string
}.

(** [Host], the default API host. *)
Definition Host : string := "api.airplane.dev".

(** [Client.host]. *)
Definition host (c : Client) : string :=
  if negb (String.eqb (Host_ c) "") then Host_ c else Host.

(** An [http.Request] as [do] makes it: [Header] holds the calls of
    [Header.Set] in order, each a key and a value. *)
Record Request : Type := mkRequest {
  Method : string;
  URL : string;
  Body : option string;
  Header : list (string * string)
}.

(** An [http.Response]: the fields [do] reads, and its body as a handle. *)
Record Response : Type := mkResponse {
  StatusCode : Z;
  Status : string;
  Body_ : Stream
}.

(** An [error] value that [do] returns: an [api.Error] with its code and
    message, or any other error. *)
Inductive failure : Type :=
| Error_ (Code : Z) (Message : string)
| Other (e : error).

(** What the client calls: [client.Do] on a request, answered by a response
    and an error either of which may be nil, and the deferred function that
    drains and closes the body of a response. *)
Inductive call : Type :=
| HttpDo (req : Request)
| DrainAndClose (body : Stream).

Definition answer (c : call) : Type :=
  match c with
  | HttpDo _ => (option Response * option error)%type
  | DrainAndClose _ => unit
  end.

Section Do.

(** The payloads and replies of the API, with [json.Marshal] of a payload
    and the decoding of the body of a response into a reply and into an
    [api.Error], which succeeds with the message or fails. *)
Variables Payload Reply : Type.
Variable json_Marshal : Payload -> result string.
Variable decode_reply : Response -> result Reply.
Variable decode_Error : Response -> option string.

(** [http.NewRequestWithContext], which refuses some methods and URLs. *)
Variable http_NewRequest : string -> string -> option error.

(** [version.Get]. *)
Variable version_Get : string.

(** What [do] returns: nil, with the reply filled in when one was asked
    for, or an error. *)
Inductive done : Type :=
| Replied (reply : option Reply)
| Failed (f : failure).

(** The deferred function of [do], which is registered when the response is
    not nil. *)
Definition deferred (resp : option Response) (r : outcome done)
  : effects.prog call answer done :=
  let finish := match r with
                | Val d => effects.Ret d
                | Panics q => effects.Abort q
                end in
  match resp with
  | Some resp => effects.Do (DrainAndClose (Body_ resp)) (fun _ => finish)
  | None => finish
  end.

(** The request that [do] sends for a client with credentials. *)
Definition request_of (c : Client) (method path : string) (body : option string)
  : Request :=
  {| Method := method;
     URL := "https://" +:+ host c +:+ "/v0" +:+ path;
     Body := body;
     Header := (if negb (String.eqb (Token_ c) "") then
                  [("X-Airplane-Token", Token_ c)]
                else [("X-Airplane-API-Key", APIKey c); ("X-Team-ID", TeamID c)])
               ++ [("X-Airplane-Client", "cli"); ("X-Airplane-Version", version_Get)] |}.

(** [Client.do]. *)
Definition do (c : Client) (method path : string) (payload : option Payload)
           (reply : bool) : effects.prog call answer done :=
  let url := "https://" +:+ host c +:+ "/v0" +:+ path in
  let body := match payload with
              | None => Ok None
              | Some p =>
                  match json_Marshal p with
                  | Ok buf => Ok (Some buf)
                  | Err e => Err (Wrapf e "api: marshal payload" [])
                  end
              end in
  match body with
  | Err e => effects.Ret (Failed (Other e))
  | Ok body =>
      match http_NewRequest method url with
      | Some e => effects.Ret (Failed (Other (Wrapf e "api: new request" [])))
      | None =>
          if String.eqb (Token_ c) "" && String.eqb (APIKey c) "" then
            effects.Ret (Failed (Other (Errorf "api: authentication is missing" [])))
          else
            let authn :=
              if negb (String.eqb (Token_ c) "") then
                Ok [("X-Airplane-Token", Token_ c)]
              else if String.eqb (TeamID c) "" then
                Err (Errorf "api: team ID is missing" [])
              else Ok [("X-Airplane-API-Key", APIKey c); ("X-Team-ID", TeamID c)] in
            match authn with
            | Err e => effects.Ret (Failed (Other e))
            | Ok authn =>
                let req := {| Method := method; URL := url; Body := body;
                              Header := authn ++ [("X-Airplane-Client", "cli");
                                                  ("X-Airplane-Version", version_Get)] |} in
                effects.Do (HttpDo req) (fun '(resp, err) =>
                  deferred resp
                    match err with
                    | Some e => Val (Failed (Other (Wrapf e "api: %s %s" [method; url])))
                    | None =>
                        match resp with
                        | None => Panics NilDereference
                        | Some resp =>
                            if (400 <=? StatusCode resp) && (StatusCode resp <? 600) then
                              match decode_Error resp with
                              | Some message =>
                                  Val (Failed (Error_ (StatusCode resp) message))
                              | None =>
                                  Val (Failed (Other (Errorf "api: %s %s - %s"
                                                        [method; url; Status resp])))
                              end
                            else if reply then
                              match decode_reply resp with
                              | Ok v => Val (Replied (Some v))
                              | Err e =>
                                  Val (Failed (Other (Wrapf e "api: %s %s - decoding json"
                                                        [method; url])))
                              end
                            else Val (Replied None)
                        end
                    end)
            end
      end
  end.

End Do.

Arguments Replied {Reply} reply.
Arguments Failed {Reply} f.

Section Runs.

(** [api.Run] and [time.Time], with [Time.IsZero] and [Time.Format] at
    [time.RFC3339]. *)
Variables Run Time : Type.
Variable IsZero : Time -> bool.
Variable Format : Time -> string.

(** [strconv.FormatInt] in base 10, and [url.Values.Encode]. *)
Variable FormatInt : Z -> string.
Variable Encode : gmap string (list string) -> string.

(** The number of bits of a Go [int], and an [int] after an addition. *)
Variable int_bits : Z.
Definition wrap (n : Z) : Z :=
  (n + 2 ^ (int_bits - 1)) mod 2 ^ int_bits - 2 ^ (int_bits - 1).

(** [ListRunsRequest]. *)
Record ListRunsRequest : Type := mkListRunsRequest {
  Page : Z;
  TaskID_ : string;
  Limit : Z;
  Since : Time;
  Until : Time
}.

(** The one call of [ListRuns]: [c.do] with the method GET, the path given,
    no payload, and the variable [page] as the reply, which holds the runs
    of the page before.  It is answered by the runs that [page] holds
    afterwards and the error. *)
Inductive runs_call : Type :=
| GetRuns (path : string) (page : list Run).

Definition runs_answer (c : runs_call) : Type := (list Run * option failure)%type.

(** [runs[:n]] on a slice, where [n] is at most the length. *)
Definition slice_to (runs : list Run) (n : Z) : outcome (list Run) :=
  if n <? 0 then Panics (IndexOutOfRange n (Z.of_nat (length runs)))
  else Val (take (Z.to_nat n) runs).

(** The loop of [ListRuns], which reads [req.Limit] of the request; [fuel]
    bounds the number of pages. *)
Fixpoint ListRuns_loop (fuel : nat) (limit : Z) (pageLimit : Z)
         (q : gmap string (list string)) (i : Z) (resp page : list Run)
  : effects.prog runs_call runs_answer (option (list Run * option failure)) :=
  match fuel with
  | O => effects.Ret None
  | S fuel' =>
      let q := <["page" := [FormatInt i]]> q in
      let i := wrap (i + 1) in
      effects.Do (GetRuns ("/runs/list?" +:+ Encode q) page) (fun '(page, err) =>
        match err with
        | Some e => effects.Ret (Some ([], Some e))
        | None =>
            let runs :=
              if (0 <? limit)
                 && (limit <? Z.of_nat (length resp) + Z.of_nat (length page))
              then slice_to page (limit - Z.of_nat (length resp))
              else Val page in
            match runs with
            | Panics p => effects.Abort p
            | Val runs =>
                let resp := resp ++ runs in
                if negb (Z.of_nat (length page) =? pageLimit) then
                  effects.Ret (Some (resp, None))
                else if (0 <? limit) && (Z.of_nat (length resp) =? limit) then
                  effects.Ret (Some (resp, None))
                else ListRuns_loop fuel' limit pageLimit q i resp page
            end
        end)
  end.

(** [Client.ListRuns], with at most [fuel] pages. *)
Definition ListRuns (fuel : nat) (req : ListRunsRequest)
  : effects.prog runs_call runs_answer (option (list Run * option failure)) :=
  let q := <["page" := [FormatInt (Page req)]]> ∅ in
  let q := if negb (String.eqb (TaskID_ req) "") then <["taskID" := [TaskID_ req]]> q
           else q in
  let pageLimit := if (0 <? Limit req) && (Limit req <? 100) then Limit req else 100 in
  let q := <["limit" := [FormatInt pageLimit]]> q in
  let q := if negb (IsZero (Since req)) then <["since" := [Format (Since req)]]> q
           else q in
  let q := if negb (IsZero (Until req)) then <["until" := [Format (Until req)]]> q
           else q in
  ListRuns_loop fuel (Limit req) pageLimit q 0 [] [].

(** The runs that the pages of a trace hold, in order. *)
Definition pages (t : list (effects.event runs_call runs_answer)) : list Run :=
  concat (map (fun e => fst (effects.ev_answer e : list Run * option failure)) t).

(** The first [limit] runs of a list, and all of them when the limit is
    not positive. *)
Definition up_to (limit : Z) (runs : list Run) : list Run :=
  if 0 <? limit then take (Z.to_nat limit) runs else runs.

End Runs.

Arguments Page {Time} l.
Arguments TaskID_ {Time} l.
Arguments Limit {Time} l.
Arguments Since {Time} l.
Arguments Until {Time} l.
Arguments GetRuns {Run} path page.
Arguments pages {Run} t.
Arguments up_to {Run} limit runs.

(** What the transport answered to a request. *)
Definition answered (e : effects.event call answer)
  : option (option Response * option error) :=
  match effects.ev_call e as c return answer c -> option (option Response * option error) with
  | HttpDo _ => fun x => Some x
  | DrainAndClose _ => fun _ => None
  end (effects.ev_answer e).

Section Tasks.

(** A payload, which [GetTask] does not send, and [api.Task] as the reply,
    with its slug, the writing of its URL and its zero value. *)
Variables Payload Task : Type.
Variable json_Marshal : Payload -> result string.
Variable decode_reply : Response -> result Task.
Variable decode_Error : Response -> option string.
Variable http_NewRequest : string -> string -> option error.
Variable version_Get : string.
Variable task_Slug : Task -> string.
Variable set_URL : Task -> string -> Task.
Variable zero_Task : Task.

(** [url.Values.Encode], [Client.TaskURL] and [Client.appURL] followed by
    [String]. *)
Variable Encode : gmap string (list string) -> string.
Variable TaskURL : Client -> string -> string.
Variable appURL_String : Client -> string.

(** What [GetTask] returns: the task and nil, or one of two errors, a
    [TaskMissingError] or the error of [do]; the task beside an error is
    left out. *)
Inductive got : Type :=
| Found (task : Task)
| TaskMissingError (appURL slug : string)
| NotFound (f : failure).

(** [Client.GetTask].  The result [res] is the zero value until [do]
    decodes the reply into it. *)
Definition GetTask (c : Client) (slug : string) : effects.prog call answer got :=
  let q : gmap string (list string) := {[ "slug" := [slug] ]} in
  effects.bind
    (do Payload Task json_Marshal decode_reply decode_Error http_NewRequest version_Get
        c "GET" ("/tasks/get?" +:+ Encode q) None true)
    (fun d =>
       let res := match d with
                  | Replied (Some res) => res
                  | _ => zero_Task
                  end in
       match d with
       | Failed (Error_ code message) =>
           if code =? 404 then effects.Ret (TaskMissingError (appURL_String c) slug)
           else effects.Ret (NotFound (Error_ code message))
       | Failed (Other e) => effects.Ret (NotFound (Other e))
       | Replied _ => effects.Ret (Found (set_URL res (TaskURL c (task_Slug res))))
       end).

End Tasks.

Arguments Found {Task} task.
Arguments TaskMissingError {Task} appURL slug.
Arguments NotFound {Task} f.

End api.

(** ** Package [deploy]: the check of the config references *)
Module deploy.

(** What the check calls: the API for a config, whose response it drops;
    the terminal, to learn whether it can prompt, to ask a yes-or-no
    question, to ask whether the new config is a secret and to read its
    value; the logger; and [configs.SetConfig]. *)
Inductive call : Type :=
| GetConfig (req : GetConfigRequest)
| CanPrompt
| Log (msg : string)
| Confirm (question : string)
| AskSecret
| ReadValueFromPrompt (message : string) (secret : bool)
| SetConfig (cn : NameTag) (value : string) (secret : bool).

Definition answer (c : call) : Type :=
  match c with
  | GetConfig _ => option api.failure
  | CanPrompt => bool
  | Log _ => unit
  | Confirm _ => (bool * option error)%type
  | AskSecret => (bool * option error)%type
  | ReadValueFromPrompt _ _ => result string
  | SetConfig _ _ _ => option error
  end.

(** [errors.Cause] of an error made by [errors.Wrap]: the innermost
    cause. *)
Fixpoint Cause (e : error) : error :=
  match e with
  | Errorf _ _ => e
  | Wrapf cause _ _ => Cause cause
  end.

Section Predeploy.

Variable X : Externals.

(** [configs.JoinName] and [logger.Bold]. *)
Variable JoinName : NameTag -> string.
Variable Bold : string -> string.

(** [createConfig]. *)
Definition createConfig (cn : NameTag) : effects.prog call answer (option api.failure) :=
  effects.Do AskSecret (fun '(secret, err) =>
    match err with
    | Some e => effects.Ret (Some (api.Other (Wrapf e "prompting value" [])))
    | None =>
        effects.Do (ReadValueFromPrompt ("Value for " +:+ JoinName cn) secret) (fun value =>
          match value with
          | Err e => effects.Ret (Some (api.Other e))
          | Ok value =>
              effects.Do (SetConfig cn value secret) (fun err =>
                match err with
                | Some e => effects.Ret (Some (api.Other e))
                | None => effects.Ret None
                end)
          end)
    end).

(** [ensureConfigVarExists]. *)
Definition ensureConfigVarExists (envName configName : string)
  : effects.prog call answer (option api.failure) :=
  match configs_ParseName X configName with
  | Err e => effects.Ret (Some (api.Other e))
  | Ok cn =>
      effects.Do (GetConfig {| req_Name := nt_Name cn; req_Tag := nt_Tag cn;
                               ShowSecret := false |}) (fun err =>
        match err with
        | None => effects.Ret None
        | Some (api.Other e) => effects.Ret (Some (api.Other (Cause e)))
        | Some (api.Error_ code message) =>
            if negb (code =? 404) then effects.Ret (Some (api.Error_ code message))
            else
              effects.Do CanPrompt (fun can =>
                if negb can then
                  effects.Ret (Some (api.Other (Errorf "config %s does not exist"
                                                       [configName])))
                else
                  effects.Do (Log ("Your task definition references config "
                                   +:+ Bold configName +:+ ", which does not exist"))
                    (fun _ =>
                       effects.Do (Confirm "Create it now?") (fun '(confirmed, errc) =>
                         match errc with
                         | Some e => effects.Ret (Some (api.Other e))
                         | None =>
                             if negb confirmed then
                               effects.Ret (Some (api.Other
                                                    (Errorf "config %s does not exist"
                                                            [configName])))
                             else createConfig cn
                         end)))
        end)
  end.

(** The loop of [ensureConfigVarsExist] over the entries in the order of
    the range. *)
Fixpoint ensureConfigVarsExist_loop (entries : list (string * EnvVarValue))
  : effects.prog call answer (option api.failure) :=
  match entries with
  | [] => effects.Ret None
  | (k, v) :: rest =>
      match ConfigRef v with
      | Some config =>
          effects.bind (ensureConfigVarExists k config) (fun err =>
            match err with
            | Some e => effects.Ret (Some e)
            | None => ensureConfigVarsExist_loop rest
            end)
      | None => ensureConfigVarsExist_loop rest
      end
  end.

(** [ensureConfigVarsExist], on what [def.GetEnv] returns. *)
Definition ensureConfigVarsExist (GetEnv : result (gmap string EnvVarValue))
  : effects.prog call answer (option api.failure) :=
  match GetEnv with
  | Err e => effects.Ret (Some (api.Other e))
  | Ok env => ensureConfigVarsExist_loop (range_TaskEnv X env)
  end.

End Predeploy.

End deploy.

(** The request of the check for a config name, and the calls of a check
    that ends by writing the config. *)
Definition check_request (cn : NameTag) : GetConfigRequest :=
  {| req_Name := nt_Name cn; req_Tag := nt_Tag cn; ShowSecret := false |}.

Definition creation (JoinName : NameTag -> string) (Bold : string -> string)
           (configName : string) (cn : NameTag) (message value : string)
           (secret : bool) (err : option error)
  : list (effects.event deploy.call deploy.answer) :=
  [effects.Event (deploy.GetConfig (check_request cn)) (Some (api.Error_ 404 message));
   effects.Event deploy.CanPrompt true;
   effects.Event (deploy.Log ("Your task definition references config "
                              +:+ Bold configName +:+ ", which does not exist")) tt;
   effects.Event (deploy.Confirm "Create it now?") (true, None);
   effects.Event deploy.AskSecret (secret, None);
   effects.Event (deploy.ReadValueFromPrompt ("Value for " +:+ JoinName cn) secret)
                 (Ok value);
   effects.Event (deploy.SetConfig cn value secret) err].

(** The request of a [GetConfig] of the check. *)
Definition checked (e : effects.event deploy.call deploy.answer)
  : option GetConfigRequest :=
  match effects.ev_call e with
  | deploy.GetConfig req => Some req
  | _ => None
  end.

(** The config that an entry of the task environment makes the check look
    up: the parsed name of its reference, whether or not it has a literal
    value as well. *)
Definition checked_config (X : Externals) (kv : string * EnvVarValue)
  : option GetConfigRequest :=
  match ConfigRef kv.2 with
  | Some config =>
      match configs_ParseName X config with
      | Ok cn => Some (check_request cn)
      | Err _ => None
      end
  | None => None
  end.

(** ** Package [logger] *)
Module logger.

Section Logger.

(** The arguments of a format, [fmt.Sprintf], and the colour [Blue]. *)
Variable Arg : Type.
Variable Sprintf : string -> list Arg -> string.
Variable Blue : string -> string.

(** [Log]: what it writes to stderr.  Without arguments the message is not
    treated as a format. *)
Definition Log (msg : string) (args : list Arg) : string :=
  if Nat.eqb (length args) 0 then msg +:+ newline
  else Sprintf (msg +:+ newline) args.

(** [Step]. *)
Definition Step (msg : string) (args : list Arg) : string :=
  Log ("- " +:+ msg) args.

Definition debugPrefix : string := "[" +:+ Blue "debug" +:+ "] ".

(** [Debug], for a value of [EnableDebug]: what it writes to stderr. *)
Definition Debug (EnableDebug : bool) (msg : string) (args : list Arg) : list string :=
  if negb EnableDebug then []
  else
    let msgf := msg in
    let msgf := if Nat.ltb 0 (length args) then Sprintf msg args else msgf in
    let msgf := debugPrefix
                +:+ strings_Join (strings_Split msgf newline) (newline +:+ debugPrefix) in
    [msgf +:+ newline].

End Logger.

End logger.

(** The lines of a text: the pieces between its newline characters. *)
Fixpoint lines (s : string) : list string :=
  match s with
  | EmptyString => [EmptyString]
  | String c t =>
      if Ascii.eqb "010" c then EmptyString :: lines t
      else
        match lines t with
        | l :: ls => String c l :: ls
        | [] => [String c EmptyString]
        end
  end.

(** A colour that wraps the text in escape sequences, and a formatter that
    leaves the format as it is. *)
Definition sample_Blue (s : string) : string :=
  String "027"%char "[34m" +:+ s +:+ String "027"%char "[0m".

Definition sample_Sprintf (format : string) (args : list string) : string := format.

(** ** Package [execute]: the inputs of a run *)
Module execute.

(** [api.Constraints] of a parameter. *)
Record Constraints : Type := mkConstraints { Optional : bool; Regex : string }.

(** The parameter types [api.TypeString] to [api.TypeDatetime]. *)
Definition TypeString : string := "string".
Definition TypeBoolean : string := "boolean".
Definition TypeUpload : string := "upload".
Definition TypeInteger : string := "integer".
Definition TypeFloat : string := "float".
Definition TypeDate : string := "date".
Definition TypeDatetime : string := "datetime".

(** A [survey.Prompt] as [promptForParam] makes it: a [survey.Select] whose
    default is nil or a string, or a [survey.Input]. *)
Inductive Prompt : Type :=
| Select (Message Help : string) (Options : list string) (Default : option string)
| Input (Message Help Default : string).

Section Execute.

(** A [float64], and a value of an [interface{}] that is none of nil, a
    string, a bool, an int and a float64. *)
Variable Float : Type.
Variable Other : Type.

(** An [api.Value], the [interface{}] of a parameter value. *)
Inductive Value : Type :=
| VNil
| VString (s : string)
| VBool (b : bool)
| VInt (n : Z)
| VFloat (f : Float)
| VOther (o : Other).

(** [api.Parameter], without its component. *)
Record Parameter_ : Type := mkParameter {
  Name : string;
  Slug : string;
  Type_ : string;
  Desc : string;
  Default_ : Value;
  Constraints_ : Constraints
}.

(** [api.Task]: the fields read here. *)
Record Task : Type := mkTask {
  task_Name : string;
  task_Slug : string;
  Parameters : list Parameter_
}.

(** [api.Values], a [map[string]interface{}]. *)
Local Abbreviation Values := (gmap string Value) (only parsing).

(** [strconv.ParseBool], [strconv.Atoi] and [strconv.ParseFloat] with 64
    bits. *)
Variable strconv_ParseBool : string -> result bool.
Variable strconv_Atoi : string -> result Z.
Variable strconv_ParseFloat : string -> result Float.

(** The function that [flagset] registers for the flag of a parameter, on
    the map [args] that it writes to: the map afterwards and the error. *)
Definition flagset_Func (p : Parameter_) (args : Values) (v : string)
  : Values * option error :=
  let slug := Slug p in
  let typ := Type_ p in
  let def := Default_ p in
  if String.eqb v "" then (<[slug := def]> args, None)
  else if String.eqb typ TypeString then (<[slug := VString v]> args, None)
  else if String.eqb typ TypeBoolean then
    match strconv_ParseBool v with
    | Err e => (args, Some e)
    | Ok b => (<[slug := VBool b]> args, None)
    end
  else if String.eqb typ TypeInteger then
    match strconv_Atoi v with
    | Err e => (args, Some e)
    | Ok n => (<[slug := VInt n]> args, None)
    end
  else if String.eqb typ TypeFloat then
    match strconv_ParseFloat v with
    | Err e => (args, Some e)
    | Ok n => (<[slug := VFloat n]> args, None)
    end
  else if String.eqb typ TypeUpload then
    (args, Some (Errorf "uploads are not supported from the CLI" []))
  else if String.eqb typ TypeDate then (<[slug := VString v]> args, None)
  else if String.eqb typ TypeDatetime then (<[slug := VString v]> args, None)
  else (args, None).

(** [params.APIValueToInput], [params.ParseInput], [params.YesString] and
    [params.NoString]. *)
Variable APIValueToInput : Parameter_ -> Value -> result string.
Variable ParseInput : Parameter_ -> string -> result Value.
Variable YesString NoString : string.

(** The colours of the logger, on a format and its arguments, [logger.Bold],
    [Client.TaskURL] and [%d]. *)
Variable Gray Yellow : string -> list string -> string.
Variable Bold : string -> string.
Variable TaskURL : string -> string.
Variable FormatInt : Z -> string.

(** [promptForParam]. *)
Definition promptForParam (param : Parameter_) : result Prompt :=
  let message := Name param +:+ " " +:+ Gray "(--%s)" [Slug param] +:+ ":" in
  match APIValueToInput param (Default_ param) with
  | Err e => Err e
  | Ok defaultValue =>
      if String.eqb (Type_ param) TypeBoolean then
        let dv := if String.eqb defaultValue "" then None else Some defaultValue in
        Ok (Select message (Desc param) [YesString; NoString] dv)
      else Ok (Input message (Desc param) defaultValue)
  end.

(** The validators that a prompt is asked with: [validateInput(param)],
    [survey.Required] and [regexValidator(pattern)]. *)
Inductive Validator : Type :=
| validateInput (param : Parameter_)
| Required
| regexValidator (pattern : string).

(** The validators of the prompt of a parameter, in the order of the
    options. *)
Definition validators (param : Parameter_) : list Validator :=
  [validateInput param]
  ++ (if negb (Optional (Constraints_ param)) then [Required] else [])
  ++ (if negb (String.eqb (Regex (Constraints_ param)) "") then
        [regexValidator (Regex (Constraints_ param))]
      else []).

(** What [promptForParamValues] calls: [utils.CanPrompt], [logger.Log] with
    a format and its arguments, [survey.AskOne] on the prompt of a parameter
    with its validators, answered by the input and the error, and
    [survey.AskOne] on the confirmation [Execute?], answered by the choice
    and the error. *)
Inductive call : Type :=
| CanPrompt
| Log (format : string) (args : list string)
| AskOne (prompt : Prompt) (validators : list Validator)
| AskExecute.

Definition answer (c : call) : Type :=
  match c with
  | CanPrompt => bool
  | Log _ _ => unit
  | AskOne _ _ => (string * option error)%type
  | AskExecute => (bool * option error)%type
  end.

(** The listing of the parameters when there is no terminal. *)
Fixpoint list_parameters (parameters : list Parameter_)
         (k : effects.prog call answer (Values * option error))
  : effects.prog call answer (Values * option error) :=
  match parameters with
  | [] => k
  | param :: rest =>
      let req := if negb (Optional (Constraints_ param)) then "*" else "" in
      effects.Do (Log "  %s%s %s" [Name param; req; Gray "(--%s)" [Slug param]]) (fun _ =>
      effects.Do (Log "    %s %s" [Type_ param; Desc param]) (fun _ =>
      list_parameters rest k))
  end.

(** The loop of [promptForParamValues] over the parameters, on the map
    [paramValues] that it writes to, followed by [k] on the map. *)
Fixpoint prompt_loop (parameters : list Parameter_) (paramValues : Values)
         (k : Values -> effects.prog call answer (Values * option error))
  : effects.prog call answer (Values * option error) :=
  match parameters with
  | [] => k paramValues
  | param :: rest =>
      if String.eqb (Type_ param) TypeUpload then
        effects.Do (Log (Yellow "Skipping %s - uploads are not supported in CLI"
                                [Name param]) [])
                   (fun _ => prompt_loop rest paramValues k)
      else
        match promptForParam param with
        | Err e => effects.Ret (paramValues, Some e)
        | Ok prompt =>
            effects.Do (AskOne prompt (validators param)) (fun '(inputValue, err) =>
              match err with
              | Some e =>
                  effects.Ret (paramValues, Some (Wrapf e "asking prompt for param" []))
              | None =>
                  match ParseInput param inputValue with
                  | Err e => effects.Ret (paramValues, Some e)
                  | Ok value =>
                      let paramValues :=
                        match value with
                        | VNil => paramValues
                        | _ => <[Slug param := value]> paramValues
                        end in
                      prompt_loop rest paramValues k
                  end
              end)
        end
  end.

(** [promptForParamValues]: the map afterwards and the error. *)
Definition promptForParamValues (task : Task) (paramValues : Values)
  : effects.prog call answer (Values * option error) :=
  effects.Do CanPrompt (fun can =>
    if negb can then
      if Nat.eqb (length (Parameters task)) 0 then effects.Ret (paramValues, None)
      else
        effects.Do (Log ("Parameters were not specified! Task has %d parameter(s):"
                         +:+ newline)
                        [FormatInt (Z.of_nat (length (Parameters task)))]) (fun _ =>
        list_parameters (Parameters task)
          (effects.Ret (paramValues, Some (Errorf "missing parameters" []))))
    else
      effects.Do (Log "You are about to run %s:" [Bold (task_Name task)]) (fun _ =>
      effects.Do (Log (Gray (TaskURL (task_Slug task)) []) []) (fun _ =>
      effects.Do (Log "" []) (fun _ =>
      prompt_loop (Parameters task) paramValues (fun paramValues =>
        effects.Do AskExecute (fun '(confirmed, err) =>
          match err with
          | Some e => effects.Ret (paramValues, Some (Wrapf e "confirming" []))
          | None =>
              if negb confirmed then
                effects.Ret (paramValues, Some (Errorf "user cancelled" []))
              else effects.Ret (paramValues, None)
          end)))))).

(** The prompts asked in a trace, and the prompt that a parameter is asked
    with: none for an upload. *)
Definition asked (e : effects.event call answer) : option (Prompt * list Validator) :=
  match effects.ev_call e with
  | AskOne prompt vs => Some (prompt, vs)
  | _ => None
  end.

Definition prompt_of (param : Parameter_) : option (Prompt * list Validator) :=
  if String.eqb (Type_ param) TypeUpload then None
  else
    match promptForParam param with
    | Ok prompt => Some (prompt, validators param)
    | Err _ => None
    end.

(** What the loop may have written to the map: a key either holds what it
    held before, or holds the value, not nil, that [ParseInput] gave for
    some input of a parameter with that slug that is not an upload. *)
Definition written (parameters : list Parameter_) (before after : Values) : Prop :=
  forall k,
    after !! k = before !! k \/
    exists param input value,
      In param parameters /\ Slug param = k /\
      String.eqb (Type_ param) TypeUpload = false /\
      ParseInput param input = Ok value /\ value <> VNil /\
      after !! k = Some value.

(** A call of the loop: a log line or a prompt. *)
Definition in_loop (e : effects.event call answer) : Prop :=
  match effects.ev_call e with
  | Log _ _ | AskOne _ _ => True
  | CanPrompt | AskExecute => False
  end.

End Execute.

Arguments VNil {Float Other}.
Arguments VString {Float Other} s.
Arguments VBool {Float Other} b.
Arguments VInt {Float Other} n.
Arguments VFloat {Float Other} f.
Arguments VOther {Float Other} o.
Arguments Name {Float Other} p.
Arguments Slug {Float Other} p.
Arguments Type_ {Float Other} p.
Arguments Desc {Float Other} p.
Arguments Default_ {Float Other} p.
Arguments Constraints_ {Float Other} p.
Arguments task_Name {Float Other} t.
Arguments task_Slug {Float Other} t.
Arguments Parameters {Float Other} t.
Arguments validateInput {Float Other} param.
Arguments Required {Float Other}.
Arguments regexValidator {Float Other} pattern.
Arguments validators {Float Other} param.
Arguments CanPrompt {Float Other}.
Arguments Log {Float Other} format args.
Arguments AskOne {Float Other} prompt validators.
Arguments AskExecute {Float Other}.
Arguments asked {Float Other} e.
Arguments in_loop {Float Other} e.

End execute.

(** *** Bytes *)

Lemma byteZ_range (c : ascii) : 0 <= byteZ c < 256.
Proof.
  unfold byteZ. pose proof (N_ascii_bounded c). lia.
Qed.

Lemma byteZ_Zbyte (z : Z) : 0 <= z < 256 -> byteZ (Zbyte z) = z.
Proof.
  intros Hz. unfold byteZ, Zbyte.
  rewrite N_ascii_embedding by lia. lia.
Qed.

Lemma lor_lower_l (a b : Z) : 0 <= a -> 0 <= b -> a <= Z.lor a b.
Proof.
  intros Ha Hb.
  assert (Hd : Z.lor a b = Z.lor a (Z.ldiff b a)).
  { apply Z.bits_inj'. intros n Hn.
    rewrite !Z.lor_spec, Z.ldiff_spec.
    destruct (Z.testbit a n), (Z.testbit b n); reflexivity. }
  assert (Hz : Z.land a (Z.ldiff b a) = 0).
  { apply Z.bits_inj'. intros n Hn.
    rewrite Z.land_spec, Z.ldiff_spec, Z.bits_0.
    destruct (Z.testbit a n), (Z.testbit b n); reflexivity. }
  rewrite Hd, <- Z.add_nocarry_lor by exact Hz.
  assert (0 <= Z.ldiff b a) by (apply Z.ldiff_nonneg; lia).
  lia.
Qed.

Lemma lor_lower_r (a b : Z) : 0 <= a -> 0 <= b -> b <= Z.lor a b.
Proof.
  intros. rewrite Z.lor_comm. apply lor_lower_l; assumption.
Qed.

Lemma land_mask_nonneg (a m : Z) : 0 <= m -> 0 <= Z.land a m.
Proof.
  intros. apply Z.land_nonneg. right. assumption.
Qed.

(** A continuation byte written by the encoder lies in [0x80, 0xBF]. *)
Lemma cont_byte_range (z : Z) :
  128 <= byteZ (Zbyte (Z.lor 0x80 (Z.land z 0x3F))) < 192.
Proof.
  assert (Hm : Z.land z 0x3F = z mod 64).
  { change 0x3F with (Z.ones 6). rewrite Z.land_ones by lia. reflexivity. }
  assert (Hz : Z.land 0x80 (Z.land z 0x3F) = 0).
  { rewrite (Z.land_comm z), Z.land_assoc. reflexivity. }
  rewrite <- Z.add_nocarry_lor by exact Hz.
  rewrite Hm. pose proof (Z.mod_pos_bound z 64).
  rewrite byteZ_Zbyte by lia. lia.
Qed.

(** *** Last bytes *)

Lemma append_cons (c : ascii) (a b : string) :
  String c a +:+ b = String c (a +:+ b).
Proof. reflexivity. Qed.

Lemma append_nil (b : string) : "" +:+ b = b.
Proof. reflexivity. Qed.

Lemma last_byte_cons (c : ascii) (t : string) :
  t <> "" -> last_byte (String c t) = last_byte t.
Proof.
  destruct t; [congruence | reflexivity].
Qed.

Lemma last_byte_app (a b : string) :
  b <> "" -> last_byte (a +:+ b) = last_byte b.
Proof.
  intros Hb. induction a as [|c a IH]; [reflexivity|].
  rewrite append_cons, <- IH.
  apply last_byte_cons.
  destruct a; [exact Hb | discriminate].
Qed.

Lemma ends_in_digit_app (a b : string) :
  b <> "" -> ends_in_digit (a +:+ b) = ends_in_digit b.
Proof.
  intros Hb. unfold ends_in_digit. rewrite last_byte_app by exact Hb. reflexivity.
Qed.

Lemma append_empty_r (a : string) : a +:+ "" = a.
Proof.
  induction a as [|c a IH]; [reflexivity|]. rewrite append_cons, IH. reflexivity.
Qed.

Lemma last_byte_is_Some (s : string) : s <> "" -> exists c, last_byte s = Some c.
Proof.
  induction s as [|c s IH]; [congruence|]. intros _.
  destruct s as [|c' s']; [exists c; reflexivity|].
  destruct IH as [d Hd]; [discriminate|]. exists d. exact Hd.
Qed.

(** *** The encoder *)

Lemma EncodeRune_last (r : Z) :
  0 <= r ->
  utf8.EncodeRune r <> "" /\ ends_in_digit (utf8.EncodeRune r) = unicode_IsDigit r.
Proof.
  intros Hr. unfold utf8.EncodeRune, ends_in_digit, unicode_IsDigit, utf8.MaxRune.
  repeat match goal with
         | |- context [if ?b then _ else _] => destruct b eqn:?
         end;
    (split; [discriminate|]); simpl last_byte; cbv beta iota;
    try (pose proof (cont_byte_range r); lia);
    rewrite byteZ_Zbyte by lia; lia.
Qed.

(** *** The decoder *)

Lemma first_Some (b : Z) (sz : nat) (lo hi : Z) :
  utf8.first b = Some (sz, lo, hi) ->
  128 <= lo /\ hi <= 191 /\
  ((sz = 2%nat /\ 194 <= b <= 223) \/
   (sz = 3%nat /\ 224 <= b <= 239 /\ (b = 224 -> lo = 160)) \/
   (sz = 4%nat /\ 240 <= b <= 244 /\ (b = 240 -> lo = 144))).
Proof.
  unfold utf8.first.
  repeat match goal with
         | |- context [if ?c then _ else _] => destruct c eqn:?
         end;
    intros [= <- <- <-] || discriminate; lia.
Qed.

Lemma mask_shift (s m k : Z) :
  0 <= m -> 0 <= k ->
  Z.shiftl (Z.land s (Z.ones m)) k = (s mod 2 ^ m) * 2 ^ k.
Proof.
  intros Hm Hk. rewrite Z.land_ones, Z.shiftl_mul_pow2 by lia. reflexivity.
Qed.

Lemma rune2_lower (s0 s1 : Z) :
  194 <= s0 <= 223 ->
  128 <= Z.lor (Z.shiftl (Z.land s0 0x1F) 6) (Z.land s1 0x3F).
Proof.
  intros Hs0.
  change 0x1F with (Z.ones 5). rewrite mask_shift by lia.
  pose proof (land_mask_nonneg s1 0x3F).
  pose proof (lor_lower_l (s0 mod 2 ^ 5 * 2 ^ 6) (Z.land s1 0x3F)).
  change (2 ^ 5) with 32 in *. change (2 ^ 6) with 64 in *.
  Z.div_mod_to_equations. lia.
Qed.

Lemma rune3_lower (s0 s1 s2 : Z) :
  224 <= s0 <= 239 -> (s0 = 224 -> 160 <= s1) -> s1 <= 191 ->
  128 <= Z.lor (Z.lor (Z.shiftl (Z.land s0 0x0F) 12)
                      (Z.shiftl (Z.land s1 0x3F) 6))
               (Z.land s2 0x3F).
Proof.
  intros Hs0 Hlo Hhi.
  change 0x0F with (Z.ones 4). change 0x3F with (Z.ones 6).
  rewrite !mask_shift by lia.
  pose proof (land_mask_nonneg s2 (Z.ones 6)).
  set (A := s0 mod 2 ^ 4 * 2 ^ 12). set (B := s1 mod 2 ^ 6 * 2 ^ 6).
  assert (HA : 0 <= A /\ (s0 <> 224 -> 128 <= A)).
  { subst A. change (2 ^ 4) with 16. change (2 ^ 12) with 4096.
    Z.div_mod_to_equations. lia. }
  assert (HB : 0 <= B /\ (s0 = 224 -> 128 <= B)).
  { subst B. change (2 ^ 6) with 64.
    Z.div_mod_to_equations. lia. }
  pose proof (lor_lower_l A B). pose proof (lor_lower_r A B).
  pose proof (lor_lower_l (Z.lor A B) (Z.land s2 (Z.ones 6))).
  change (Z.ones 6) with 63 in *. lia.
Qed.

Lemma rune4_lower (s0 s1 s2 s3 : Z) :
  240 <= s0 <= 244 -> (s0 = 240 -> 144 <= s1) -> s1 <= 191 ->
  128 <= Z.lor (Z.lor (Z.lor (Z.shiftl (Z.land s0 0x07) 18)
                             (Z.shiftl (Z.land s1 0x3F) 12))
                      (Z.shiftl (Z.land s2 0x3F) 6))
               (Z.land s3 0x3F).
Proof.
  intros Hs0 Hlo Hhi.
  change 0x07 with (Z.ones 3). change 0x3F with (Z.ones 6).
  rewrite !mask_shift by lia.
  pose proof (land_mask_nonneg s3 (Z.ones 6)).
  set (A := s0 mod 2 ^ 3 * 2 ^ 18). set (B := s1 mod 2 ^ 6 * 2 ^ 12).
  set (C := s2 mod 2 ^ 6 * 2 ^ 6).
  assert (HA : 0 <= A /\ (s0 <> 240 -> 128 <= A)).
  { subst A. change (2 ^ 3) with 8. change (2 ^ 18) with 262144.
    Z.div_mod_to_equations. lia. }
  assert (HB : 0 <= B /\ (s0 = 240 -> 128 <= B)).
  { subst B. change (2 ^ 6) with 64. change (2 ^ 12) with 4096.
    Z.div_mod_to_equations. lia. }
  assert (HC : 0 <= C).
  { subst C. change (2 ^ 6) with 64. Z.div_mod_to_equations. lia. }
  pose proof (lor_lower_l A B). pose proof (lor_lower_r A B).
  pose proof (lor_lower_l (Z.lor A B) C).
  pose proof (lor_lower_l (Z.lor (Z.lor A B) C) (Z.land s3 (Z.ones 6))).
  change (Z.ones 6) with 63 in *. lia.
Qed.

Lemma drop_bytes_length (n : nat) (s : string) :
  (String.length (drop_bytes n s) <= String.length s)%nat.
Proof.
  revert s. induction n as [|n IH]; intros [|c s]; simpl; try lia.
  specialize (IH s). lia.
Qed.

Lemma ends_in_digit_cons (c : ascii) (t : string) :
  t <> "" -> ends_in_digit (String c t) = ends_in_digit t.
Proof.
  intros Ht. unfold ends_in_digit. rewrite last_byte_cons by exact Ht. reflexivity.
Qed.

Lemma ends_in_digit_high (c : ascii) :
  128 <= byteZ c -> ends_in_digit (String c "") = false.
Proof.
  intros Hc. unfold ends_in_digit, unicode_IsDigit. simpl. lia.
Qed.

(** What one decoding step leaves behind: the rune is not negative, the
    remaining text is no longer than the tail, and the digit at the end of
    the whole text is either the digit at the end of the remaining text or,
    when nothing remains, the decoded rune itself. *)
Lemma DecodeRune_tail (c0 : ascii) (t : string) (c : Z) (w : nat) :
  utf8.DecodeRune c0 t = (c, w) ->
  0 <= c /\
  (String.length (drop_bytes (w - 1) t) <= String.length t)%nat /\
  (drop_bytes (w - 1) t <> "" ->
   ends_in_digit (String c0 t) = ends_in_digit (drop_bytes (w - 1) t)) /\
  (drop_bytes (w - 1) t = "" ->
   ends_in_digit (String c0 t) = unicode_IsDigit c).
Proof.
  intros Hd. split; [|split; [apply drop_bytes_length|]].
  - revert Hd. unfold utf8.DecodeRune, utf8.RuneError, utf8.RuneSelf.
    pose proof (byteZ_range c0).
    destruct (utf8.first (byteZ c0)) as [[[sz lo] hi]|] eqn:Hf.
    + apply first_Some in Hf. destruct Hf as (Hlo & Hhi & Hsz).
      destruct t as [|c1 t1]; [intros [= <- <-]; lia|].
      destruct ((byteZ c1 <? lo) || (hi <? byteZ c1)) eqn:H1; [intros [= <- <-]; lia|].
      destruct (Nat.leb_spec sz 2) as [H2|H2].
      { intros [= <- <-]. pose proof (rune2_lower (byteZ c0) (byteZ c1)). lia. }
      destruct t1 as [|c2 t2]; [intros [= <- <-]; lia|].
      destruct (negb (utf8.cont (byteZ c2))); [intros [= <- <-]; lia|].
      destruct (Nat.leb_spec sz 3) as [H3|H3].
      { intros [= <- <-].
        pose proof (rune3_lower (byteZ c0) (byteZ c1) (byteZ c2)). lia. }
      destruct t2 as [|c3 t3]; [intros [= <- <-]; lia|].
      destruct (negb (utf8.cont (byteZ c3))); [intros [= <- <-]; lia|].
      intros [= <- <-].
      pose proof (rune4_lower (byteZ c0) (byteZ c1) (byteZ c2) (byteZ c3)). lia.
    + destruct (byteZ c0 <? 128); intros [= <- <-]; lia.
  - revert Hd. unfold utf8.DecodeRune, utf8.RuneError, utf8.RuneSelf.
    pose proof (byteZ_range c0).
    assert (Hw1 : forall c', (c' = byteZ c0 /\ byteZ c0 < 128) \/
                             (c' = 0xFFFD /\ 128 <= byteZ c0) ->
              (drop_bytes (1 - 1) t <> "" ->
               ends_in_digit (String c0 t) = ends_in_digit (drop_bytes (1 - 1) t)) /\
              (drop_bytes (1 - 1) t = "" ->
               ends_in_digit (String c0 t) = unicode_IsDigit c')).
    { intros c' Hc'. simpl. split; intros Ht.
      - apply ends_in_digit_cons. exact Ht.
      - subst t. unfold ends_in_digit, unicode_IsDigit. simpl.
        destruct Hc' as [[-> ?]|[-> ?]]; [reflexivity | lia]. }
    destruct (utf8.first (byteZ c0)) as [[[sz lo] hi]|] eqn:Hf.
    + apply first_Some in Hf. destruct Hf as (Hlo & Hhi & Hsz).
      destruct t as [|c1 t1]; [intros [= <- <-]; apply Hw1; lia|].
      destruct ((byteZ c1 <? lo) || (hi <? byteZ c1)) eqn:H1;
        [intros [= <- <-]; apply Hw1; lia|].
      destruct (Nat.leb_spec sz 2) as [H2|H2].
      { intros [= <- <-]. simpl drop_bytes.
        pose proof (rune2_lower (byteZ c0) (byteZ c1)).
        split; intros Ht.
        - rewrite !ends_in_digit_cons by (exact Ht || discriminate). reflexivity.
        - subst t1. rewrite ends_in_digit_cons by discriminate.
          rewrite ends_in_digit_high by lia. unfold unicode_IsDigit. lia. }
      destruct t1 as [|c2 t2]; [intros [= <- <-]; apply Hw1; lia|].
      destruct (utf8.cont (byteZ c2)) eqn:Hc2; simpl negb;
        [|intros [= <- <-]; apply Hw1; lia].
      unfold utf8.cont in Hc2.
      destruct (Nat.leb_spec sz 3) as [H3|H3].
      { intros [= <- <-]. simpl drop_bytes.
        pose proof (rune3_lower (byteZ c0) (byteZ c1) (byteZ c2)).
        split; intros Ht.
        - rewrite !ends_in_digit_cons by (exact Ht || discriminate). reflexivity.
        - subst t2. rewrite !ends_in_digit_cons by discriminate.
          rewrite ends_in_digit_high by lia. unfold unicode_IsDigit. lia. }
      destruct t2 as [|c3 t3]; [intros [= <- <-]; apply Hw1; lia|].
      destruct (utf8.cont (byteZ c3)) eqn:Hc3; simpl negb;
        [|intros [= <- <-]; apply Hw1; lia].
      unfold utf8.cont in Hc3.
      intros [= <- <-]. simpl drop_bytes.
      pose proof (rune4_lower (byteZ c0) (byteZ c1) (byteZ c2) (byteZ c3)).
      split; intros Ht.
      * rewrite !ends_in_digit_cons by (exact Ht || discriminate). reflexivity.
      * subst t3. rewrite !ends_in_digit_cons by discriminate.
        rewrite ends_in_digit_high by lia. unfold unicode_IsDigit. lia.
    + unfold utf8.first in Hf.
      destruct (byteZ c0 <? 128) eqn:Hlt; intros [= <- <-]; apply Hw1; lia.
Qed.

(** The fuel of [strings_Map] is enough: every step consumes at least one
    byte, so any fuel from the length of the text on gives the same result. *)
Lemma Map_loop_fuel (f : Z -> Z) (n m : nat) (s : string) :
  (String.length s <= n)%nat -> (String.length s <= m)%nat ->
  Map_loop f n s = Map_loop f m s.
Proof.
  revert m s. induction n as [|n IH]; intros m s Hn Hm.
  - destruct s; [|simpl in Hn; lia]. destruct m; reflexivity.
  - destruct s as [|c0 t]; [destruct m; reflexivity|].
    destruct m as [|m]; [simpl in Hm; lia|].
    cbn [Map_loop]. destruct (utf8.DecodeRune c0 t) as [c w].
    pose proof (drop_bytes_length (w - 1) t). simpl in Hn, Hm.
    rewrite (IH m) by lia. reflexivity.
Qed.

(** *** Lower-casing keeps the digit at the end *)
Section LowerKeepsDigit.

Variable lowerTable : Z -> Z.

(** The Unicode lower-case mapping sends no rune above ASCII to a negative
    value or to one of the digits 0 to 9. *)
Hypothesis lowerTable_no_digit :
  forall r, 127 < r -> 0 <= lowerTable r /\ unicode_IsDigit (lowerTable r) = false.

Lemma unicode_ToLower_digit (r : Z) :
  0 <= r ->
  0 <= unicode_ToLower lowerTable r /\
  unicode_IsDigit (unicode_ToLower lowerTable r) = unicode_IsDigit r.
Proof.
  intros Hr. unfold unicode_ToLower.
  destruct (Z.leb_spec r 127) as [Hle|Hgt].
  - unfold unicode_IsDigit. destruct ((65 <=? r) && (r <=? 90)) eqn:Hup; lia.
  - destruct (lowerTable_no_digit r Hgt) as [H0 Hd].
    split; [exact H0|]. rewrite Hd. unfold unicode_IsDigit. lia.
Qed.

Lemma Map_loop_empty (f : Z -> Z) (n : nat) : Map_loop f n "" = "".
Proof. destruct n; reflexivity. Qed.

Lemma Map_loop_last (n : nat) (s : string) :
  (String.length s <= n)%nat -> s <> "" ->
  Map_loop (unicode_ToLower lowerTable) n s <> "" /\
  ends_in_digit (Map_loop (unicode_ToLower lowerTable) n s) = ends_in_digit s.
Proof.
  revert s. induction n as [|n IH]; intros [|c0 t] Hlen Hne;
    try congruence; simpl in Hlen; [lia|].
  cbn [Map_loop].
  destruct (utf8.DecodeRune c0 t) as [c w] eqn:Hd.
  destruct (DecodeRune_tail c0 t c w Hd) as (Hc & Hl & Hrest & Hlast).
  destruct (unicode_ToLower_digit c Hc) as [Hr Hdig].
  destruct (Z.leb_spec 0 (unicode_ToLower lowerTable c)) as [_|?]; [|lia].
  destruct (EncodeRune_last _ Hr) as [Henc Hencd].
  destruct (string_dec (drop_bytes (w - 1) t) "") as [He|Hn].
  - rewrite He, Map_loop_empty, append_empty_r.
    split; [exact Henc|]. rewrite Hencd, Hdig. symmetry. apply Hlast. exact He.
  - destruct (IH (drop_bytes (w - 1) t)) as [IH1 IH2]; [lia | exact Hn |].
    split.
    + destruct (utf8.EncodeRune _); [congruence | discriminate].
    + rewrite ends_in_digit_app by exact IH1. rewrite IH2. symmetry.
      apply Hrest. exact Hn.
Qed.

Lemma lowerASCII_last (s : string) :
  s <> "" ->
  lowerASCII s <> "" /\ ends_in_digit (lowerASCII s) = ends_in_digit s.
Proof.
  induction s as [|c t IH]; [congruence|]. intros _. split; [discriminate|].
  cbn [lowerASCII]. destruct t as [|c' t'].
  - unfold ends_in_digit, unicode_IsDigit. simpl last_byte. cbv beta iota.
    pose proof (byteZ_range c).
    destruct ((65 <=? byteZ c) && (byteZ c <=? 90)) eqn:Hup; [|reflexivity].
    rewrite byteZ_Zbyte by lia. lia.
  - destruct IH as [IH1 IH2]; [discriminate|].
    rewrite ends_in_digit_cons by exact IH1.
    rewrite ends_in_digit_cons by discriminate. exact IH2.
Qed.

Lemma strings_ToLower_last (s : string) :
  s <> "" ->
  strings_ToLower lowerTable s <> "" /\
  ends_in_digit (strings_ToLower lowerTable s) = ends_in_digit s.
Proof.
  intros Hne. unfold strings_ToLower, strings_Map.
  destruct (isASCII s).
  - apply lowerASCII_last. exact Hne.
  - apply Map_loop_last; [lia | exact Hne].
Qed.

End LowerKeepsDigit.

(** *** Indexing the last byte *)

Lemma get_last (s : string) :
  String.get (String.length s - 1) s = last_byte s.
Proof.
  induction s as [|c t IH]; [reflexivity|].
  destruct t as [|c' t']; [reflexivity|].
  rewrite last_byte_cons by discriminate. rewrite <- IH.
  simpl. rewrite Nat.sub_0_r. reflexivity.
Qed.

Lemma index_byte_last (s : string) (c : ascii) :
  last_byte s = Some c ->
  index_byte s (Z.of_nat (String.length s) - 1) = Val c.
Proof.
  intros Hl. unfold index_byte.
  assert (Hlen : (0 < String.length s)%nat).
  { destruct s; [discriminate | simpl; lia]. }
  destruct ((Z.of_nat (String.length s) - 1 <? 0)
            || (Z.of_nat (String.length s) <=? Z.of_nat (String.length s) - 1)) eqn:Hb;
    [lia|].
  replace (Z.to_nat (Z.of_nat (String.length s) - 1)) with (String.length s - 1)%nat by lia.
  rewrite get_last, Hl. reflexivity.
Qed.

Lemma substring_drop_last (s : string) :
  String.substring 0 (String.length s - 1) s = drop_last s.
Proof.
  induction s as [|c t IH]; [reflexivity|].
  destruct t as [|c' t']; [reflexivity|].
  change (drop_last (String c (String c' t'))) with (String c (drop_last (String c' t'))).
  rewrite <- IH. simpl. rewrite Nat.sub_0_r. reflexivity.
Qed.

(** C1. For every non-empty task ID whose last byte is a digit,
    [sanitizeTaskID] returns the lower-cased ID with that last byte (still
    the digit after lower-casing) replaced by the letter a; for every
    non-empty ID not ending in a digit it returns the lower-cased ID
    unchanged.  In particular Task123 becomes task12a and TaskABC becomes
    taskabc.  [lowerTable] is the lower-case mapping of the Unicode tables,
    which yields no digit. *)
Theorem sanitizeTaskID_digit_rule (lowerTable : Z -> Z) (s : string) :
  (forall r, 127 < r -> 0 <= lowerTable r /\ unicode_IsDigit (lowerTable r) = false) ->
  s <> "" ->
  (ends_in_digit s = true ->
   ends_in_digit (strings_ToLower lowerTable s) = true /\
   sanitizeTaskID lowerTable s
   = Val (drop_last (strings_ToLower lowerTable s) +:+ "a")) /\
  (ends_in_digit s = false ->
   sanitizeTaskID lowerTable s = Val (strings_ToLower lowerTable s)) /\
  sanitizeTaskID lowerTable "Task123" = Val "task12a" /\
  sanitizeTaskID lowerTable "TaskABC" = Val "taskabc".
Proof.
  intros Htab Hne.
  destruct (strings_ToLower_last lowerTable Htab s Hne) as [Hlow Hdig].
  destruct (last_byte_is_Some _ Hlow) as [c Hc].
  assert (Hsan : sanitizeTaskID lowerTable s
                 = if ends_in_digit s
                   then Val (drop_last (strings_ToLower lowerTable s) +:+ "a")
                   else Val (strings_ToLower lowerTable s)).
  { unfold sanitizeTaskID. rewrite (index_byte_last _ c Hc).
    rewrite <- Hdig. unfold ends_in_digit at 1. rewrite Hc.
    rewrite substring_drop_last. reflexivity. }
  repeat split.
  - rewrite Hdig. assumption.
  - rewrite Hsan. destruct (ends_in_digit s); [reflexivity | discriminate].
  - intros Hf. rewrite Hsan, Hf. reflexivity.
Qed.

Lemma sanitizeTaskID_digit_rule_witness :
  ends_in_digit "Task123" = true /\
  sanitizeTaskID (fun r => r) "Task123"
  = Val (drop_last (strings_ToLower (fun r => r) "Task123") +:+ "a").
Proof.
  split; [reflexivity|].
  refine (proj2 (proj1 (sanitizeTaskID_digit_rule (fun r => r) "Task123" _ _) _)).
  - intros r Hr. unfold unicode_IsDigit. lia.
  - discriminate.
  - reflexivity.
Defined.

(** ** Reasoning about programs *)

Lemma always_mono {A : Type} (P Q : list event -> outcome A -> Prop) (p : prog A) :
  (forall t r, P t r -> Q t r) -> always P p -> always Q p.
Proof.
  revert P Q. induction p as [a|q|c k IH]; simpl; intros P Q HPQ HP; auto.
  intros x. eapply IH; [|apply HP]. intros t r. apply HPQ.
Qed.

Lemma always_bind {A B : Type} (f : A -> prog B) (p : prog A)
      (P : list event -> outcome B -> Prop) :
  always (fun t r => match r with
                     | Val a => always (fun t' r' => P (t ++ t') r') (f a)
                     | Panics q => P t (Panics q)
                     end) p ->
  always P (p ≫= f).
Proof.
  revert P. induction p as [a|q|c k IH]; simpl; intros P HP.
  - exact HP.
  - exact HP.
  - intros x. apply IH. apply HP.
Qed.

Lemma always_defer {A : Type} (cleanup : prog unit) (body : prog A)
      (P : list event -> outcome A -> Prop) :
  always (fun t r =>
            always (fun t' r' => P (t ++ t') (match r' with
                                              | Val _ => r
                                              | Panics q => Panics q
                                              end)) cleanup) body ->
  always P (defer cleanup body).
Proof.
  revert P. induction body as [a|q|c k IH]; simpl; intros P HP.
  - clear -HP. revert P HP.
    induction cleanup as [u|q|c k IH]; simpl; intros P HP; auto.
  - clear -HP. revert P HP.
    induction cleanup as [u|q'|c k IH]; simpl; intros P HP; auto.
  - intros x. apply IH. apply HP.
Qed.

Lemma run_always {W A : Type} (h : handler W) (p : prog A) (w : W)
      (P : list event -> outcome A -> Prop) :
  always P p -> P (trace_of (run h p w)) (outcome_of (run h p w)).
Proof.
  revert w P. induction p as [a|q|c k IH]; simpl; intros w P HP; auto.
  destruct (h c w) as [x w1].
  specialize (IH x w1 _ (HP x)).
  destruct (run h (k x) w1) as [[r t] w2]. exact IH.
Qed.

(** One step along a program: a call answered, a branch taken. *)
Ltac prog_simpl :=
  cbn [always prog_bind mbind mret prog_mbind prog_mret perform eval defer exist].

Ltac prog_step :=
  prog_simpl;
  match goal with
  | |- forall _ : answer _, _ => intros ?
  | |- always _ ?p =>
      match p with
      | context [match ?x with _ => _ end] => destruct x eqn:?
      end
  end.

(** *** Extracting answers from traces *)

Lemma in_map_Some {A : Type} (f : event -> option A) (x : A) (t : list event) :
  In (Some x) (map f t) -> exists e, In e t /\ f e = Some x.
Proof.
  intros H. apply in_map_iff in H. destruct H as (e & He & Hin). eauto.
Qed.

Lemma stat_of_party (e : event) (x : string * bool) :
  stat_of e = Some x -> party_of (ev_call e) = Filesystem.
Proof. destruct e as [[] a]; simpl; congruence. Qed.

Lemma token_of_party (e : event) x :
  token_of e = Some x -> party_of (ev_call e) = AirplaneAPI.
Proof. destruct e as [[] a]; simpl; congruence. Qed.

Lemma config_of_party (e : event) x :
  config_of e = Some x -> party_of (ev_call e) = AirplaneAPI.
Proof. destruct e as [[] a]; simpl; congruence. Qed.

Lemma listing_of_party (e : event) x :
  listing_of e = Some x -> party_of (ev_call e) = DockerEngine.
Proof. destruct e as [[] a]; simpl; congruence. Qed.

Lemma build_request_party (e : event) x :
  build_request e = Some x -> party_of (ev_call e) = DockerEngine.
Proof. unfold build_request. destruct e as [[] a]; simpl; congruence. Qed.

Lemma push_request_party (e : event) x :
  push_request e = Some x -> party_of (ev_call e) = DockerEngine.
Proof. unfold push_request. destruct e as [[] a]; simpl; congruence. Qed.

(** *** The Dockerfile synthesizer *)
Section Synthesis.

Variable X : Externals.

Ltac synthesis_leaf :=
  split; [eauto|]; split; [repeat constructor|];
  first [ left; left; reflexivity | right; split; reflexivity ].

Lemma generator_post (kind : string) (c : DockerfileConfig) :
  always (fun t r =>
            (exists v, r = Val v) /\
            Forall (fun e => party_of (ev_call e) = Filesystem) t /\
            (In (Some (entrypoint_path X c, true)) (map stat_of t) \/
             (r = Val (Err (MissingFileError (path_Base X (entrypoint_path X c)))) /\
              t = [Event (Stat (entrypoint_path X c)) false])))
         (generator X kind (df_Root c) (df_Args c)).
Proof.
  unfold generator, entrypoint_path. repeat prog_step; synthesis_leaf.
Qed.

Lemma python_post (c : DockerfileConfig) :
  always (fun t r =>
            (exists v, r = Val v) /\
            Forall (fun e => party_of (ev_call e) = Filesystem) t /\
            (In (Some (entrypoint_path X c, true)) (map stat_of t) \/
             (r = Val (Err (MissingFileError (path_Base X (entrypoint_path X c)))) /\
              t = [Event (Stat (entrypoint_path X c)) false])))
         (python X (df_Root c) (df_Args c)).
Proof.
  unfold python, pythonLegacy, fsx_AssertExistsAll, fsx_Exists, entrypoint_path.
  repeat prog_step; synthesis_leaf.
Qed.

Lemma BuildDockerfile_always (c : DockerfileConfig) :
  always (BuildDockerfile_post X c) (BuildDockerfile X c).
Proof.
  unfold BuildDockerfile, BuildDockerfile_post, recognized,
    golang, deno, node_, docker.
  destruct (String.eqb (df_Builder c) BuilderNameGo);
    [simpl orb; cbv iota; apply generator_post|].
  destruct (String.eqb (df_Builder c) BuilderNameDeno);
    [simpl orb; cbv iota; apply generator_post|].
  destruct (String.eqb (df_Builder c) BuilderNamePython);
    [simpl orb; cbv iota; apply python_post|].
  destruct (String.eqb (df_Builder c) BuilderNameNode);
    [simpl orb; cbv iota; apply generator_post|].
  destruct (String.eqb (df_Builder c) BuilderNameDocker);
    [simpl orb; cbv iota; apply generator_post|].
  simpl. split; [eauto|]. split; [constructor|]. split; reflexivity.
Qed.

End Synthesis.

(** *** Solving the leaves of a walk *)

Lemma filesystem_no_listing (t : list event) x :
  Forall (fun e => party_of (ev_call e) = Filesystem) t ->
  In (Some x) (map listing_of t) -> False.
Proof.
  intros Hfs Hin. apply in_map_Some in Hin. destruct Hin as (e & He & Hl).
  apply listing_of_party in Hl. rewrite Forall_forall in Hfs.
  apply list_elem_of_In in He. specialize (Hfs e He). congruence.
Qed.

Lemma filesystem_no_engine (t : list event) (e : event) :
  Forall (fun e => party_of (ev_call e) = Filesystem) t ->
  In e t -> party_of (ev_call e) = DockerEngine -> False.
Proof.
  intros Hfs He Hp. rewrite Forall_forall in Hfs.
  apply list_elem_of_In in He. specialize (Hfs e He). congruence.
Qed.

(** Splitting what is known of a trace event by event. *)
Ltac trace_cases :=
  repeat match goal with
         | H : _ \/ _ |- _ => destruct H as [H|H]
         | H : False |- _ => destruct H
         | H : None = Some _ |- _ => discriminate H
         | H : Some _ = Some _ |- _ => injection H as H; try subst
         | H : Ok _ = Ok _ |- _ => injection H as H; try subst
         | H : Ok _ = Err _ |- _ => discriminate H
         | H : Err _ = Ok _ |- _ => discriminate H
         | H : In (Some _) (map listing_of ?t),
           F : Forall (fun e => party_of (ev_call e) = Filesystem) ?t |- _ =>
             destruct (filesystem_no_listing t _ F H)
         | H : In ?e ?t, G : party_of (ev_call ?e) = DockerEngine,
           F : Forall (fun e => party_of (ev_call e) = Filesystem) ?t |- _ =>
             destruct (filesystem_no_engine t e F H G)
         | H : @eq event _ ?e, G : party_of (ev_call ?e) = DockerEngine |- _ =>
             subst e; simpl in G; try discriminate G
         end.

Ltac norm_in H :=
  repeat (progress (simpl in H; rewrite ?map_app, ?in_app_iff, ?app_nil_r in H)).

Ltac norm_goal :=
  repeat (progress (simpl; rewrite ?map_app, ?in_app_iff, ?app_nil_r)).

(** The cases of an event, or of an answer, being somewhere in a trace. *)
Ltac in_cases H :=
  norm_in H;
  repeat match type of H with
         | _ \/ _ => destruct H as [H|H]
         end;
  try (match type of H with False => destruct H end);
  try (match type of H with None = Some _ => discriminate H end);
  try (match type of H with @eq event _ ?e => subst e end).

Ltac forall_events :=
  repeat first [ apply Forall_nil_2 | apply Forall_cons_2 | apply Forall_app_2 ].

(** *** The build *)
Section BuildRuns.

Variable X : Externals.

Lemma BuildDockerfile_post_Ok (c : DockerfileConfig) (t : list event) (buf : string) :
  BuildDockerfile_post X c t (Val (Ok buf)) ->
  Forall (fun e => party_of (ev_call e) = Filesystem) t /\
  recognized (df_Builder c) = true /\
  In (Some (entrypoint_path X c, true)) (map stat_of t).
Proof.
  intros (_ & Hfs & Hk). split; [exact Hfs|].
  destruct (recognized (df_Builder c)).
  - split; [reflexivity|]. destruct Hk as [Hin|[Hr _]]; [exact Hin | discriminate].
  - destruct Hk as [_ Hr]; discriminate.
Qed.

Lemma Build_call_filesystem (b : Builder) (a : RegistryAuth) (tag : string) (e : event) :
  party_of (ev_call e) = Filesystem -> Build_call b a tag e.
Proof.
  unfold Build_call. destruct e as [[] x]; simpl; intros H; try discriminate; auto.
Qed.

Ltac build_leaf :=
  unfold Build_post; cbv zeta;
  split; [eauto|];
  split; [forall_events;
          try (eapply Forall_impl; [eassumption | intros; apply Build_call_filesystem; assumption]);
          unfold Build_call; simpl; auto |];
  split; [let images := fresh "images" in let H := fresh "Hin" in
          intros images H; norm_in H;
          trace_cases;
          try match goal with E : find_tag _ _ = _ |- _ => rewrite E end;
          try reflexivity |];
  split; [let out := fresh "out" in let H := fresh "Hout" in
          intros out H; try discriminate H;
          eexists; norm_goal; eauto 20 |];
  let e := fresh "e" in let H := fresh "Hin" in let G := fresh "Hparty" in
  intros e H G; norm_in H; norm_goal;
  trace_cases; try discriminate; auto 20.

Lemma Build_always (b : Builder) (a : RegistryAuth) (taskID sid version : string) :
  auth b = Some a ->
  sanitizeTaskID (lowerTable X) taskID = Val sid ->
  always (Build_post X b a sid version) (Build X b taskID version).
Proof.
  intros Ha Hs. unfold Build. rewrite Ha, Hs.
  unfold authconfigs, registryAuth. rewrite Ha.
  prog_step. prog_step.
  2: { prog_simpl. build_leaf. }
  apply always_defer. apply always_bind.
  eapply always_mono; [|apply BuildDockerfile_always].
  intros t r Hdf. destruct r as [[buf|e]|q].
  3: { destruct Hdf as [[v Hv] _]. discriminate Hv. }
  2: { destruct Hdf as (_ & Hfs & _). prog_simpl. intros u. build_leaf. }
  apply BuildDockerfile_post_Ok in Hdf. destruct Hdf as (Hfs & Hrec & Hentry).
  simpl in Hrec, Hentry.
  repeat prog_step.
  all: build_leaf.
Qed.

End BuildRuns.


(** *** The search through the image listing *)

Lemma find_eqb_Some (tag found : string) (tags : list string) :
  List.find (fun t => String.eqb t tag) tags = Some found ->
  found = tag /\ In tag tags.
Proof.
  intros H. apply find_some in H. destruct H as [Hin Heq].
  apply String.eqb_eq in Heq. subst found. split; [reflexivity | exact Hin].
Qed.

Lemma find_eqb_None (tag : string) (tags : list string) :
  List.find (fun t => String.eqb t tag) tags = None -> ~ In tag tags.
Proof.
  intros H Hin. pose proof (find_none _ _ H tag Hin) as Hn.
  simpl in Hn. rewrite String.eqb_refl in Hn. discriminate.
Qed.

Lemma find_tag_Some (tag found : string) (images : list ImageSummary) :
  find_tag tag images = Some found ->
  found = tag /\ exists img, In img images /\ In tag (RepoTags img).
Proof.
  induction images as [|img rest IH]; simpl; [discriminate|].
  destruct (List.find _ (RepoTags img)) as [t|] eqn:Hf.
  - intros [= <-]. apply find_eqb_Some in Hf. destruct Hf as [-> Hin].
    split; [reflexivity|]. exists img. auto.
  - intros H. destruct (IH H) as [-> (img' & Hin & Ht)].
    split; [reflexivity|]. exists img'. auto.
Qed.

Lemma find_tag_None (tag : string) (images : list ImageSummary) :
  find_tag tag images = None <->
  (forall img, In img images -> ~ In tag (RepoTags img)).
Proof.
  induction images as [|img rest IH]; simpl.
  - split; [intros _ img [] | reflexivity].
  - destruct (List.find _ (RepoTags img)) as [t|] eqn:Hf.
    + split; [discriminate|]. intros H. apply find_eqb_Some in Hf.
      destruct Hf as [_ Hin]. destruct (H img (or_introl eq_refl) Hin).
    + rewrite IH. apply find_eqb_None in Hf. split.
      * intros H img' [<-|Hin]; auto.
      * intros H img' Hin. apply H. right. exact Hin.
Qed.

Lemma image_tag_spelled (repo sid version : string) :
  image_tag repo sid version = repo +:+ "/task-" +:+ sid +:+ ":" +:+ version.
Proof. reflexivity. Qed.

(** *** Runs of [Build] *)

Lemma Build_run_post {W : Type} (X : Externals) (h : handler W) (w : W)
      (b : Builder) (a : RegistryAuth) (taskID sid version : string) :
  auth b = Some a ->
  sanitizeTaskID (lowerTable X) taskID = Val sid ->
  Build_post X b a sid version
             (trace_of (run h (Build X b taskID version) w))
             (outcome_of (run h (Build X b taskID version) w)).
Proof.
  intros Ha Hs. apply run_always. apply Build_always; assumption.
Qed.

(** A build that cannot start makes no call. *)
Lemma Build_run_refused {W : Type} (X : Externals) (h : handler W) (w : W)
      (b : Builder) (taskID version : string) :
  (auth b = None \/ exists q, sanitizeTaskID (lowerTable X) taskID = Panics q) ->
  trace_of (run h (Build X b taskID version) w) = [] /\
  exists q, outcome_of (run h (Build X b taskID version) w) = Panics q.
Proof.
  unfold Build. intros [Ha|[q Hq]].
  - rewrite Ha. simpl. eauto.
  - destruct (auth b); [rewrite Hq|]; simpl; eauto.
Qed.

(** The sanitizer looks at the last byte, not at the last character: an ID
    that ends in the Arabic-Indic digit three (bytes D9 A3) is returned as
    it is. *)
Example sanitizeTaskID_reads_last_byte :
  sanitizeTaskID (fun r => r) (String "x" (String (Zbyte 0xD9) (String (Zbyte 0xA3) "")))
  = Val (String "x" (String (Zbyte 0xD9) (String (Zbyte 0xA3) ""))).
Proof. vm_compute. reflexivity. Qed.

(** The pipeline on the sample project: the image is built, found in the
    listing under the composed tag, and pushed. *)
Example Local_sample_run :
  outcome_of (run (sample_handler true)
                  (Local sampleX {| DefinitionRootPath := "/app" |}
                         sample_definition "Task123") sample_world) = Val None /\
  omap push_request
       (trace_of (run (sample_handler true)
                      (Local sampleX {| DefinitionRootPath := "/app" |}
                             sample_definition "Task123") sample_world))
  = [(DockerClient 0, "gcr.io/airplane/task-task12a:latest",
      {| RegistryAuth_ := "oauth2accesstoken:tok" |})].
Proof. vm_compute. split; reflexivity. Qed.

(** C2 (the code at the empty ID).  [sanitizeTaskID] on the empty task ID
    indexes position -1 of the empty string: it panics with an index out of
    range and returns no error value. *)
Theorem sanitizeTaskID_empty_panics (lowerTable : Z -> Z) :
  sanitizeTaskID lowerTable "" = Panics (IndexOutOfRange (-1) 0).
Proof. reflexivity. Qed.



(** C10. Whatever the builder, its [Args], the task ID and the version, the
    build arguments of every build request that [Build] submits are the
    empty map; the whole request is fixed by the registry auth, the task ID
    and the version, and the [Args] are handed to [BuildDockerfile] only. *)
Theorem Build_request_has_no_build_args {W : Type} (X : Externals) (h : handler W)
        (w : W) (b : Builder) (taskID version : string) :
  Forall (fun e => forall cl bc opts,
            build_request e = Some (cl, bc, opts) ->
            BuildArgs opts = ∅ /\
            exists a sid,
              auth b = Some a /\
              sanitizeTaskID (lowerTable X) taskID = Val sid /\
              opts = build_options a (image_tag (Repo a) sid version))
         (trace_of (run h (Build X b taskID version) w)).
Proof.
  destruct (auth b) as [a|] eqn:Ha.
  2: { destruct (Build_run_refused X h w b taskID version) as [-> _]; [auto|constructor]. }
  destruct (sanitizeTaskID (lowerTable X) taskID) as [sid|q] eqn:Hs.
  2: { destruct (Build_run_refused X h w b taskID version) as [-> _]; [eauto|constructor]. }
  destruct (Build_run_post X h w b a taskID sid version Ha Hs) as (_ & Hcalls & _).
  eapply Forall_impl; [exact Hcalls|].
  intros e He cl bc opts Hreq. unfold Build_call in He. unfold build_request in Hreq.
  destruct (ev_call e); try discriminate.
  injection Hreq as -> -> ->. destruct He as [_ ->].
  split; [reflexivity|]. exists a, sid. auto.
Qed.

(** *** Construction, push and the build environment *)
Section Pipeline.

Variable X : Externals.

Lemma New_always (c : Config) : always (New_post X c) (New X c).
Proof.
  unfold New, New_post.
  destruct (filepath_IsAbs X (Root c)) eqn:Habs; simpl negb; cbv iota.
  2: { simpl. split; [eauto|]. split; [constructor|].
       split; [eauto | discriminate]. }
  destruct (Auth c) as [a|] eqn:Ha.
  2: { simpl. split; [eauto|]. split; [constructor|].
       split; [eauto | discriminate]. }
  repeat prog_step.
  - split; [eauto|]. split; [repeat constructor|].
    split; [intros [Hx|Hx]; discriminate|].
    intros b' [= <-]. simpl.
    repeat split; try reflexivity; try discriminate;
      [destruct (Args_ c) | destruct (Writer_ c)]; reflexivity.
  - split; [eauto|]. split; [repeat constructor|].
    split; [intros [Hx|Hx]; discriminate | discriminate].
Qed.

Lemma Push_always (b : Builder) (a : RegistryAuth) (tag : string) :
  auth b = Some a ->
  always (Push_post X b a tag) (Push X b tag).
Proof.
  intros Ha. unfold Push, Push_post, registryAuth. rewrite Ha.
  fold (token_credential (Token a)).
  repeat prog_step;
    (split; [eauto|]; forall_events; unfold Push_call; simpl; eauto 10).
Qed.

Lemma resolved_extend (t0 t : list event) (before m : gmap string string)
      (k : string) (v : EnvVarValue) :
  resolved X t before m k v -> resolved X (t0 ++ t) before m k v.
Proof.
  unfold resolved. destruct (Value v); [auto|].
  destruct (ConfigRef v); [|auto].
  intros (nt & res & Hp & Hin & Hm). exists nt, res.
  rewrite map_app, in_app_iff. auto.
Qed.

Lemma getBuildEnv_loop_always (entries : list (string * EnvVarValue))
      (before : gmap string string) :
  NoDup (map fst entries) ->
  always (getBuildEnv_post X entries before) (getBuildEnv_loop X entries before).
Proof.
  revert before. induction entries as [|[k v] rest IH]; intros before Hnd.
  - simpl. unfold getBuildEnv_post.
    split; [eauto|]. split; [constructor|]. split; [intros req err []|].
    intros m [= <-]. split; [intros k v [] | reflexivity].
  - simpl in Hnd. apply NoDup_cons in Hnd. destruct Hnd as [Hk Hnd].
    rewrite list_elem_of_In in Hk.
    cbn [getBuildEnv_loop].
    destruct (Value v) as [literal|] eqn:Hval.
    { eapply always_mono; [|apply (IH (<[k:=literal]> before) Hnd)].
      intros t r (Hv & Hsec & Hfail & Hok).
      split; [exact Hv|]. split; [exact Hsec|]. split; [exact Hfail|].
      intros m Hm. destruct (Hok m Hm) as [Hres Hrest]. split.
      - intros k' v' [[= <- <-]|Hin].
        + unfold resolved. rewrite Hval, (Hrest k Hk). apply lookup_insert_eq.
        + specialize (Hres k' v' Hin). unfold resolved in *.
          assert (k <> k').
          { intros <-. apply Hk. apply in_map_iff. exists (k, v'). auto. }
          destruct (Value v'); [exact Hres|].
          destruct (ConfigRef v'); [exact Hres|].
          rewrite Hres. apply lookup_insert_ne. assumption.
      - intros k' Hk'. simpl in Hk'.
        rewrite (Hrest k') by tauto. apply lookup_insert_ne. tauto. }
    destruct (ConfigRef v) as [config|] eqn:Href.
    2: { eapply always_mono; [|apply (IH before Hnd)].
      intros t r (Hv & Hsec & Hfail & Hok).
      split; [exact Hv|]. split; [exact Hsec|]. split; [exact Hfail|].
      intros m Hm. destruct (Hok m Hm) as [Hres Hrest]. split.
      - intros k' v' [[= <- <-]|Hin].
        + unfold resolved. rewrite Hval, Href. apply Hrest. exact Hk.
        + apply Hres. exact Hin.
      - intros k' Hk'. simpl in Hk'. apply Hrest. tauto. }
    destruct (configs_ParseName X config) as [nt|e] eqn:Hparse.
    2: { simpl. unfold getBuildEnv_post.
      split; [eauto|]. split; [constructor|]. split; [intros req err []|].
      discriminate. }
    prog_simpl. intros [res|e].
    + fold (config_request nt).
      eapply always_mono; [|apply (IH (<[k:=cfg_Value (Config_ res)]> before) Hnd)].
      intros t r (Hv & Hsec & Hfail & Hok).
      split; [exact Hv|]. split.
      { constructor; [|exact Hsec]. exists (config_request nt). auto. }
      split.
      { intros req err [Hin|Hin]; [discriminate|].
        destruct (Hfail req err Hin) as [Hr (t0 & -> & Ht0)].
        split; [exact Hr|].
        exists (Event (GetConfig (config_request nt)) (Ok res) :: t0).
        split; [reflexivity|]. constructor; [|exact Ht0].
        intros (req' & err' & Hc). discriminate. }
      intros m Hm. destruct (Hok m Hm) as [Hres Hrest]. split.
      * intros k' v' [[= <- <-]|Hin].
        -- unfold resolved. rewrite Hval, Href. exists nt, res.
           split; [exact Hparse|]. split; [left; reflexivity|].
           rewrite (Hrest k Hk). apply lookup_insert_eq.
        -- specialize (Hres k' v' Hin).
           apply (resolved_extend [Event (GetConfig (config_request nt)) (Ok res)]).
           unfold resolved in *.
           assert (k <> k').
           { intros <-. apply Hk. apply in_map_iff. exists (k, v'). auto. }
           destruct (Value v'); [exact Hres|].
           destruct (ConfigRef v'); [exact Hres|].
           rewrite Hres. apply lookup_insert_ne. assumption.
      * intros k' Hk'. simpl in Hk'.
        rewrite (Hrest k') by tauto. apply lookup_insert_ne. tauto.
    + fold (config_request nt). simpl. unfold getBuildEnv_post.
      split; [eauto|]. split.
      { repeat constructor. exists (config_request nt). auto. }
      split.
      { intros req err [[= <- <-]|[]]. split; [reflexivity|].
        exists []. split; [reflexivity | constructor]. }
      intros m [=].
Qed.

Lemma secret_is_api (t : list event) :
  Forall (reveals_secret) t -> Forall (fun e => party_of (ev_call e) = AirplaneAPI) t.
Proof.
  intros H. eapply Forall_impl; [exact H|].
  intros [c x] (req & Hc & _). simpl in Hc. subst c. reflexivity.
Qed.

Lemma api_no_listing (t : list event) x :
  Forall (fun e => party_of (ev_call e) = AirplaneAPI) t ->
  In (Some x) (map listing_of t) -> False.
Proof.
  intros Hfs Hin. apply in_map_Some in Hin. destruct Hin as (e & He & Hl).
  apply listing_of_party in Hl. rewrite Forall_forall in Hfs.
  apply list_elem_of_In in He. specialize (Hfs e He). congruence.
Qed.

Lemma secret_no_token (t : list event) x :
  Forall reveals_secret t -> In (Some x) (map token_of t) -> False.
Proof.
  intros Hs Hin. apply in_map_Some in Hin. destruct Hin as ([c y] & He & Hl).
  rewrite Forall_forall in Hs. apply list_elem_of_In in He.
  destruct (Hs _ He) as (req & Hc & _). simpl in Hc. subst c. discriminate.
Qed.

Lemma api_not_other (t : list event) (e : event) :
  Forall (fun e => party_of (ev_call e) = AirplaneAPI) t ->
  In e t -> party_of (ev_call e) <> AirplaneAPI -> False.
Proof.
  intros Hfs He Hp. rewrite Forall_forall in Hfs.
  apply list_elem_of_In in He. auto.
Qed.

Lemma api_not_engine (t : list event) (e : event) :
  Forall (fun e => party_of (ev_call e) = AirplaneAPI) t ->
  In e t -> party_of (ev_call e) = DockerEngine -> False.
Proof.
  intros Hfs He Hp. rewrite Forall_forall in Hfs.
  apply list_elem_of_In in He. specialize (Hfs e He). congruence.
Qed.

Lemma Build_call_not_api (b : Builder) (a : RegistryAuth) (tag : string) (e : event) :
  Build_call b a tag e -> party_of (ev_call e) <> AirplaneAPI.
Proof.
  unfold Build_call. destruct e as [[] x]; simpl; intros H; try discriminate;
    try (destruct H as [H|[H|H]]; discriminate).
Qed.

Lemma build_no_token (b : Builder) (a : RegistryAuth) (tag : string)
      (t : list event) x :
  Forall (Build_call b a tag) t -> In (Some x) (map token_of t) -> False.
Proof.
  intros Hb Hin. apply in_map_Some in Hin. destruct Hin as (e & He & Hl).
  apply token_of_party in Hl. rewrite Forall_forall in Hb.
  apply list_elem_of_In in He. apply (Build_call_not_api _ _ _ _ (Hb e He) Hl).
Qed.

Lemma build_no_config (b : Builder) (a : RegistryAuth) (tag : string)
      (t : list event) x :
  Forall (Build_call b a tag) t -> In (Some x) (map config_of t) -> False.
Proof.
  intros Hb Hin. apply in_map_Some in Hin. destruct Hin as (e & He & Hl).
  apply config_of_party in Hl. rewrite Forall_forall in Hb.
  apply list_elem_of_In in He. apply (Build_call_not_api _ _ _ _ (Hb e He) Hl).
Qed.

Lemma build_not_failed (b : Builder) (a : RegistryAuth) (tag : string)
      (t : list event) :
  Forall (Build_call b a tag) t -> Forall (fun e => ~ config_failed e) t.
Proof.
  intros Hb. eapply Forall_impl; [exact Hb|].
  intros e He (req & err & Hc). apply config_of_party in Hc.
  apply (Build_call_not_api _ _ _ _ He Hc).
Qed.

Lemma build_no_push (b : Builder) (a : RegistryAuth) (tag : string)
      (t : list event) (e : event) x :
  Forall (Build_call b a tag) t -> In e t -> push_request e = Some x -> False.
Proof.
  intros Hb He Hp. rewrite Forall_forall in Hb. apply list_elem_of_In in He.
  specialize (Hb e He). unfold Build_call in Hb. unfold push_request in Hp.
  destruct (ev_call e); try discriminate. exact Hb.
Qed.

Lemma build_request_options (b : Builder) (a : RegistryAuth) (tag : string)
      (t : list event) (e : event) cl bc opts :
  Forall (Build_call b a tag) t -> In e t ->
  build_request e = Some (cl, bc, opts) -> opts = build_options a tag.
Proof.
  intros Hb He Hp. rewrite Forall_forall in Hb. apply list_elem_of_In in He.
  specialize (Hb e He). unfold Build_call in Hb. unfold build_request in Hp.
  destruct (ev_call e); try discriminate.
  injection Hp as -> -> ->. destruct Hb as [_ ->]. reflexivity.
Qed.

Lemma reference_resolved_mono (t1 t2 : list event) (v : EnvVarValue) :
  (forall x, In x (map config_of t1) -> In x (map config_of t2)) ->
  reference_resolved X t1 v -> reference_resolved X t2 v.
Proof.
  intros Hsub H config Hv Hc. destruct (H config Hv Hc) as (nt & res & Hp & Hin).
  exists nt, res. auto.
Qed.

Lemma resolved_reference (t : list event) (before m : gmap string string)
      (k : string) (v : EnvVarValue) :
  resolved X t before m k v -> reference_resolved X t v.
Proof.
  unfold resolved. intros H config Hv Hc. rewrite Hv, Hc in H.
  destruct H as (nt & res & Hp & Hin & _). eauto.
Qed.

(** What a successful [Build] tells: the output carries the composed tag,
    and every listing of the trace has an image with that tag. *)
Lemma Build_post_Ok (b : Builder) (a : RegistryAuth) (sid version : string)
      (t : list event) (bo : BuildOutput) :
  Build_post X b a sid version t (Val (Ok bo)) ->
  Tag bo = image_tag (Repo a) sid version /\
  (exists images, In (Some (Ok images)) (map listing_of t)) /\
  (forall images, In (Some (Ok images)) (map listing_of t) ->
     exists img, In img images /\ In (image_tag (Repo a) sid version) (RepoTags img)).
Proof.
  intros (_ & _ & Hlist & Hok & _).
  assert (Hfound : forall images, In (Some (Ok images)) (map listing_of t) ->
            exists found, find_tag (image_tag (Repo a) sid version) images = Some found
                          /\ bo = {| Tag := found |}).
  { intros images Hin. specialize (Hlist images Hin).
    destruct (find_tag _ images) as [found|]; [|discriminate].
    injection Hlist as ->. eauto. }
  destruct (Hok bo eq_refl) as [images Hin]. split; [|split].
  - destruct (Hfound images Hin) as (found & Hf & ->).
    apply find_tag_Some in Hf. destruct Hf as [-> _]. reflexivity.
  - eauto.
  - intros images' Hin'. destruct (Hfound images' Hin') as (found & Hf & _).
    apply find_tag_Some in Hf. destruct Hf as [_ Himg]. exact Himg.
Qed.

Lemma nofail_no_err (t : list event) req err :
  Forall (fun e => ~ config_failed e) t ->
  In (Some (req, Err err)) (map config_of t) -> False.
Proof.
  intros Hn Hin. apply in_map_Some in Hin. destruct Hin as (e & He & Hc).
  rewrite Forall_forall in Hn. apply list_elem_of_In in He.
  apply (Hn e He). exists req, err. exact Hc.
Qed.

(** The clauses of [Local_post] at a leaf reached after the environment was
    resolved. *)
Ltac local_root :=
  let H := fresh "Hroot" in
  intros H; first [ congruence | split; [forall_events; auto | eauto] ].

Ltac local_resolution Href Hnofail :=
  intros ? _ _; split;
  [ forall_events;
    first [ exact Hnofail
          | eapply build_not_failed; eassumption
          | let H := fresh in intros (? & ? & H); simpl in H; discriminate H ]
  | let k := fresh "k" in let v := fresh "v" in let Hkv := fresh "Hkv" in
    intros k v Hkv; eapply reference_resolved_mono; [|apply (Href k v Hkv)];
    intros ? ?; norm_goal; auto 10 ].

Ltac local_failure Hnofail :=
  let req := fresh "req" in let err := fresh "err" in let H := fresh "Hin" in
  intros req err H; in_cases H; try discriminate H;
  first [ destruct (nofail_no_err _ _ _ Hnofail H)
        | exfalso; eapply build_no_config; eassumption ].

Ltac local_no_engine Hapi :=
  let e := fresh "e" in let H := fresh "Hin" in let G := fresh "Hparty" in
  intros e H G; in_cases H; try discriminate G;
  destruct (api_not_engine _ _ Hapi H G).

(** An engine request found in the trace of the build, at a leaf of
    [Local]. *)
Ltac engine_in_build registry sid Hs HBcalls HBlist Hin :=
  exists registry, sid; split; [norm_goal; auto|]; split; [exact Hs|];
  cbv zeta; split; [|split];
  [ intros ? ? ? ?; eapply build_request_options; [exact HBcalls | exact Hin | eassumption]
  | let images := fresh "images" in let Hl := fresh "Hl" in let Hf := fresh "Hf" in
    let Hm := fresh "Hm" in
    intros images Hl Hf;
    assert (Hm : In (Some (Ok images)) (map listing_of _))
      by (apply in_map_iff; eexists; split; [exact Hl | exact Hin]);
    specialize (HBlist images Hm); rewrite Hf in HBlist;
    first [ discriminate HBlist | injection HBlist as ->; reflexivity ]
  | let Hp := fresh "Hp" in
    intros ? ? ? Hp; destruct (build_no_push _ _ _ _ _ _ HBcalls Hin Hp) ].

(** The push request, at a leaf of [Local]. *)
Ltac engine_push registry sid Hs Htag Hjson Hlisted Hlisting Hapi :=
  exists registry, sid; split; [norm_goal; auto|]; split; [exact Hs|];
  cbv zeta; split; [|split];
  [ let H := fresh in intros ? ? ? H; discriminate H
  | let H := fresh in intros ? H; discriminate H
  | let Hp := fresh "Hp" in
    intros ? ? ? Hp; unfold push_request in Hp; simpl in Hp;
    injection Hp as <- <- <-;
    split; [exact Htag|];
    split; [eexists; split; [exact Hjson | reflexivity]|];
    split;
    [ let images := fresh "images" in let Hl := fresh "Hl" in
      destruct Hlisted as [images Hl]; exists images; norm_goal; auto 10
    | let images := fresh "images" in let Hl := fresh "Hl" in
      intros images Hl; in_cases Hl;
      [ destruct (api_no_listing _ _ Hapi Hl) | apply Hlisting; exact Hl ] ] ].

Lemma Forall_middle {A : Type} (P : A -> Prop) (x y : A) (l1 l2 : list A) :
  Forall P (x :: l1 ++ y :: l2) -> P y.
Proof.
  intros H. apply Forall_cons in H. destruct H as [_ H].
  apply Forall_app in H. destruct H as [_ H].
  apply Forall_cons in H. tauto.
Qed.

(** The two closing clauses of [Local_post] at a leaf. *)
Ltac local_token Hsec :=
  let x := fresh "x" in let y := fresh "y" in
  let Hx := fresh "Hx" in let Hy := fresh "Hy" in
  intros x y Hx Hy; in_cases Hx;
  try (destruct (secret_no_token _ _ Hsec Hx));
  try (exfalso; eapply build_no_token; eassumption);
  in_cases Hy;
  try (destruct (secret_no_token _ _ Hsec Hy));
  try (exfalso; eapply build_no_token; eassumption);
  congruence.

Ltac local_stopped :=
  let H := fresh "Hstop" in
  intros H; first [ solve [eauto] | apply Forall_middle in H; discriminate H ].

Lemma Local_always (dir : TaskDirectory) (def : Definition_) (taskID : string) :
  range_TaskEnv X (Env def) ≡ₚ map_to_list (Env def) ->
  always (Local_post X dir def taskID) (Local X dir def taskID).
Proof.
  intros Hrange.
  assert (Hnd : NoDup (map fst (range_TaskEnv X (Env def)))).
  { change (map fst ?l) with (fst <$> l). rewrite Hrange.
    apply NoDup_fst_map_to_list. }
  unfold Local. prog_simpl. intros [registry|e0].
  2: { prog_simpl. unfold Local_post.
       split; [intros _; split; [repeat constructor | eauto]|].
       split; [intros e [<-|[]] Hp; destruct Hp; reflexivity|].
       split; [intros req err [Hc|[]]; discriminate|].
       split; [intros e [<-|[]] Hp; discriminate|].
       split; [intros x y [Hx|[]] [Hy|[]]; congruence | eauto]. }
  unfold getBuildEnv. apply always_bind.
  eapply always_mono; [|apply (getBuildEnv_loop_always _ ∅ Hnd)].
  intros tenv renv (Hv & Hsec & Hfail & Hok).
  pose proof (secret_is_api _ Hsec) as Hapi.
  destruct renv as [[buildEnv|e1]|q]; [| |destruct Hv; discriminate].
  2: { prog_simpl. unfold Local_post.
       split; [intros _; split; [forall_events; auto | eauto]|].
       split.
       { intros e Hin Hp. in_cases Hin.
         - destruct Hp; reflexivity.
         - destruct (api_not_other _ _ Hapi Hin Hp). }
       split.
       { intros req err Hin. in_cases Hin.
         destruct (Hfail req err Hin) as [[= ->] _]. reflexivity. }
       split.
       { intros e Hin Hp. in_cases Hin; [discriminate|].
         destruct (api_not_engine _ _ Hapi Hin Hp). }
       split; [local_token Hsec | eauto]. }
  assert (Hnofail : Forall (fun e => ~ config_failed e) tenv).
  { apply Forall_forall. intros [c x] Hin (req & err & Hc).
    apply list_elem_of_In in Hin.
    assert (Hin' : In (Some (req, Err err)) (map config_of tenv)).
    { apply in_map_iff. eauto. }
    destruct (Hfail req err Hin') as [[=] _]. }
  assert (Href : forall k v, Env def !! k = Some v -> reference_resolved X tenv v).
  { intros k v Hkv. destruct (Hok buildEnv eq_refl) as [Hres _].
    eapply resolved_reference. apply (Hres k v).
    apply list_elem_of_In. rewrite Hrange. apply elem_of_map_to_list. exact Hkv. }
  clear Hv Hfail Hok.
  prog_simpl.
  destruct (GetKindAndOptions def) as [[kind options]|e2].
  2: { prog_simpl. unfold Local_post.
       split; [local_root|]. split; [local_resolution Href Hnofail|].
       split; [local_failure Hnofail |]. split; [local_no_engine Hapi|].
       split; [local_token Hsec | local_stopped]. }
  unfold New. cbn [Root Auth Builder_ Args_ Writer_].
  destruct (filepath_IsAbs X (DefinitionRootPath dir)) eqn:Habs; simpl negb; cbv iota.
  2: { prog_simpl. unfold Local_post.
       split; [local_root|]. split; [local_resolution Href Hnofail|].
       split; [local_failure Hnofail |]. split; [local_no_engine Hapi|].
       split; [local_token Hsec | local_stopped]. }
  prog_simpl. intros [cl|e3].
  2: { prog_simpl. unfold Local_post.
       split; [local_root|]. split; [local_resolution Href Hnofail|].
       split; [local_failure Hnofail |]. split; [local_no_engine Hapi|].
       split; [local_token Hsec | local_stopped]. }
  prog_simpl. intros [].
  match goal with
  | |- context [Build X ?b0 _ _] => set (b := b0)
  end.
  set (a := {| Token := rt_Token registry; Repo := rt_Repo registry |}).
  destruct (sanitizeTaskID (lowerTable X) taskID) as [sid|q] eqn:Hs.
  2: { unfold Build. cbn [auth b]. rewrite Hs. prog_simpl. unfold Local_post.
       split; [local_root|]. split; [local_resolution Href Hnofail|].
       split; [local_failure Hnofail |]. split; [local_no_engine Hapi|].
       split; [local_token Hsec | local_stopped]. }
  apply always_bind.
  eapply always_mono; [|apply (Build_always X b a taskID sid "latest" eq_refl Hs)].
  intros tB rB HB.
  destruct rB as [[bo|e4]|q]; [| |destruct HB as [[v Hv] _]; discriminate Hv].
  2: { destruct HB as (_ & HBcalls & HBlist & _).
       subst a. cbn [Repo] in HBcalls, HBlist.
       prog_simpl. unfold Local_post.
       split; [local_root|]. split; [local_resolution Href Hnofail|].
       split; [local_failure Hnofail |].
       split; [|split; [local_token Hsec | local_stopped]].
       intros e Hin Hparty. in_cases Hin; try discriminate Hparty.
       - destruct (api_not_engine _ _ Hapi Hin Hparty).
       - engine_in_build registry sid Hs HBcalls HBlist Hin. }
  destruct (Build_post_Ok _ _ _ _ _ _ HB) as (Htag & Hlisted & Hlisting).
  destruct HB as (_ & HBcalls & HBlist & _).
  subst a. cbn [Repo] in HBcalls, HBlist, Htag, Hlisting.
  prog_simpl. intros [].
  unfold Push, registryAuth. cbn [auth b]. prog_simpl. cbn [Token].
  fold (token_credential (rt_Token registry)).
  destruct (json_Marshal X (token_credential (rt_Token registry))) as [authjson|e5] eqn:Hjson.
  2: { prog_simpl. unfold Local_post.
       split; [local_root|]. split; [local_resolution Href Hnofail|].
       split; [local_failure Hnofail |].
       split; [|split; [local_token Hsec | local_stopped]].
       intros e Hin Hparty. in_cases Hin; try discriminate Hparty.
       - destruct (api_not_engine _ _ Hapi Hin Hparty).
       - engine_in_build registry sid Hs HBcalls HBlist Hin. }
  repeat prog_step.
  all: unfold Local_post.
  all: (split; [local_root|]; split; [local_resolution Href Hnofail|];
        split; [local_failure Hnofail |];
        split; [|split; [local_token Hsec | local_stopped]]).
  all: intros ev Hin Hparty; in_cases Hin; try discriminate Hparty.
  all: try (destruct (api_not_engine _ _ Hapi Hin Hparty)).
  all: try (engine_in_build registry sid Hs HBcalls HBlist Hin).
  all: engine_push registry sid Hs Htag Hjson Hlisted Hlisting Hapi.
Qed.

End Pipeline.

(** *** Runs of [Local] *)

Lemma Local_run_post {W : Type} (X : Externals) (h : handler W) (w : W)
      (dir : TaskDirectory) (def : Definition_) (taskID : string) :
  range_TaskEnv X (Env def) ≡ₚ map_to_list (Env def) ->
  Local_post X dir def taskID
             (trace_of (run h (Local X dir def taskID) w))
             (outcome_of (run h (Local X dir def taskID) w)).
Proof.
  intros Hrange. apply run_always. apply Local_always. exact Hrange.
Qed.

Lemma party_eq_dec (p q : party) : {p = q} + {p <> q}.
Proof. decide equality. Qed.

Lemma Forall_or_not {A : Type} (P : A -> Prop) (l : list A) :
  (forall x, {P x} + {~ P x}) ->
  Forall P l \/ exists x, In x l /\ ~ P x.
Proof.
  intros Hdec. induction l as [|x l IH]; [left; constructor|].
  destruct (Hdec x) as [Hx|Hx].
  - destruct IH as [IH|(y & Hy & Hny)].
    + left. constructor; assumption.
    + right. exists y. split; [right; exact Hy | exact Hny].
  - right. exists x. split; [left; reflexivity | exact Hx].
Qed.

(** C4. When the image listing that [Build] obtains lacks the composed tag,
    [Build] fails with the image-not-found error, [Local] returns that
    error and no push request is in its trace; [Build] returns an output
    only with the composed tag, found in an image of the listing. *)
Theorem Build_verifies_before_push {W : Type} (X : Externals) (h : handler W) (w : W) :
  (forall b a taskID sid version,
     auth b = Some a ->
     sanitizeTaskID (lowerTable X) taskID = Val sid ->
     let tag := image_tag (Repo a) sid version in
     let t := trace_of (run h (Build X b taskID version) w) in
     let r := outcome_of (run h (Build X b taskID version) w) in
     (forall images,
        In (Some (Ok images)) (map listing_of t) ->
        (forall img, In img images -> ~ In tag (RepoTags img)) ->
        r = Val (Err (ImageNotFoundError tag))) /\
     (forall out,
        r = Val (Ok out) ->
        Tag out = tag /\
        exists images img,
          In (Some (Ok images)) (map listing_of t) /\
          In img images /\ In tag (RepoTags img)) /\
     Forall (fun e => push_request e = None) t) /\
  (forall dir def taskID registry sid images,
     range_TaskEnv X (Env def) ≡ₚ map_to_list (Env def) ->
     let tag := image_tag (rt_Repo registry) sid "latest" in
     let t := trace_of (run h (Local X dir def taskID) w) in
     let r := outcome_of (run h (Local X dir def taskID) w) in
     In (Some (Ok registry)) (map token_of t) ->
     sanitizeTaskID (lowerTable X) taskID = Val sid ->
     In (Some (Ok images)) (map listing_of t) ->
     (forall img, In img images -> ~ In tag (RepoTags img)) ->
     r = Val (Some (Wrapf (ImageNotFoundError tag) "build" [])) /\
     Forall (fun e => push_request e = None) t).
Proof.
  split.
  - intros b a taskID sid version Ha Hs tag t r.
    pose proof (Build_run_post X h w b a taskID sid version Ha Hs) as HB.
    fold t r in HB.
    assert (HOk : forall out, r = Val (Ok out) ->
              Build_post X b a sid version t (Val (Ok out))).
    { intros out <-. exact HB. }
    destruct HB as (Hv & Hcalls & Hlist & Hok & _).
    split; [|split].
    + intros images Hin Habsent. rewrite (Hlist images Hin).
      apply find_tag_None in Habsent. fold tag. rewrite Habsent. reflexivity.
    + intros out Hout.
      destruct (Build_post_Ok X b a sid version t out (HOk out Hout))
        as (Htag & [images Hin] & Himg).
      split; [exact Htag|]. destruct (Himg images Hin) as (img & Hi & Ht).
      exists images, img. auto.
    + eapply Forall_impl; [exact Hcalls|].
      intros e He. unfold Build_call in He. unfold push_request.
      destruct (ev_call e); try reflexivity. destruct He.
  - intros dir def taskID registry sid images Hrange tag t r Htok Hs Hin Habsent.
    pose proof (Local_run_post X h w dir def taskID Hrange) as HL.
    fold t r in HL.
    destruct HL as (_ & _ & _ & Hengine & Honce & _).
    assert (Hcomposed : forall e, In e t -> party_of (ev_call e) = DockerEngine ->
              (forall images0, listing_of e = Some (Ok images0) ->
                 find_tag tag images0 = None ->
                 r = Val (Some (Wrapf (ImageNotFoundError tag) "build" []))) /\
              (forall cl pushed opts, push_request e = Some (cl, pushed, opts) ->
                 forall images0, In (Some (Ok images0)) (map listing_of t) ->
                 exists img, In img images0 /\ In tag (RepoTags img))).
    { intros e He Hp.
      destruct (Hengine e He Hp) as (registry' & sid' & Htok' & Hs' & _ & Hl & Hpush).
      assert (registry' = registry) as ->.
      { pose proof (Honce _ _ Htok' Htok) as Heq. congruence. }
      assert (sid' = sid) as -> by congruence.
      split; [exact Hl|].
      intros cl pushed opts Hreq. destruct (Hpush cl pushed opts Hreq) as (_ & _ & _ & Hall).
      exact Hall. }
    split.
    + apply in_map_Some in Hin. destruct Hin as (e & He & Hl).
      destruct (Hcomposed e He (listing_of_party _ _ Hl)) as [Hnot _].
      apply (Hnot images Hl). apply find_tag_None. exact Habsent.
    + apply Forall_forall. intros e He. apply list_elem_of_In in He.
      destruct (push_request e) as [[[cl pushed] opts]|] eqn:Hreq; [|reflexivity].
      exfalso.
      destruct (Hcomposed e He (push_request_party _ _ Hreq)) as [_ Hall].
      destruct (Hall cl pushed opts Hreq images Hin) as (img & Hi & Ht).
      exact (Habsent img Hi Ht).
Qed.

Lemma Build_verifies_before_push_witness :
  outcome_of (run (sample_handler false)
                  (Local sampleX {| DefinitionRootPath := "/app" |}
                         sample_definition "Task123") sample_world)
  = Val (Some (Wrapf (ImageNotFoundError "gcr.io/airplane/task-task12a:latest")
                     "build" [])) /\
  Forall (fun e => push_request e = None)
         (trace_of (run (sample_handler false)
                        (Local sampleX {| DefinitionRootPath := "/app" |}
                               sample_definition "Task123") sample_world)).
Proof.
  refine (proj2 (Build_verifies_before_push sampleX (sample_handler false) sample_world)
                {| DefinitionRootPath := "/app" |} sample_definition "Task123"
                {| rt_Token := "tok"; rt_Repo := "gcr.io/airplane" |} "task12a"
                [{| RepoTags := [] |}] _ _ _ _ _).
  - reflexivity.
  - vm_compute. left. reflexivity.
  - reflexivity.
  - vm_compute. auto 20.
  - intros img [<-|[]] [].
Defined.

(** C5. [New] fails, without making any call, for every root path that is
    not absolute and for every configuration without registry auth; a
    builder it returns has the name manual when none was configured, the
    empty map for a nil [Args] and the process error stream for a nil
    writer, and otherwise what was configured.  [Local] on a root that is
    not absolute stops before any call other than those to the API. *)
Theorem New_validates_and_defaults {W : Type} (X : Externals) (h : handler W) (w : W)
        (c : Config) :
  (filepath_IsAbs X (Root c) = false ->
   run h (New X c) w
   = (Val (Err (Errorf "build: expected an absolute path, got %q" [Root c])), [], w)) /\
  (Auth c = None -> exists e, run h (New X c) w = (Val (Err e), [], w)) /\
  (forall b,
     outcome_of (run h (New X c) w) = Val (Ok b) ->
     filepath_IsAbs X (Root c) = true /\ Auth c <> None /\
     root b = Root c /\ auth b = Auth c /\
     (Builder_ c = "" -> name b = "manual") /\
     (Builder_ c <> "" -> name b = Builder_ c) /\
     (Args_ c = None -> args b = Some ∅) /\
     (forall m, Args_ c = Some m -> args b = Some m) /\
     (Writer_ c = None -> writer b = Some Stderr) /\
     (forall wr, Writer_ c = Some wr -> writer b = Some wr)) /\
  (forall dir def taskID,
     range_TaskEnv X (Env def) ≡ₚ map_to_list (Env def) ->
     filepath_IsAbs X (DefinitionRootPath dir) = false ->
     Forall (fun e => party_of (ev_call e) = AirplaneAPI)
            (trace_of (run h (Local X dir def taskID) w)) /\
     exists e, outcome_of (run h (Local X dir def taskID) w) = Val (Some e)).
Proof.
  split; [|split; [|split]].
  - intros Habs. unfold New. rewrite Habs. reflexivity.
  - intros Ha. unfold New. rewrite Ha.
    destruct (negb (filepath_IsAbs X (Root c))); simpl; eauto.
  - intros b Hb.
    pose proof (run_always h (New X c) w _ (New_always X c)) as (_ & _ & _ & Hok).
    destruct (Hok b Hb) as (Habs & Hroot & Hname & Hargs & Hwriter & Hauth & Hsome).
    repeat split; try assumption.
    + intros He. rewrite Hname, He. reflexivity.
    + intros Hne. rewrite Hname.
      destruct (String.eqb_spec (Builder_ c) ""); [contradiction | reflexivity].
    + intros Hn. rewrite Hargs, Hn. reflexivity.
    + intros m Hm. rewrite Hargs, Hm. reflexivity.
    + intros Hn. rewrite Hwriter, Hn. reflexivity.
    + intros wr Hwr. rewrite Hwriter, Hwr. reflexivity.
  - intros dir def taskID Hrange Habs.
    destruct (Local_run_post X h w dir def taskID Hrange) as (Hroot & _).
    exact (Hroot Habs).
Qed.

Lemma New_validates_and_defaults_witness :
  run (sample_handler true)
      (New sampleX {| Kind := ""; Root := "app"; Builder_ := ""; Args_ := None;
              Auth := None; Writer_ := None; BuildEnv := ∅ |}) sample_world
  = (Val (Err (Errorf "build: expected an absolute path, got %q" ["app"])), [],
     sample_world).
Proof.
  exact (proj1 (New_validates_and_defaults sampleX (sample_handler true) sample_world
                  {| Kind := ""; Root := "app"; Builder_ := ""; Args_ := None;
                     Auth := None; Writer_ := None; BuildEnv := ∅ |}) eq_refl).
Defined.



(** C7. [BuildDockerfile] fails with the unsupported-builder error for every
    builder name outside go, deno, python, node and docker, and for each of
    these it fails with the missing-file error naming the entrypoint when
    the filesystem answers that the entrypoint does not exist under the root;
    in both cases no engine call is in the trace of [Build], which returns
    no output. *)
Theorem BuildDockerfile_fails_before_engine {W : Type} (X : Externals)
        (h : handler W) (w : W) (b : Builder) (taskID version : string) :
  let c := {| df_Builder := name b; df_Root := root b; df_Args := args b |} in
  let missing (t : list event) :=
    forall x, In (Some (entrypoint_path X c, x)) (map stat_of t) -> x = false in
  (recognized (name b) = false ->
   run h (BuildDockerfile X c) w
   = (Val (Err (UnsupportedBuilderError (name b))), [], w)) /\
  (recognized (name b) = true ->
   missing (trace_of (run h (BuildDockerfile X c) w)) ->
   outcome_of (run h (BuildDockerfile X c) w)
   = Val (Err (MissingFileError (path_Base X (entrypoint_path X c)))) /\
   trace_of (run h (BuildDockerfile X c) w)
   = [Event (Stat (entrypoint_path X c)) false]) /\
  (recognized (name b) = false \/
   missing (trace_of (run h (Build X b taskID version) w)) ->
   Forall (fun e => party_of (ev_call e) <> DockerEngine)
          (trace_of (run h (Build X b taskID version) w)) /\
   forall out, outcome_of (run h (Build X b taskID version) w) <> Val (Ok out)).
Proof.
  intros c missing. split; [|split].
  - intros Hrec.
    pose proof (run_always h (BuildDockerfile X c) w _ (BuildDockerfile_always X c))
      as (_ & _ & Hk).
    simpl df_Builder in Hk. rewrite Hrec in Hk. destruct Hk as [Ht Hr].
    destruct (run h (BuildDockerfile X c) w) as [[r t] w0] eqn:Hrun.
    unfold trace_of, outcome_of in Ht, Hr. simpl in Ht, Hr. subst r t.
    f_equal. clear -Hrec Hrun. unfold BuildDockerfile, recognized in *.
    simpl df_Builder in *.
    destruct (String.eqb (name b) BuilderNameGo); [discriminate|].
    destruct (String.eqb (name b) BuilderNameDeno); [discriminate|].
    destruct (String.eqb (name b) BuilderNamePython); [discriminate|].
    destruct (String.eqb (name b) BuilderNameNode); [discriminate|].
    destruct (String.eqb (name b) BuilderNameDocker); [discriminate|].
    simpl in Hrun. congruence.
  - intros Hrec Hmissing.
    pose proof (run_always h (BuildDockerfile X c) w _ (BuildDockerfile_always X c))
      as (_ & _ & Hk).
    simpl df_Builder in Hk. rewrite Hrec in Hk.
    destruct Hk as [Hin|[Hr Ht]]; [|split; assumption].
    specialize (Hmissing true Hin). discriminate.
  - intros Hwhy.
    destruct (auth b) as [a|] eqn:Ha.
    2: { destruct (Build_run_refused X h w b taskID version) as [Ht [q Hq]]; [auto|].
         rewrite Ht, Hq. split; [constructor | discriminate]. }
    destruct (sanitizeTaskID (lowerTable X) taskID) as [sid|q0] eqn:Hs.
    2: { destruct (Build_run_refused X h w b taskID version) as [Ht [q Hq]]; [eauto|].
         rewrite Ht, Hq. split; [constructor | discriminate]. }
    destruct (Build_run_post X h w b a taskID sid version Ha Hs)
      as (_ & _ & _ & Hok & Hengine).
    assert (Hnone : forall e, In e (trace_of (run h (Build X b taskID version) w)) ->
                              party_of (ev_call e) <> DockerEngine).
    { intros e He Hp. destruct (Hengine e He Hp) as [Hrec Hin].
      destruct Hwhy as [Hno|Hmissing]; [congruence|].
      specialize (Hmissing true Hin). discriminate. }
    split.
    + apply Forall_forall. intros e He. apply Hnone. apply list_elem_of_In. exact He.
    + intros out Hout. destruct (Hok out Hout) as [images Hin].
      apply in_map_Some in Hin. destruct Hin as (e & He & Hl).
      exact (Hnone e He (listing_of_party _ _ Hl)).
Qed.

Lemma BuildDockerfile_fails_before_engine_witness :
  run (sample_handler true)
      (BuildDockerfile sampleX {| df_Builder := "ruby"; df_Root := "/app";
                                  df_Args := None |}) sample_world
  = (Val (Err (UnsupportedBuilderError "ruby")), [], sample_world) /\
  (outcome_of (run (sample_handler true)
                   (BuildDockerfile sampleX
                      {| df_Builder := "python"; df_Root := "/app";
                         df_Args := shim_args "true" |}) empty_world)
   = Val (Err (MissingFileError "/app/main.py")) /\
   trace_of (run (sample_handler true)
                 (BuildDockerfile sampleX
                    {| df_Builder := "python"; df_Root := "/app";
                       df_Args := shim_args "true" |}) empty_world)
   = [Event (Stat "/app/main.py") false]) /\
  Forall (fun e => party_of (ev_call e) <> DockerEngine)
         (trace_of (run (sample_handler true)
                        (Build sampleX (sample_builder "true") "Task123" "latest")
                        empty_world)).
Proof.
  split; [|split].
  - exact (proj1 (BuildDockerfile_fails_before_engine sampleX (sample_handler true)
                    sample_world
                    {| root := "/app"; name := "ruby"; args := None;
                       writer := None; auth := None; client := DockerClient 0 |}
                    "Task123" "latest") eq_refl).
  - refine (proj1 (proj2 (BuildDockerfile_fails_before_engine sampleX
                            (sample_handler true) empty_world
                            (sample_builder "true") "Task123" "latest")) eq_refl _).
    intros x Hin. vm_compute in Hin. destruct Hin as [Hin|[]]. congruence.
  - refine (proj1 (proj2 (proj2 (BuildDockerfile_fails_before_engine sampleX
                            (sample_handler true) empty_world
                            (sample_builder "true") "Task123" "latest")) _)).
    right. intros x Hin. vm_compute in Hin.
    destruct Hin as [Hin|[Hin|[Hin|[]]]]; congruence.
Defined.

(** *** The two Python recipes *)

Lemma python_shim_always (X : Externals) (root base shim : string) :
  GetVersion X NamePython "3" = Ok base ->
  PythonShim X "main.py" = Ok shim ->
  always (fun t r =>
            (forall x, In (Some (filepath_Join X root "main.py", x)) (map stat_of t) ->
                       x = true) ->
            (forall x, In (Some (filepath_Join X root "requirements.txt", x))
                          (map stat_of t) -> x = false) ->
            r = Val (Ok (shim_recipe base shim)))
         (python X root (shim_args "true")).
Proof.
  intros Hversion Hrender.
  assert (Hshim : args_get (shim_args "true") "shim" = "true") by reflexivity.
  assert (Hentry : args_get (shim_args "true") "entrypoint" = "main.py")
    by reflexivity.
  unfold python. rewrite Hshim, Hentry. simpl negb. cbv iota.
  unfold fsx_AssertExistsAll, fsx_Exists. prog_simpl.
  intros [|]; prog_simpl.
  - rewrite Hversion, Hrender. prog_simpl. intros [|]; simpl.
    + intros _ Hreqs. specialize (Hreqs true). discriminate Hreqs. auto.
    + intros _ _. reflexivity.
  - intros Hmain _. specialize (Hmain false). discriminate Hmain. left. reflexivity.
Qed.

Lemma python_legacy_always (X : Externals) (root base : string) :
  GetVersion X NamePython "3" = Ok base ->
  always (fun t r =>
            (forall x, In (Some (filepath_Join X root "main.py", x)) (map stat_of t) ->
                       x = true) ->
            (forall x, In (Some (filepath_Join X root "requirements.txt", x))
                          (map stat_of t) -> x = true) ->
            r = Val (Ok (legacy_recipe base)))
         (python X root (shim_args "false")).
Proof.
  intros Hversion.
  assert (Hshim : args_get (shim_args "false") "shim" = "false") by reflexivity.
  assert (Hentry : args_get (shim_args "false") "entrypoint" = "main.py")
    by reflexivity.
  unfold python. rewrite Hshim. simpl negb. cbv iota.
  unfold pythonLegacy. rewrite Hentry.
  unfold fsx_AssertExistsAll. prog_simpl.
  intros [|]; prog_simpl.
  - rewrite Hversion. prog_simpl. intros [|]; simpl.
    + intros _ _. reflexivity.
    + intros _ Hreqs. specialize (Hreqs false). discriminate Hreqs. auto.
  - intros Hmain _. specialize (Hmain false). discriminate Hmain. left. reflexivity.
Qed.

(** C8. A Python build with the shim on, on a root where the filesystem
    answers that main.py exists and requirements.txt does not, renders the
    recipe that writes the shim, copies the tree and starts the shim, with
    no step that installs dependencies; with the shim off, on a root where
    both files exist, it renders the recipe that installs from
    requirements.txt and starts main.py itself. *)
Theorem python_recipes {W : Type} (X : Externals) (h : handler W) (w : W)
        (root base : string) :
  GetVersion X NamePython "3" = Ok base ->
  let answered (t : list event) (file : string) (found : bool) :=
    forall x, In (Some (filepath_Join X root file, x)) (map stat_of t) -> x = found in
  (forall shim,
     PythonShim X "main.py" = Ok shim ->
     let res := run h (python X root (shim_args "true")) w in
     answered (trace_of res) "main.py" true ->
     answered (trace_of res) "requirements.txt" false ->
     outcome_of res = Val (Ok (shim_recipe base shim))) /\
  (let res := run h (python X root (shim_args "false")) w in
   answered (trace_of res) "main.py" true ->
   answered (trace_of res) "requirements.txt" true ->
   outcome_of res = Val (Ok (legacy_recipe base))) /\
  Forall (fun part => strings_Contains part "pip install" = false /\
                      strings_Contains part "requirements.txt" = false)
         [shim_recipe_head; shim_recipe_middle; shim_recipe_tail] /\
  strings_Contains shim_recipe_tail shim_entrypoint_line = true /\
  strings_Contains legacy_recipe_tail "RUN pip install -r requirements.txt" = true /\
  strings_Contains legacy_recipe_tail "RUN echo > requirements.txt" = false /\
  strings_Contains legacy_recipe_tail main_entrypoint_line = true.
Proof.
  intros Hversion answered. split; [|split].
  - intros shim Hrender res Hmain Hnoreqs.
    exact (run_always h _ w _ (python_shim_always X root base shim Hversion Hrender)
                      Hmain Hnoreqs).
  - intros res Hmain Hreqs.
    exact (run_always h _ w _ (python_legacy_always X root base Hversion)
                      Hmain Hreqs).
  - repeat split; try reflexivity; repeat constructor.
Qed.

Lemma python_recipes_witness :
  outcome_of (run (sample_handler true) (python sampleX "/app" (shim_args "true"))
                  bare_world)
  = Val (Ok (shim_recipe "python:3" "run(main.py)")) /\
  outcome_of (run (sample_handler true) (python sampleX "/app" (shim_args "false"))
                  sample_world)
  = Val (Ok (legacy_recipe "python:3")).
Proof.
  split.
  - refine (proj1 (python_recipes sampleX (sample_handler true) bare_world
                     "/app" "python:3" eq_refl) "run(main.py)" eq_refl _ _);
      intros x Hin; vm_compute in Hin;
      destruct Hin as [Hin|[Hin|[]]]; congruence.
  - refine (proj1 (proj2 (python_recipes sampleX (sample_handler true) sample_world
                            "/app" "python:3" eq_refl)) _ _);
      intros x Hin; vm_compute in Hin;
      destruct Hin as [Hin|[Hin|[]]]; congruence.
Defined.

(** *** The registry host *)

Lemma prefix_slash (c : ascii) (t : string) :
  String.prefix "/" (String c t) = Ascii.eqb "/" c.
Proof.
  change (String.prefix "/" (String c t))
    with (if ascii_dec "/" c then String.prefix "" t else false).
  destruct (ascii_dec "/" c) as [<-|Hne].
  - destruct t; reflexivity.
  - symmetry. apply (proj2 (Ascii.eqb_neq _ _)). exact Hne.
Qed.

Lemma cut_slash (pre post : string) :
  has_byte "/" pre = false ->
  cut "/" (pre +:+ "/" +:+ post) = Some (pre, post).
Proof.
  induction pre as [|c pre IH]; intros Hno.
  - rewrite append_nil, append_cons, append_nil. cbn [cut].
    rewrite prefix_slash. reflexivity.
  - cbn [has_byte] in Hno. apply orb_false_elim in Hno. destruct Hno as [Hc Hpre].
    rewrite append_cons. cbn [cut]. rewrite prefix_slash, Hc, (IH Hpre). reflexivity.
Qed.

Lemma cut_no_slash (s : string) :
  has_byte "/" s = false -> cut "/" s = None.
Proof.
  induction s as [|c s IH]; intros Hno; [reflexivity|].
  cbn [has_byte] in Hno. apply orb_false_elim in Hno. destruct Hno as [Hc Hs].
  cbn [cut]. rewrite prefix_slash, Hc, (IH Hs). reflexivity.
Qed.

Lemma host_cut (r : RegistryAuth) :
  host r = match cut "/" (Repo r) with
           | Some (before, _) => before
           | None => Repo r
           end.
Proof.
  unfold host, strings_SplitN. destruct (Repo r) as [|c t]; [reflexivity|].
  change (Nat.min 2 (S (String.length (String c t))) - 1)%nat with 1%nat.
  cbn [split_loop]. destruct (cut "/" (String c t)) as [[before after]|]; reflexivity.
Qed.

Lemma split_at_slash (s : string) :
  has_byte "/" s = true ->
  exists pre post, s = pre +:+ "/" +:+ post /\ has_byte "/" pre = false.
Proof.
  induction s as [|c s IH]; [discriminate|]. cbn [has_byte].
  destruct (Ascii.eqb_spec "/" c) as [<-|Hne]; cbn [orb].
  - intros _. exists "", s. split; reflexivity.
  - intros Hs. destruct (IH Hs) as (pre & post & -> & Hpre).
    exists (String c pre), post. split; [reflexivity|].
    cbn [has_byte]. apply Ascii.eqb_neq in Hne. rewrite Hne. exact Hpre.
Qed.

Lemma append_assoc (a b c : string) : (a +:+ b) +:+ c = a +:+ (b +:+ c).
Proof.
  induction a as [|x a IH]; [reflexivity|].
  rewrite !append_cons, IH. reflexivity.
Qed.

Lemma host_before_slash (r : RegistryAuth) (pre post : string) :
  Repo r = pre +:+ "/" +:+ post -> has_byte "/" pre = false -> host r = pre.
Proof.
  intros Hr Hpre. rewrite host_cut, Hr, (cut_slash pre post Hpre). reflexivity.
Qed.

Lemma host_whole (r : RegistryAuth) :
  has_byte "/" (Repo r) = false -> host r = Repo r.
Proof.
  intros Hno. rewrite host_cut, (cut_no_slash _ Hno). reflexivity.
Qed.

(** The composed tag names the registry host of the repository. *)
Lemma host_of_image_tag (token token' repo sid version : string) :
  host {| Token := token'; Repo := image_tag repo sid version |}
  = host {| Token := token; Repo := repo |}.
Proof.
  unfold image_tag.
  destruct (has_byte "/" repo) eqn:Hslash.
  - destruct (split_at_slash repo Hslash) as (pre & post & -> & Hpre).
    rewrite (host_before_slash {| Token := token; Repo := pre +:+ "/" +:+ post |}
               pre post eq_refl Hpre).
    apply (host_before_slash _ pre
             (post +:+ "/" +:+ ("task-" +:+ sid) +:+ ":" +:+ version)); [|exact Hpre].
    simpl Repo. rewrite append_assoc. rewrite append_cons, append_nil. reflexivity.
  - rewrite (host_whole {| Token := token; Repo := repo |} Hslash).
    apply (host_before_slash _ repo (("task-" +:+ sid) +:+ ":" +:+ version));
      [reflexivity | exact Hslash].
Qed.



(** *** The sanitizer on every input *)

Lemma index_byte_empty (i : Z) : index_byte "" i = Panics (IndexOutOfRange i 0).
Proof.
  unfold index_byte. simpl String.length.
  destruct ((i <? 0) || (Z.of_nat 0 <=? i)) eqn:Hb; [reflexivity|].
  apply orb_false_elim in Hb. destruct Hb as [H1 H2].
  apply Z.ltb_ge in H1. apply Z.leb_gt in H2. simpl in H2. lia.
Qed.

Lemma drop_last_length (s : string) :
  s <> "" -> S (String.length (drop_last s)) = String.length s.
Proof.
  induction s as [|c t IH]; [congruence|]. intros _.
  destruct t as [|c' t']; [reflexivity|].
  change (drop_last (String c (String c' t'))) with (String c (drop_last (String c' t'))).
  specialize (IH ltac:(discriminate)).
  change (String.length (String c (drop_last (String c' t'))))
    with (S (String.length (drop_last (String c' t')))).
  rewrite IH. reflexivity.
Qed.

Lemma append_length (a b : string) :
  String.length (a +:+ b) = (String.length a + String.length b)%nat.
Proof.
  induction a as [|c a IH]; [reflexivity|].
  rewrite append_cons. simpl. rewrite IH. reflexivity.
Qed.

(** What [sanitizeTaskID] does, by the lower-cased ID. *)
Lemma sanitizeTaskID_cases (lowerTable : Z -> Z) (s : string) :
  let low := strings_ToLower lowerTable s in
  (low = "" /\ sanitizeTaskID lowerTable s = Panics (IndexOutOfRange (-1) 0)) \/
  (low <> "" /\ ends_in_digit low = true /\
   sanitizeTaskID lowerTable s = Val (drop_last low +:+ "a")) \/
  (low <> "" /\ ends_in_digit low = false /\
   sanitizeTaskID lowerTable s = Val low).
Proof.
  intros low. unfold sanitizeTaskID. fold low.
  destruct low as [|c t] eqn:Hlow.
  - left. split; [reflexivity|]. rewrite index_byte_empty. reflexivity.
  - right. rewrite <- Hlow.
    assert (Hne : low <> "") by (rewrite Hlow; discriminate).
    destruct (last_byte_is_Some low Hne) as [d Hd].
    rewrite (index_byte_last low d Hd), substring_drop_last.
    unfold ends_in_digit. rewrite Hd.
    destruct (unicode_IsDigit (byteZ d)); [left | right]; auto.
Qed.

(** X1. Whatever the task ID and the case table, an ID that [sanitizeTaskID]
    returns is not empty, does not end in a digit and is as long as the
    lower-cased input; the function panics exactly when the lower-cased
    input is empty. *)
Theorem sanitizeTaskID_never_ends_in_digit (lowerTable : Z -> Z) (s : string) :
  match sanitizeTaskID lowerTable s with
  | Val r =>
      r <> "" /\ ends_in_digit r = false /\
      String.length r = String.length (strings_ToLower lowerTable s)
  | Panics p =>
      strings_ToLower lowerTable s = "" /\ p = IndexOutOfRange (-1) 0
  end.
Proof.
  destruct (sanitizeTaskID_cases lowerTable s) as [[Hlow ->]|[(Hne & Hd & ->)|(Hne & Hd & ->)]].
  - split; [exact Hlow | reflexivity].
  - split; [|split].
    + destruct (drop_last _); discriminate.
    + rewrite ends_in_digit_app by discriminate. reflexivity.
    + rewrite append_length. simpl. rewrite <- (drop_last_length _ Hne). lia.
  - auto.
Qed.


(** *** The sanitizer on ASCII IDs *)

Lemma lowerASCII_length (s : string) : String.length (lowerASCII s) = String.length s.
Proof. induction s as [|c t IH]; [reflexivity|]. simpl. rewrite IH. reflexivity. Qed.

Lemma lowerASCII_keeps_ASCII (s : string) :
  isASCII s = true -> isASCII (lowerASCII s) = true.
Proof.
  induction s as [|c t IH]; [reflexivity|]. cbn [isASCII lowerASCII].
  intros H. apply andb_prop in H. destruct H as [Hc Ht].
  rewrite (IH Ht), andb_true_r. cbv zeta.
  destruct ((65 <=? byteZ c) && (byteZ c <=? 90)) eqn:Hup; [|exact Hc].
  rewrite byteZ_Zbyte by lia. unfold utf8.RuneSelf. lia.
Qed.

Lemma lowerASCII_no_upper (s : string) : no_upper (lowerASCII s) = true.
Proof.
  induction s as [|c t IH]; [reflexivity|]. cbn [no_upper lowerASCII].
  rewrite IH, andb_true_r. cbv zeta.
  destruct ((65 <=? byteZ c) && (byteZ c <=? 90)) eqn:Hup.
  - rewrite byteZ_Zbyte by lia. lia.
  - rewrite Hup. reflexivity.
Qed.

Lemma lowerASCII_fixes_lower (s : string) : no_upper s = true -> lowerASCII s = s.
Proof.
  induction s as [|c t IH]; [reflexivity|]. cbn [no_upper lowerASCII].
  intros H. apply andb_prop in H. destruct H as [Hc Ht].
  rewrite (IH Ht). cbv zeta. apply negb_true_iff in Hc. rewrite Hc. reflexivity.
Qed.

Lemma isASCII_app (a b : string) : isASCII (a +:+ b) = isASCII a && isASCII b.
Proof.
  induction a as [|c a IH]; [reflexivity|].
  rewrite append_cons. cbn [isASCII]. rewrite IH, andb_assoc. reflexivity.
Qed.

Lemma no_upper_app (a b : string) : no_upper (a +:+ b) = no_upper a && no_upper b.
Proof.
  induction a as [|c a IH]; [reflexivity|].
  rewrite append_cons. cbn [no_upper]. rewrite IH, andb_assoc. reflexivity.
Qed.

Lemma isASCII_drop_last (s : string) : isASCII s = true -> isASCII (drop_last s) = true.
Proof.
  induction s as [|c t IH]; [reflexivity|]. destruct t as [|c' t']; [reflexivity|].
  change (drop_last (String c (String c' t'))) with (String c (drop_last (String c' t'))).
  cbn [isASCII] in *. intros H. apply andb_prop in H. destruct H as [Hc Ht].
  rewrite Hc. exact (IH Ht).
Qed.

Lemma no_upper_drop_last (s : string) : no_upper s = true -> no_upper (drop_last s) = true.
Proof.
  induction s as [|c t IH]; [reflexivity|]. destruct t as [|c' t']; [reflexivity|].
  change (drop_last (String c (String c' t'))) with (String c (drop_last (String c' t'))).
  cbn [no_upper] in *. intros H. apply andb_prop in H. destruct H as [Hc Ht].
  rewrite Hc. exact (IH Ht).
Qed.

(** A lower-case ASCII ID that does not end in a digit is returned as it
    is. *)
Lemma sanitizeTaskID_fixes (lowerTable : Z -> Z) (r : string) :
  r <> "" -> isASCII r = true -> no_upper r = true -> ends_in_digit r = false ->
  sanitizeTaskID lowerTable r = Val r.
Proof.
  intros Hne Hascii Hlow Hd.
  assert (Hr : strings_ToLower lowerTable r = r).
  { unfold strings_ToLower. rewrite Hascii. apply lowerASCII_fixes_lower, Hlow. }
  destruct (sanitizeTaskID_cases lowerTable r) as [[H _]|[(_ & H & _)|(_ & _ & H)]];
    rewrite Hr in H; congruence.
Qed.

(** X2. On a non-empty ASCII task ID [sanitizeTaskID] returns an ID of the
    same length, made of ASCII bytes none of which is an upper-case letter,
    and sanitizing that ID again returns it unchanged. *)
Theorem sanitizeTaskID_idempotent (lowerTable : Z -> Z) (s : string) :
  isASCII s = true -> s <> "" ->
  exists r,
    sanitizeTaskID lowerTable s = Val r /\
    String.length r = String.length s /\
    isASCII r = true /\ no_upper r = true /\
    sanitizeTaskID lowerTable r = Val r.
Proof.
  intros Hascii Hne.
  assert (Hlow : strings_ToLower lowerTable s = lowerASCII s).
  { unfold strings_ToLower. rewrite Hascii. reflexivity. }
  pose proof (lowerASCII_keeps_ASCII s Hascii) as Hla.
  pose proof (lowerASCII_no_upper s) as Hlu.
  destruct (sanitizeTaskID_cases lowerTable s) as [[H _]|[(Hn & Hd & Hs)|(Hn & Hd & Hs)]];
    rewrite Hlow in *.
  - destruct s; [congruence | discriminate H].
  - exists (drop_last (lowerASCII s) +:+ "a").
    assert (Ha : isASCII (drop_last (lowerASCII s) +:+ "a") = true).
    { rewrite isASCII_app, isASCII_drop_last by exact Hla. reflexivity. }
    assert (Hu : no_upper (drop_last (lowerASCII s) +:+ "a") = true).
    { rewrite no_upper_app, no_upper_drop_last by exact Hlu. reflexivity. }
    split; [exact Hs|]. split; [|split; [exact Ha|split; [exact Hu|]]].
    + rewrite append_length. simpl String.length at 2.
      rewrite <- (lowerASCII_length s), <- (drop_last_length _ Hn). lia.
    + apply sanitizeTaskID_fixes; auto.
      * destruct (drop_last _); discriminate.
      * rewrite ends_in_digit_app by discriminate. reflexivity.
  - exists (lowerASCII s).
    split; [exact Hs|]. split; [apply lowerASCII_length|].
    split; [exact Hla|]. split; [exact Hlu|].
    apply sanitizeTaskID_fixes; auto.
Qed.

Lemma sanitizeTaskID_idempotent_witness :
  exists r,
    sanitizeTaskID (fun r => r) "Task123" = Val r /\
    String.length r = String.length "Task123" /\
    isASCII r = true /\ no_upper r = true /\
    sanitizeTaskID (fun r => r) r = Val r.
Proof.
  apply (sanitizeTaskID_idempotent (fun r => r) "Task123"); [reflexivity | discriminate].
Defined.

(** *** The existence check *)

Lemma exist_always (X : Externals) (paths : list string) :
  always (fun t r =>
            (r = Val None /\ t = map found paths) \/
            (exists pre p post,
               paths = pre ++ p :: post /\
               t = map found pre ++ [Event (Stat p) false] /\
               r = Val (Some (MissingFileError (path_Base X p)))))
         (exist X paths).
Proof.
  induction paths as [|p rest IH]; prog_simpl.
  - left. split; reflexivity.
  - intros [|].
    + eapply always_mono; [|exact IH]. cbv beta.
      intros t r [[-> ->]|(pre & q & post & -> & -> & ->)].
      * left. split; reflexivity.
      * right. exists (p :: pre), q, post. repeat split.
    + right. exists [], p, rest. repeat split.
Qed.


(** *** Every run of the build *)

Lemma always_can_run {A : Type} (p : prog A) : always (can_run p) p.
Proof.
  induction p as [a|q|c k IH]; simpl; auto.
  intros x. eapply always_mono; [|apply IH]. cbv beta. eauto.
Qed.

(** What holds of every run holds of the runs there are. *)
Lemma can_run_always {A : Type} (P : list event -> outcome A -> Prop) (p : prog A)
      (t : list event) (r : outcome A) :
  always P p -> can_run p t r -> P t r.
Proof.
  revert P t. induction p as [a|q|c k IH]; simpl; intros P t HP Hrun.
  - destruct Hrun as [-> ->]. exact HP.
  - destruct Hrun as [-> ->]. exact HP.
  - destruct Hrun as (x & t' & -> & Hrun). exact (IH x _ _ (HP x) Hrun).
Qed.

Lemma run_can_run {W A : Type} (h : handler W) (p : prog A) (w : W) :
  can_run p (trace_of (run h p w)) (outcome_of (run h p w)).
Proof. apply run_always, always_can_run. Qed.

Lemma always_and {A : Type} (P Q : list event -> outcome A -> Prop) (p : prog A) :
  always P p -> always Q p -> always (fun t r => P t r /\ Q t r) p.
Proof.
  revert P Q. induction p as [a|q|c k IH]; simpl; intros P Q HP HQ; auto.
Qed.

Ltac close_answers :=
  repeat match goal with
         | u : unit |- _ => destruct u
         | u : answer (TreeClose _) |- _ => destruct u
         | u : answer (ArchiveClose _) |- _ => destruct u
         | u : answer (StreamClose _) |- _ => destruct u
         end.

Ltac flat_trace := rewrite <- ?app_assoc; cbn [app]; rewrite <- ?app_assoc.

Lemma Build_runs_always (X : Externals) (b : Builder) (a : RegistryAuth)
      (taskID sid version : string) :
  auth b = Some a ->
  sanitizeTaskID (lowerTable X) taskID = Val sid ->
  always (Build_runs X b a sid version) (Build X b taskID version).
Proof.
  intros Ha Hs. unfold Build. rewrite Ha, Hs.
  unfold authconfigs, registryAuth. rewrite Ha.
  unfold Build_runs. cbv zeta.
  prog_step. prog_step.
  2: { prog_simpl. exists (NoTree e), []. repeat split. }
  apply always_defer. apply always_bind.
  eapply always_mono;
    [|apply always_and; [apply BuildDockerfile_always | apply always_can_run]].
  cbv beta. intros t r [Hpost Hrun].
  assert (Hdf : can_run (BuildDockerfile X {| df_Builder := name b; df_Root := root b;
                                              df_Args := args b |}) t r /\
                Forall (fun e => party_of (ev_call e) = Filesystem) t).
  { split; [exact Hrun | apply Hpost]. }
  clear Hpost Hrun.
  destruct r as [[buf|e]|q].
  3: { exfalso. destruct Hdf as [Hrun _].
       destruct (can_run_always _ _ _ _ (BuildDockerfile_always X _) Hrun) as [[v Hv] _].
       discriminate Hv. }
  2: { prog_simpl. intros u. close_answers.
       eexists (NoDockerfile _ e), t. flat_trace.
       split; [reflexivity|]. split; [reflexivity | exact Hdf]. }
  repeat prog_step.
  all: close_answers.
  all: flat_trace.
  all: first
         [ eexists (Listed _ buf _ _ _), t; split; [reflexivity|]
         | eexists (NotListed _ buf _ _ _), t; split; [reflexivity|]
         | eexists (NotStreamed _ buf _ _ _), t; split; [reflexivity|]
         | eexists (NotBuilt _ buf _ _), t; split; [reflexivity|]
         | eexists (NotArchived _ buf _), t; split; [reflexivity|]
         | eexists (NotCopied _ buf _), t; split; [reflexivity|]
         | eexists (NotWritten _ buf _), t; split; [reflexivity|] ].
  all: cbn [Build_result Build_dockerfile].
  all: split; [|exact Hdf].
  all: try match goal with E : find_tag _ _ = _ |- _ => rewrite E end.
  all: reflexivity.
Qed.

(** A build that cannot start makes no call; any other is one of the runs
    above. *)
Lemma Build_run_cases {W : Type} (X : Externals) (h : handler W) (w : W)
      (b : Builder) (taskID version : string) :
  (trace_of (run h (Build X b taskID version) w) = [] /\
   exists q, outcome_of (run h (Build X b taskID version) w) = Panics q) \/
  (exists a sid,
     auth b = Some a /\ sanitizeTaskID (lowerTable X) taskID = Val sid /\
     Build_runs X b a sid version
                (trace_of (run h (Build X b taskID version) w))
                (outcome_of (run h (Build X b taskID version) w))).
Proof.
  destruct (auth b) as [a|] eqn:Ha.
  2: { left. apply Build_run_refused. auto. }
  destruct (sanitizeTaskID (lowerTable X) taskID) as [sid|q] eqn:Hs.
  2: { left. apply Build_run_refused. eauto. }
  right. exists a, sid. split; [reflexivity|]. split; [reflexivity|].
  apply run_always. apply Build_runs_always; assumption.
Qed.

(** *** Releasing what was acquired *)

Lemma filesystem_no_release (t : list event) :
  Forall (fun e => party_of (ev_call e) = Filesystem) t ->
  omap release_of t = [] /\ Forall (fun e => is_release (ev_call e) = false) t.
Proof.
  induction 1 as [|e t He _ [IH1 IH2]]; [split; constructor|].
  destruct e as [c x]. destruct c; try discriminate He.
  split; [exact IH1 | constructor; [reflexivity | exact IH2]].
Qed.

Lemma released_shape (pre tfs post : list event) :
  Forall (fun e => party_of (ev_call e) = Filesystem) tfs ->
  Forall (fun e => is_release (ev_call e) = false) pre ->
  post = List.filter (fun e => negb (is_release (ev_call e))) post
         ++ rev (omap release_of
                      (pre ++ List.filter (fun e => negb (is_release (ev_call e))) post)) ->
  exists body,
    pre ++ tfs ++ post = body ++ rev (omap release_of body) /\
    Forall (fun e => is_release (ev_call e) = false) body.
Proof.
  intros Hfs Hpre Hpost.
  destruct (filesystem_no_release tfs Hfs) as [Hnone Hkeep].
  set (kept := List.filter (fun e => negb (is_release (ev_call e))) post) in *.
  exists (pre ++ tfs ++ kept). split.
  - rewrite !omap_app, Hnone, app_nil_l, <- omap_app, <- !app_assoc, <- Hpost.
    reflexivity.
  - apply Forall_app_2; [exact Hpre|]. apply Forall_app_2; [exact Hkeep|].
    apply Forall_forall. intros e He. apply list_elem_of_In in He.
    apply filter_In in He. destruct He as [_ He]. apply negb_true_iff in He. exact He.
Qed.

(** X4. On every run of [Build], whatever the answers and also when a call
    fails, the calls split into a body without any release and the releases
    of what the body acquired, one for each staging tree, archive and
    response stream obtained, in the reverse order of acquisition. *)
Theorem Build_releases_in_reverse {W : Type} (X : Externals) (h : handler W) (w : W)
        (b : Builder) (taskID version : string) :
  exists body,
    trace_of (run h (Build X b taskID version) w)
    = body ++ rev (omap release_of body) /\
    Forall (fun e => is_release (ev_call e) = false) body.
Proof.
  destruct (Build_run_cases X h w b taskID version)
    as [[-> _]|(a & sid & _ & _ & s & tfs & -> & _ & Hdf)].
  { exists []. split; [reflexivity | constructor]. }
  destruct s as [e0|tree e0|tree buf e0|tree buf e0|tree buf e0|tree buf bc e0
                |tree buf bc body e0|tree buf bc body e0|tree buf bc body imgs];
    cbn [Build_trace Build_dockerfile] in *.
  { exists [Event NewTree (Err e0)]. split; [reflexivity|]. repeat constructor. }
  all: destruct Hdf as [_ Hfs].
  all: apply (released_shape [_] tfs _ Hfs); [repeat constructor | reflexivity].
Qed.

(** *** Failures of the build *)

Lemma filesystem_no_failure (b : Builder) (t : list event) :
  Forall (fun e => party_of (ev_call e) = Filesystem) t ->
  Forall (fun e => Build_failure b e = None) t.
Proof.
  intros H. eapply Forall_impl; [exact H|].
  intros [c x] He. destruct c; try discriminate He. reflexivity.
Qed.

Lemma filesystem_not_written (t : list event) :
  Forall (fun e => party_of (ev_call e) = Filesystem) t ->
  Forall (fun e => written e = None) t.
Proof.
  intros H. eapply Forall_impl; [exact H|].
  intros [c x] He. destruct c; try discriminate He. reflexivity.
Qed.

Lemma first_failure_Some (b : Builder) (t before after : list event) (f : event) :
  first_failure b t = Some (before, f, after) ->
  t = before ++ f :: after /\ Forall (fun e => Build_failure b e = None) before.
Proof.
  revert before. induction t as [|e rest IH]; intros before; [discriminate|].
  cbn [first_failure]. destruct (Build_failure b e) eqn:He.
  - intros [= <- <- <-]. split; [reflexivity | constructor].
  - destruct (first_failure b rest) as [[[before' f'] after']|]; [|discriminate].
    intros [= <- <- <-]. destruct (IH before' eq_refl) as [-> Hnone].
    split; [reflexivity | constructor; assumption].
Qed.

Lemma release_no_failure (b : Builder) (e : event) :
  is_release (ev_call e) = true -> Build_failure b e = None.
Proof. destruct e as [c x]. destruct c; try discriminate; reflexivity. Qed.

(** The one failure of a run that goes through the calls of
    [BuildDockerfile] and ends in releases. *)
Lemma failure_shape (b : Builder) (e0 : event) (tfs post before after : list event)
      (f e : event) (err : error) :
  Build_failure b e0 = None ->
  Forall (fun e => party_of (ev_call e) = Filesystem) tfs ->
  first_failure b post = Some (before, f, after) ->
  forallb (fun e => is_release (ev_call e)) after = true ->
  In e (e0 :: tfs ++ post) -> Build_failure b e = Some err ->
  e = f /\
  exists before' closes,
    e0 :: tfs ++ post = before' ++ e :: closes /\
    Forall (fun e' => Build_failure b e' = None) before' /\
    Forall (fun e' => is_release (ev_call e') = true) closes.
Proof.
  intros H0 Hfs Hfirst Hafter Hin He.
  apply first_failure_Some in Hfirst. destruct Hfirst as [-> Hbefore].
  pose proof (filesystem_no_failure b tfs Hfs) as Hnone.
  assert (Hcloses : Forall (fun e' => is_release (ev_call e') = true) after).
  { apply Forall_forall. intros e' He'. apply list_elem_of_In in He'.
    rewrite forallb_forall in Hafter. exact (Hafter e' He'). }
  assert (Hf : e = f).
  { destruct Hin as [<-|Hin]; [congruence|].
    rewrite !in_app_iff in Hin. destruct Hin as [Hin|[Hin|[Hin|Hin]]]; auto.
    - rewrite Forall_forall in Hnone. apply list_elem_of_In in Hin.
      rewrite (Hnone e Hin) in He. discriminate He.
    - rewrite Forall_forall in Hbefore. apply list_elem_of_In in Hin.
      rewrite (Hbefore e Hin) in He. discriminate He.
    - rewrite Forall_forall in Hcloses. apply list_elem_of_In in Hin.
      rewrite (release_no_failure b e (Hcloses e Hin)) in He. discriminate He. }
  split; [exact Hf|]. subst e.
  exists (e0 :: tfs ++ before), after. split; [|split].
  - rewrite <- app_comm_cons, <- app_assoc. reflexivity.
  - constructor; [exact H0|]. apply Forall_app_2; assumption.
  - exact Hcloses.
Qed.

Ltac pick_in := (left; reflexivity) + (right; pick_in).

(** X5. When a call of [Build] to the staging tree, to the engine or to the
    output copy fails, [Build] returns that error wrapped in the message of
    its stage; the failed call is the first failure of the run and nothing
    follows it but the releases.  Conversely an error that [Build] returns
    is such a wrapped failure, or the wrapped error of the Dockerfile
    generator with nothing written to the tree and no engine call, or the
    image-not-found error for a listing that lacks the tag. *)
Theorem Build_reports_first_failure {W : Type} (X : Externals) (h : handler W) (w : W)
        (b : Builder) (a : RegistryAuth) (taskID sid version : string) :
  auth b = Some a ->
  sanitizeTaskID (lowerTable X) taskID = Val sid ->
  let t := trace_of (run h (Build X b taskID version) w) in
  let r := outcome_of (run h (Build X b taskID version) w) in
  let tag := image_tag (Repo a) sid version in
  (forall e err,
     In e t -> Build_failure b e = Some err ->
     r = Val (Err err) /\
     exists before closes,
       t = before ++ e :: closes /\
       Forall (fun e' => Build_failure b e' = None) before /\
       Forall (fun e' => is_release (ev_call e') = true) closes) /\
  (forall err,
     r = Val (Err err) ->
     (exists e, In e t /\ Build_failure b e = Some err) \/
     (exists cause, err = Wrapf cause "creating dockerfile" [] /\
                    Forall (fun e => written e = None) t /\
                    Forall (fun e => party_of (ev_call e) <> DockerEngine) t) \/
     (err = ImageNotFoundError tag /\
      exists images, In (Some (Ok images)) (map listing_of t) /\
                     find_tag tag images = None)).
Proof.
  intros Ha Hs t r tag.
  pose proof (run_always h _ w _ (Build_runs_always X b a taskID sid version Ha Hs))
    as (s & tfs & Ht & Hr & Hdf).
  fold t in Ht. fold r in Hr. fold tag in Ht, Hr. rewrite Ht, Hr. clear Ht Hr.
  split.
  - intros e err Hin He.
    destruct s as [e0|tree e0|tree buf e0|tree buf e0|tree buf e0|tree buf bc e0
                |tree buf bc body e0|tree buf bc body e0|tree buf bc body imgs];
      cbn [Build_trace Build_result Build_dockerfile] in *.
    { destruct Hin as [<-|[]]. simpl in He. injection He as <-.
      split; [reflexivity|]. exists [], []. repeat split; constructor. }
    8: { exfalso. destruct Hdf as [_ Hfs].
         pose proof (filesystem_no_failure b tfs Hfs) as Hnone.
         destruct Hin as [<-|Hin]; [discriminate He|].
         apply in_app_iff in Hin. destruct Hin as [Hin|Hin].
         - rewrite Forall_forall in Hnone. apply list_elem_of_In in Hin.
           rewrite (Hnone e Hin) in He. discriminate He.
         - simpl in Hin.
           repeat (destruct Hin as [<-|Hin]; [discriminate He|]). destruct Hin. }
    1: { exfalso. destruct Hdf as [_ Hfs].
         pose proof (filesystem_no_failure b tfs Hfs) as Hnone.
         destruct Hin as [<-|Hin]; [discriminate He|].
         apply in_app_iff in Hin. destruct Hin as [Hin|Hin].
         - rewrite Forall_forall in Hnone. apply list_elem_of_In in Hin.
           rewrite (Hnone e Hin) in He. discriminate He.
         - simpl in Hin.
           repeat (destruct Hin as [<-|Hin]; [discriminate He|]). destruct Hin. }
    all: destruct Hdf as [_ Hfs].
    all: match type of Hin with
         | In _ (?e0 :: ?fs ++ ?post) =>
             edestruct (failure_shape b e0 fs post _ _ _ e err eq_refl Hfs eq_refl eq_refl
                                      Hin He) as [-> Hshape]
         end.
    all: simpl in He; injection He as <-; split; [reflexivity | exact Hshape].
  - intros err Herr.
    destruct s as [e0|tree e0|tree buf e0|tree buf e0|tree buf e0|tree buf bc e0
                |tree buf bc body e0|tree buf bc body e0|tree buf bc body imgs];
      cbn [Build_trace Build_result Build_dockerfile] in *.
    all: try (injection Herr as <-).
    2: { right. left. exists e0. split; [reflexivity|]. destruct Hdf as [_ Hfs]. split.
         - constructor; [reflexivity|]. apply Forall_app_2;
             [apply filesystem_not_written, Hfs | repeat constructor].
         - constructor; [discriminate|]. apply Forall_app_2; [|repeat constructor; discriminate].
           eapply Forall_impl; [exact Hfs|]. cbv beta. intros e' ->. discriminate. }
    8: { destruct (find_tag tag imgs) eqn:Hfind; [discriminate Herr|].
         injection Herr as <-. right. right. split; [reflexivity|].
         exists imgs. split; [|exact Hfind].
         simpl. right. rewrite map_app, in_app_iff. right. simpl. auto 10. }
    all: left; eexists.
    all: first [ split; [left; reflexivity | reflexivity]
               | split; [right; apply in_app_iff; right; pick_in | reflexivity] ].
Qed.

Lemma Build_reports_first_failure_witness :
  outcome_of (run copy_refused (Build sampleX (sample_builder "true") "Task123" "latest")
                  sample_world)
  = Val (Err (Wrapf (Errorf "permission denied" []) "copy %q" ["/app"])).
Proof.
  refine (proj1 (proj1 (Build_reports_first_failure
                          sampleX copy_refused sample_world (sample_builder "true")
                          {| Token := "tok"; Repo := "gcr.io/airplane" |}
                          "Task123" "task12a" "latest" eq_refl eq_refl)
                       (Event (TreeCopy (TreeHandle 0) "/app")
                              (Some (Errorf "permission denied" []))) _ _ _)).
  - vm_compute. auto 10.
  - reflexivity.
Defined.

(** *** The successful build *)

Lemma Build_success_can_run (X : Externals) (b : Builder) (a : RegistryAuth)
      (taskID sid version : string) (t : list event) (out : BuildOutput) :
  auth b = Some a ->
  sanitizeTaskID (lowerTable X) taskID = Val sid ->
  can_run (Build X b taskID version) t (Val (Ok out)) ->
  let tag := image_tag (Repo a) sid version in
  let c := {| df_Builder := name b; df_Root := root b; df_Args := args b |} in
  exists tree tfs buf bc body images,
    t = Event NewTree (Ok tree) :: tfs
        ++ [Event (TreeWrite tree "Dockerfile" buf) None;
            Event (TreeCopy tree (root b)) None;
            Event (TreeArchive tree) (Ok bc);
            Event (ImageBuild (client b) bc (build_options a tag)) (Ok body);
            Event (IoCopy (writer b) body) None;
            Event (ImageList (client b)) (Ok images);
            Event (StreamClose body) tt;
            Event (ArchiveClose bc) tt;
            Event (TreeClose tree) tt] /\
    can_run (BuildDockerfile X c) tfs (Val (Ok buf)) /\
    Forall (fun e => party_of (ev_call e) = Filesystem) tfs /\
    find_tag tag images = Some (Tag out).
Proof.
  intros Ha Hs Hrun tag c.
  pose proof (can_run_always _ _ _ _ (Build_runs_always X b a taskID sid version Ha Hs) Hrun)
    as (s & tfs & Ht & Hr & Hdf).
  fold tag in Ht, Hr. injection Hr as Hr.
  destruct s as [e0|tree e0|tree buf e0|tree buf e0|tree buf e0|tree buf bc e0
                |tree buf bc body e0|tree buf bc body e0|tree buf bc body imgs];
    cbn [Build_result] in Hr; try discriminate Hr.
  destruct (find_tag tag imgs) as [found|] eqn:Hfind; [|discriminate Hr].
  injection Hr as ->. cbn [Build_dockerfile] in Hdf. destruct Hdf as [Hdf Hfs].
  exists tree, tfs, buf, bc, body, imgs. auto.
Qed.

(** X6. A run of [Build] that returns an output made exactly these calls,
    in this order: it created the staging tree, ran [BuildDockerfile], wrote
    the text that [BuildDockerfile] returned as the file Dockerfile of the
    tree, copied the root into the tree, archived the tree, submitted the
    archive to the engine with the composed request, copied the response
    to the writer, listed the images, and closed the response, the archive
    and the tree.  The output carries the tag found in the listing. *)
Theorem Build_success_trace {W : Type} (X : Externals) (h : handler W) (w : W)
        (b : Builder) (a : RegistryAuth) (taskID sid version : string)
        (out : BuildOutput) :
  auth b = Some a ->
  sanitizeTaskID (lowerTable X) taskID = Val sid ->
  outcome_of (run h (Build X b taskID version) w) = Val (Ok out) ->
  let tag := image_tag (Repo a) sid version in
  let c := {| df_Builder := name b; df_Root := root b; df_Args := args b |} in
  exists tree tfs buf bc body images,
    trace_of (run h (Build X b taskID version) w)
    = Event NewTree (Ok tree) :: tfs
      ++ [Event (TreeWrite tree "Dockerfile" buf) None;
          Event (TreeCopy tree (root b)) None;
          Event (TreeArchive tree) (Ok bc);
          Event (ImageBuild (client b) bc (build_options a tag)) (Ok body);
          Event (IoCopy (writer b) body) None;
          Event (ImageList (client b)) (Ok images);
          Event (StreamClose body) tt;
          Event (ArchiveClose bc) tt;
          Event (TreeClose tree) tt] /\
    can_run (BuildDockerfile X c) tfs (Val (Ok buf)) /\
    Forall (fun e => party_of (ev_call e) = Filesystem) tfs /\
    find_tag tag images = Some (Tag out).
Proof.
  intros Ha Hs Hout.
  apply (Build_success_can_run X b a taskID sid version _ out Ha Hs).
  rewrite <- Hout. apply run_can_run.
Qed.

Lemma Build_success_trace_witness :
  exists tree tfs buf bc body images,
    trace_of (run (sample_handler true)
                  (Build sampleX (sample_builder "true") "Task123" "latest") sample_world)
    = Event NewTree (Ok tree) :: tfs
      ++ [Event (TreeWrite tree "Dockerfile" buf) None;
          Event (TreeCopy tree "/app") None;
          Event (TreeArchive tree) (Ok bc);
          Event (ImageBuild (DockerClient 0) bc
                   (build_options {| Token := "tok"; Repo := "gcr.io/airplane" |}
                                  "gcr.io/airplane/task-task12a:latest")) (Ok body);
          Event (IoCopy (Some Stderr) body) None;
          Event (ImageList (DockerClient 0)) (Ok images);
          Event (StreamClose body) tt;
          Event (ArchiveClose bc) tt;
          Event (TreeClose tree) tt] /\
    can_run (BuildDockerfile sampleX
               {| df_Builder := "python"; df_Root := "/app";
                  df_Args := Some {[ "shim" := "true"; "entrypoint" := "main.py" ]} |})
            tfs (Val (Ok buf)) /\
    Forall (fun e => party_of (ev_call e) = Filesystem) tfs /\
    find_tag "gcr.io/airplane/task-task12a:latest" images
    = Some "gcr.io/airplane/task-task12a:latest".
Proof.
  exact (Build_success_trace sampleX (sample_handler true) sample_world
           (sample_builder "true") {| Token := "tok"; Repo := "gcr.io/airplane" |}
           "Task123" "task12a" "latest"
           {| Tag := "gcr.io/airplane/task-task12a:latest" |}
           eq_refl eq_refl eq_refl).
Defined.

(** *** Every run of the push *)

Lemma Push_runs_always (X : Externals) (b : Builder) (a : RegistryAuth) (tag : string) :
  auth b = Some a ->
  always (fun t r =>
            (exists e, json_Marshal X (token_credential (Token a)) = Err e /\
                       t = [] /\ r = Val (Some e)) \/
            (exists authjson,
               json_Marshal X (token_credential (Token a)) = Ok authjson /\
               let opts := {| RegistryAuth_ :=
                                base64_URLEncoding_EncodeToString X authjson |} in
               (exists e, t = [Event (ImagePush (client b) tag opts) (Err e)] /\
                          r = Val (Some e)) \/
               (exists resp e,
                  t = [Event (ImagePush (client b) tag opts) (Ok resp);
                       Event (IoCopy (writer b) resp) (Some e);
                       Event (StreamClose resp) tt] /\
                  r = Val (Some (Wrapf e "image push" []))) \/
               (exists resp,
                  t = [Event (ImagePush (client b) tag opts) (Ok resp);
                       Event (IoCopy (writer b) resp) None;
                       Event (StreamClose resp) tt] /\
                  r = Val None)))
         (Push X b tag).
Proof.
  intros Ha. unfold Push, registryAuth. rewrite Ha. prog_simpl.
  fold (token_credential (Token a)).
  destruct (json_Marshal X (token_credential (Token a))) as [authjson|e] eqn:Hj.
  2: { prog_simpl. left. eauto. }
  prog_simpl. intros [resp|e].
  2: { prog_simpl. right. exists authjson. split; [reflexivity|]. left. eauto. }
  prog_simpl. intros [e|]; prog_simpl; intros u; close_answers;
    right; exists authjson; (split; [reflexivity|]); right; [left | right]; eauto.
Qed.

(** X7. [Push] on a builder with registry auth: when the credential cannot
    be marshalled it returns that error and makes no call; otherwise it
    submits one push request for the tag; an error of the engine is
    returned as it is and nothing is closed; once a response is obtained it
    is copied to the writer and closed, whether the copy fails or not, and
    a failed copy is returned wrapped as image push.  Nil is returned only
    after the push was accepted and its output copied. *)
Theorem Push_runs {W : Type} (X : Externals) (h : handler W) (w : W)
        (b : Builder) (a : RegistryAuth) (tag : string) :
  auth b = Some a ->
  let t := trace_of (run h (Push X b tag) w) in
  let r := outcome_of (run h (Push X b tag) w) in
  (exists e, json_Marshal X (token_credential (Token a)) = Err e /\
             t = [] /\ r = Val (Some e)) \/
  (exists authjson,
     json_Marshal X (token_credential (Token a)) = Ok authjson /\
     let opts := {| RegistryAuth_ := base64_URLEncoding_EncodeToString X authjson |} in
     (exists e, t = [Event (ImagePush (client b) tag opts) (Err e)] /\
                r = Val (Some e)) \/
     (exists resp e,
        t = [Event (ImagePush (client b) tag opts) (Ok resp);
             Event (IoCopy (writer b) resp) (Some e);
             Event (StreamClose resp) tt] /\
        r = Val (Some (Wrapf e "image push" []))) \/
     (exists resp,
        t = [Event (ImagePush (client b) tag opts) (Ok resp);
             Event (IoCopy (writer b) resp) None;
             Event (StreamClose resp) tt] /\
        r = Val None)).
Proof.
  intros Ha t r. exact (run_always h _ w _ (Push_runs_always X b a tag Ha)).
Qed.

Lemma Push_runs_witness :
  trace_of (run (sample_handler true)
                (Push sampleX (sample_builder "true") "gcr.io/airplane/task-a:latest")
                sample_world)
  = [Event (ImagePush (DockerClient 0) "gcr.io/airplane/task-a:latest"
                      {| RegistryAuth_ := "oauth2accesstoken:tok" |}) (Ok (StreamHandle 2));
     Event (IoCopy (Some Stderr) (StreamHandle 2)) None;
     Event (StreamClose (StreamHandle 2)) tt].
Proof.
  destruct (Push_runs sampleX (sample_handler true) sample_world (sample_builder "true")
              {| Token := "tok"; Repo := "gcr.io/airplane" |}
              "gcr.io/airplane/task-a:latest" eq_refl)
    as [(e & He & _)|(authjson & Hj & _)]; [discriminate He|].
  reflexivity.
Defined.

(** *** The lookups of the build environment *)

Lemma lookups_cons (X : Externals) (kv : string * EnvVarValue)
      (rest : list (string * EnvVarValue)) :
  lookups X (kv :: rest)
  = match needed_config X kv with
    | Some req => GetConfig req :: lookups X rest
    | None => lookups X rest
    end.
Proof. unfold lookups. simpl. destruct (needed_config X kv); reflexivity. Qed.

Lemma getBuildEnv_loop_lookups (X : Externals) (entries : list (string * EnvVarValue))
      (before : gmap string string) :
  always (fun t r =>
            (exists rest, lookups X entries = map ev_call t ++ rest) /\
            (forall m, r = Val (Ok m) -> map ev_call t = lookups X entries))
         (getBuildEnv_loop X entries before).
Proof.
  revert before. induction entries as [|[k v] rest IH]; intros before.
  - simpl. split; [exists []; reflexivity | reflexivity].
  - cbn [getBuildEnv_loop]. rewrite lookups_cons. unfold needed_config. cbn [snd].
    destruct (Value v) as [literal|] eqn:Hval; [apply IH|].
    destruct (ConfigRef v) as [config|] eqn:Href; [|apply IH].
    destruct (configs_ParseName X config) as [nt|e] eqn:Hparse.
    2: { simpl. split; [eexists; reflexivity | discriminate]. }
    prog_simpl. fold (config_request nt). intros [res|e].
    + eapply always_mono; [|apply IH]. cbv beta.
      intros t r [[more Hmore] Hok]. split.
      * exists more. simpl. rewrite Hmore. reflexivity.
      * intros m Hm. simpl. rewrite (Hok m Hm). reflexivity.
    + simpl. split; [eexists; reflexivity | discriminate].
Qed.

(** X8. [getBuildEnv] makes its calls in the order in which the range visits
    the task environment: one lookup for each entry that has no literal
    value and names a config, and none for any other entry, also when the
    entry with a literal value names a config as well.  When it returns a
    map it has made exactly these lookups; when it fails it has made the
    first of them, up to the failed one. *)
Theorem getBuildEnv_one_lookup_per_reference {W : Type} (X : Externals) (h : handler W)
        (w : W) (def : Definition_) :
  let t := trace_of (run h (getBuildEnv X def) w) in
  let r := outcome_of (run h (getBuildEnv X def) w) in
  (exists rest, lookups X (range_TaskEnv X (Env def)) = map ev_call t ++ rest) /\
  (forall m, r = Val (Ok m) ->
     map ev_call t = lookups X (range_TaskEnv X (Env def))).
Proof.
  intros t r. unfold getBuildEnv in *.
  exact (run_always h _ w _ (getBuildEnv_loop_lookups X _ ∅)).
Qed.

(** *** The stages of the pipeline *)

Lemma can_run_bind {A B : Type} (f : A -> prog B) (p : prog A)
      (t : list event) (r : outcome B) :
  can_run (p ≫= f) t r ->
  exists t1 r1,
    can_run p t1 r1 /\
    match r1 with
    | Val a => exists t2, t = t1 ++ t2 /\ can_run (f a) t2 r
    | Panics q => t = t1 /\ r = Panics q
    end.
Proof.
  revert t. induction p as [a|q|c k IH]; intros t Hrun.
  - exists [], (Val a). split; [split; reflexivity|]. exists t. auto.
  - destruct Hrun as [-> ->]. exists [], (Panics q). repeat split.
  - destruct Hrun as (x & t' & -> & Hrun).
    destruct (IH x t' Hrun) as (t1 & r1 & H1 & Hrest).
    exists (Event c x :: t1), r1. split; [exists x, t1; auto|].
    destruct r1 as [a|q].
    + destruct Hrest as (t2 & -> & H2). exists t2. auto.
    + destruct Hrest as [-> ->]. auto.
Qed.

Lemma getBuildEnv_loop_returns (X : Externals) (entries : list (string * EnvVarValue))
      (before : gmap string string) :
  always (fun t r => exists v, r = Val v) (getBuildEnv_loop X entries before).
Proof.
  revert before. induction entries as [|[k v] rest IH]; intros before; [simpl; eauto|].
  cbn [getBuildEnv_loop].
  destruct (Value v); [apply IH|]. destruct (ConfigRef v); [|apply IH].
  destruct (configs_ParseName X s); [|simpl; eauto].
  prog_simpl. intros [res|e]; [apply IH | simpl; eauto].
Qed.

Lemma Local_can_run (X : Externals) (dir : TaskDirectory) (def : Definition_)
      (taskID : string) (t : list event) (r : outcome (option error)) :
  can_run (Local X dir def taskID) t r -> Local_runs X dir def taskID t r.
Proof.
  unfold Local, Local_runs. intros Hrun.
  cbn [mbind prog_mbind prog_bind perform can_run] in Hrun.
  destruct Hrun as ([registry|e] & t1 & -> & Hrun).
  2: { destruct Hrun as [-> ->]. left. eauto. }
  right. apply can_run_bind in Hrun. destruct Hrun as (tenv & renv & Henv & Hrun).
  destruct (can_run_always _ _ _ _ (getBuildEnv_loop_returns X _ ∅) Henv) as [v ->].
  destruct Hrun as (t2 & -> & Hrun).
  exists registry, tenv, v. split; [exact Henv|]. cbv zeta.
  destruct v as [buildEnv|e].
  2: { destruct Hrun as [-> ->]. rewrite app_nil_r. auto. }
  destruct (GetKindAndOptions def) as [[kind options]|e].
  2: { destruct Hrun as [-> ->]. rewrite app_nil_r. auto. }
  apply can_run_bind in Hrun. destruct Hrun as (tnew & rnew & Hnew & Hrun).
  pose proof (can_run_always _ _ _ _ (New_always X _) Hnew) as ([v ->] & _ & _ & Hb).
  destruct Hrun as (t3 & -> & Hrun).
  exists tnew, v. split; [exact Hnew|].
  destruct v as [b|e].
  2: { destruct Hrun as [-> ->]. rewrite app_nil_r. auto. }
  cbn [mbind prog_mbind prog_bind perform can_run] in Hrun.
  destruct Hrun as (u & t4 & -> & Hrun). destruct u.
  apply can_run_bind in Hrun. destruct Hrun as (tbuild & rbuild & Hbuild & Hrun).
  exists tbuild, rbuild. split; [exact Hbuild|].
  destruct rbuild as [[bo|e]|q].
  - destruct Hrun as (t5 & -> & Hrun).
    cbn [mbind prog_mbind prog_bind perform can_run] in Hrun.
    destruct Hrun as (u & t6 & -> & Hrun). destruct u.
    apply can_run_bind in Hrun. destruct Hrun as (tpush & rpush & Hpush & Hrun).
    destruct (Hb b eq_refl) as (_ & _ & _ & _ & _ & Hauth & _). simpl in Hauth.
    pose proof (can_run_always _ _ _ _ (Push_always X b _ (Tag bo) Hauth) Hpush)
      as [[v ->] _].
    destruct Hrun as (t7 & -> & Hrun).
    exists tpush, v. split; [exact Hpush|].
    destruct v as [e|]; destruct Hrun as [-> ->]; rewrite app_nil_r;
      (split; [|reflexivity]); rewrite <- !app_assoc; reflexivity.
  - destruct Hrun as (t5 & -> & [-> ->]). rewrite app_nil_r. auto.
  - destruct Hrun as [-> ->]. auto.
Qed.

Lemma New_can_run_Ok (X : Externals) (c : Config) (t : list event) (b : Builder) :
  can_run (New X c) t (Val (Ok b)) ->
  exists cl,
    t = [Event NewClientWithOpts (Ok cl)] /\
    filepath_IsAbs X (Root c) = true /\
    b = {| root := Root c;
           name := if String.eqb (Builder_ c) "" then "manual" else Builder_ c;
           args := Some (default ∅ (Args_ c));
           writer := Some (default Stderr (Writer_ c));
           auth := Auth c;
           client := cl |}.
Proof.
  unfold New. destruct (filepath_IsAbs X (Root c)); simpl negb; cbv iota.
  2: { intros [_ [=]]. }
  destruct (Auth c) as [a|]; [|intros [_ [=]]].
  cbn [mbind prog_mbind prog_bind perform can_run].
  intros ([cl|e] & t' & -> & [-> Hb]); [|discriminate Hb].
  injection Hb as ->. exists cl. split; [reflexivity|]. split; [reflexivity|].
  destruct (Args_ c), (Writer_ c); reflexivity.
Qed.

Lemma Push_success_can_run (X : Externals) (b : Builder) (a : RegistryAuth)
      (tag : string) (t : list event) :
  auth b = Some a ->
  can_run (Push X b tag) t (Val None) ->
  exists authjson resp,
    json_Marshal X (token_credential (Token a)) = Ok authjson /\
    t = [Event (ImagePush (client b) tag
                  {| RegistryAuth_ := base64_URLEncoding_EncodeToString X authjson |})
               (Ok resp);
         Event (IoCopy (writer b) resp) None;
         Event (StreamClose resp) tt].
Proof.
  intros Ha Hrun.
  destruct (can_run_always _ _ _ _ (Push_runs_always X b a tag Ha) Hrun)
    as [(e & _ & _ & [=])|(authjson & Hj & [(e & _ & [=])|[(resp & e & _ & [=])|(resp & -> & _)]])].
  exists authjson, resp. auto.
Qed.

(** X9. A run of [Local] that returns nil made exactly these calls, in this
    order: the registry token; the lookups of the build environment; the
    creation of the Docker client; the line Building...; the calls of a
    successful [Build] of the task ID under the tag latest, on the builder
    made of the definition's root, kind and options, the registry auth of
    the token response and the process error stream; the line Pushing...;
    one push request for the composed tag with the token credential, its
    output copied and its response closed. *)
Theorem Local_success_trace {W : Type} (X : Externals) (h : handler W) (w : W)
        (dir : TaskDirectory) (def : Definition_) (taskID : string) :
  outcome_of (run h (Local X dir def taskID) w) = Val None ->
  exists registry tenv kind options cl sid tree tfs buf bc body images authjson resp,
    let a := {| Token := rt_Token registry; Repo := rt_Repo registry |} in
    let tag := image_tag (rt_Repo registry) sid "latest" in
    let c := {| df_Builder := if String.eqb kind "" then "manual" else kind;
                df_Root := DefinitionRootPath dir;
                df_Args := Some (default ∅ options) |} in
    GetKindAndOptions def = Ok (kind, options) /\
    sanitizeTaskID (lowerTable X) taskID = Val sid /\
    json_Marshal X (token_credential (rt_Token registry)) = Ok authjson /\
    map ev_call tenv = lookups X (range_TaskEnv X (Env def)) /\
    can_run (BuildDockerfile X c) tfs (Val (Ok buf)) /\
    find_tag tag images = Some tag /\
    trace_of (run h (Local X dir def taskID) w)
    = Event GetRegistryToken (Ok registry) :: tenv
      ++ [Event NewClientWithOpts (Ok cl);
          Event (LoggerLog "Building...") tt;
          Event NewTree (Ok tree)]
      ++ tfs
      ++ [Event (TreeWrite tree "Dockerfile" buf) None;
          Event (TreeCopy tree (DefinitionRootPath dir)) None;
          Event (TreeArchive tree) (Ok bc);
          Event (ImageBuild cl bc (build_options a tag)) (Ok body);
          Event (IoCopy (Some Stderr) body) None;
          Event (ImageList cl) (Ok images);
          Event (StreamClose body) tt;
          Event (ArchiveClose bc) tt;
          Event (TreeClose tree) tt;
          Event (LoggerLog "Pushing...") tt;
          Event (ImagePush cl tag
                   {| RegistryAuth_ := base64_URLEncoding_EncodeToString X authjson |})
                (Ok resp);
          Event (IoCopy (Some Stderr) resp) None;
          Event (StreamClose resp) tt].
Proof.
  intros Hout.
  pose proof (Local_can_run X dir def taskID _ _ (run_can_run h _ w)) as Hruns.
  rewrite Hout in Hruns.
  destruct Hruns as [(e & _ & [=])|(registry & tenv & renv & Henv & Hruns)].
  cbv zeta in Hruns.
  destruct renv as [buildEnv|e]; [|destruct Hruns as [_ [=]]].
  destruct (GetKindAndOptions def) as [[kind options]|e] eqn:Hkind;
    [|destruct Hruns as [_ [=]]].
  destruct Hruns as (tnew & rnew & Hnew & Hruns).
  destruct rnew as [b|e]; [|destruct Hruns as [_ [=]]].
  destruct Hruns as (tbuild & rbuild & Hbuild & Hruns).
  destruct rbuild as [[bo|e]|q]; [|destruct Hruns as [_ [=]]|destruct Hruns as [_ [=]]].
  destruct Hruns as (tpush & rpush & Hpush & Ht & Hr).
  destruct rpush as [e|]; [discriminate Hr|]. clear Hr.
  apply New_can_run_Ok in Hnew. destruct Hnew as (cl & -> & _ & ->).
  cbn [Root Builder_ Args_ Writer_ Auth default] in *.
  set (a := {| Token := rt_Token registry; Repo := rt_Repo registry |}) in *.
  set (b := {| root := DefinitionRootPath dir; name := _; args := _; writer := _;
               auth := Some a; client := cl |}) in *.
  destruct (sanitizeTaskID (lowerTable X) taskID) as [sid|q] eqn:Hs.
  2: { exfalso. revert Hbuild. unfold Build. simpl auth. cbv iota. rewrite Hs.
       simpl. intros [_ [=]]. }
  destruct (Build_success_can_run X b a taskID sid "latest" _ bo eq_refl Hs Hbuild)
    as (tree & tfs & buf & bc & body & images & -> & Hdf & _ & Hfind).
  pose proof (find_tag_Some _ _ _ Hfind) as [Htag _].
  rewrite Htag in *.
  destruct (Push_success_can_run X b a _ _ eq_refl Hpush) as (authjson & resp & Hj & ->).
  exists registry, tenv, kind, options, cl, sid, tree, tfs, buf, bc, body, images,
    authjson, resp.
  cbv zeta. split; [reflexivity|]. split; [reflexivity|]. split; [exact Hj|].
  split.
  { exact (proj2 (can_run_always _ _ _ _ (getBuildEnv_loop_lookups X _ ∅) Henv)
                 buildEnv eq_refl). }
  split; [exact Hdf|]. split; [exact Hfind|].
  rewrite Ht. rewrite <- ?app_assoc. cbn [app]. rewrite <- ?app_assoc. reflexivity.
Qed.

Lemma Local_success_trace_witness :
  exists kind options sid authjson,
    GetKindAndOptions sample_definition = Ok (kind, options) /\
    sanitizeTaskID (lowerTable sampleX) "Task123" = Val sid /\
    json_Marshal sampleX (token_credential "tok") = Ok authjson.
Proof.
  assert (Hnil : outcome_of (run (sample_handler true)
                                 (Local sampleX {| DefinitionRootPath := "/app" |}
                                        sample_definition "Task123") sample_world)
                 = Val None) by (vm_compute; reflexivity).
  destruct (Local_success_trace sampleX (sample_handler true) sample_world
              {| DefinitionRootPath := "/app" |} sample_definition "Task123" Hnil)
    as (registry & tenv & kind & options & cl & sid & tree & tfs & buf & bc & body
        & images & authjson & resp & Hk & Hs & Hj & _).
  exists kind, options, sid, "oauth2accesstoken:tok".
  split; [exact Hk|]. split; [exact Hs|]. reflexivity.
Defined.

(** *** How far the pipeline got *)

Lemma api_no_logs (t : list event) :
  Forall (fun e => party_of (ev_call e) = AirplaneAPI) t -> omap log_of t = [].
Proof.
  induction 1 as [|[c x] t He _ IH]; [reflexivity|].
  destruct c; try discriminate He; exact IH.
Qed.

Lemma lookups_are_api (calls : list GetConfigRequest) (t : list event) (rest : list call) :
  map GetConfig calls = map ev_call t ++ rest ->
  Forall (fun e => party_of (ev_call e) = AirplaneAPI) t.
Proof.
  revert calls. induction t as [|e t IH]; intros calls Heq; [constructor|].
  destruct calls as [|req calls]; [discriminate Heq|].
  simpl in Heq. injection Heq as He Heq. constructor.
  - rewrite <- He. reflexivity.
  - exact (IH calls Heq).
Qed.

(** A call on the Docker side of the pipeline: not to the API, not a log
    line. *)
Lemma Build_call_side (b : Builder) (a : RegistryAuth) (tag : string) (e : event) :
  Build_call b a tag e ->
  party_of (ev_call e) <> AirplaneAPI /\ party_of (ev_call e) <> DockerInit /\
  log_of e = None /\ push_request e = None.
Proof.
  unfold Build_call, log_of, push_request. destruct e as [[] x]; simpl; intros H;
    repeat split; try discriminate; try reflexivity;
    try (destruct H as [H|[H|H]]; discriminate); destruct H.
Qed.

Lemma Push_call_side (X : Externals) (b : Builder) (a : RegistryAuth) (tag : string)
      (e : event) :
  Push_call X b a tag e ->
  party_of (ev_call e) <> AirplaneAPI /\ log_of e = None.
Proof.
  unfold Push_call, log_of. destruct e as [[] x]; simpl; intros H;
    repeat split; try discriminate; try reflexivity; destruct H.
Qed.

Lemma side_no_logs (t : list event) :
  Forall (fun e => log_of e = None) t -> omap log_of t = [].
Proof.
  induction 1 as [|e t He _ IH]; [reflexivity|]. simpl. rewrite He. exact IH.
Qed.

(** What is known of the calls of [Build] inside [Local]. *)
Lemma Build_can_run_side (X : Externals) (b : Builder) (a : RegistryAuth)
      (taskID version : string) (t : list event) (r : outcome (result BuildOutput)) :
  auth b = Some a ->
  can_run (Build X b taskID version) t r ->
  Forall (fun e => party_of (ev_call e) <> AirplaneAPI /\
                   party_of (ev_call e) <> DockerInit /\
                   log_of e = None /\ push_request e = None) t /\
  forall q, r = Panics q -> sanitizeTaskID (lowerTable X) taskID = Panics q /\ t = [].
Proof.
  intros Ha Hrun.
  destruct (sanitizeTaskID (lowerTable X) taskID) as [sid|q] eqn:Hs.
  - destruct (can_run_always _ _ _ _ (Build_always X b a taskID sid version Ha Hs) Hrun)
      as ([v ->] & Hcalls & _).
    split; [|discriminate].
    eapply Forall_impl; [exact Hcalls|]. intros e. apply Build_call_side.
  - revert Hrun. unfold Build. rewrite Ha, Hs. simpl. intros [-> ->].
    split; [constructor|]. intros q' [= <-]. auto.
Qed.

(** X10. The lines that [Local] logs tell how far it got.  With no line
    logged it returned an error and made calls to the API and to create the
    Docker client only; with Building... alone it made no push request and
    either returned an error wrapped as build, or panicked in the sanitizer
    of the task ID, before any call of the build; with Building... and
    Pushing... it returned nil or an error wrapped as push.  In every run
    all the calls to the API come before all the other calls. *)
Theorem Local_progress_lines {W : Type} (X : Externals) (h : handler W) (w : W)
        (dir : TaskDirectory) (def : Definition_) (taskID : string) :
  let t := trace_of (run h (Local X dir def taskID) w) in
  let r := outcome_of (run h (Local X dir def taskID) w) in
  (exists api rest,
     t = api ++ rest /\
     Forall (fun e => party_of (ev_call e) = AirplaneAPI) api /\
     Forall (fun e => party_of (ev_call e) <> AirplaneAPI) rest) /\
  ((omap log_of t = [] /\
    (exists e, r = Val (Some e)) /\
    Forall (fun e => party_of (ev_call e) = AirplaneAPI \/
                     party_of (ev_call e) = DockerInit) t) \/
   (omap log_of t = ["Building..."] /\
    Forall (fun e => push_request e = None) t /\
    ((exists q, r = Panics q /\ sanitizeTaskID (lowerTable X) taskID = Panics q /\
                exists before, t = before ++ [Event (LoggerLog "Building...") tt]) \/
     (exists e, r = Val (Some (Wrapf e "build" []))))) \/
   (omap log_of t = ["Building..."; "Pushing..."] /\
    (r = Val None \/ exists e, r = Val (Some (Wrapf e "push" []))))).
Proof.
  intros t r.
  pose proof (Local_can_run X dir def taskID _ _ (run_can_run h _ w)) as Hruns.
  fold t r in Hruns.
  destruct Hruns as [(e & -> & ->)|(registry & tenv & renv & Henv & Hruns)].
  { split.
    - exists [Event GetRegistryToken (Err e)], [].
      split; [reflexivity|]. split; [|constructor].
      constructor; [reflexivity | constructor].
    - left. split; [reflexivity|]. split; [eauto|].
      constructor; [left; reflexivity | constructor]. }
  cbv zeta in Hruns.
  destruct (can_run_always _ _ _ _ (getBuildEnv_loop_lookups X _ ∅) Henv)
    as [[more Hmore] _].
  apply lookups_are_api in Hmore.
  assert (Hhead : Forall (fun e => party_of (ev_call e) = AirplaneAPI)
                         (Event GetRegistryToken (Ok registry) :: tenv)).
  { constructor; [reflexivity | exact Hmore]. }
  assert (Hquiet : omap log_of (Event GetRegistryToken (Ok registry) :: tenv) = []).
  { apply api_no_logs, Hhead. }
  set (head := Event GetRegistryToken (Ok registry) :: tenv) in *.
  assert (Hstopped : forall e, t = head -> r = Val (Some e) ->
            (exists api rest,
               t = api ++ rest /\
               Forall (fun e => party_of (ev_call e) = AirplaneAPI) api /\
               Forall (fun e => party_of (ev_call e) <> AirplaneAPI) rest) /\
            ((omap log_of t = [] /\
              (exists e, r = Val (Some e)) /\
              Forall (fun e => party_of (ev_call e) = AirplaneAPI \/
                               party_of (ev_call e) = DockerInit) t) \/
             (omap log_of t = ["Building..."] /\
              Forall (fun e => push_request e = None) t /\
              ((exists q, r = Panics q /\
                          sanitizeTaskID (lowerTable X) taskID = Panics q /\
                          exists before,
                            t = before ++ [Event (LoggerLog "Building...") tt]) \/
               (exists e, r = Val (Some (Wrapf e "build" []))))) \/
             (omap log_of t = ["Building..."; "Pushing..."] /\
              (r = Val None \/ exists e, r = Val (Some (Wrapf e "push" [])))))).
  { intros e -> ->. split.
    - exists head, []. rewrite app_nil_r. split; [reflexivity|]. split; [exact Hhead | constructor].
    - left. split; [exact Hquiet|]. split; [eauto|].
      eapply Forall_impl; [exact Hhead|]. cbv beta. auto. }
  destruct renv as [buildEnv|e]; [|destruct Hruns as [Ht Hr]; exact (Hstopped e Ht Hr)].
  destruct (GetKindAndOptions def) as [[kind options]|e];
    [|destruct Hruns as [Ht Hr]; exact (Hstopped e Ht Hr)].
  clear Hstopped.
  destruct Hruns as (tnew & rnew & Hnew & Hruns).
  pose proof (can_run_always _ _ _ _ (New_always X _) Hnew) as (_ & Hinit & _ & Hb).
  assert (Hnew_side : Forall (fun e => party_of (ev_call e) = DockerInit) tnew).
  { eapply Forall_impl; [exact Hinit|]. cbv beta. intros e ->. reflexivity. }
  assert (Hnew_quiet : Forall (fun e => log_of e = None) tnew).
  { eapply Forall_impl; [exact Hinit|]. cbv beta. unfold log_of. intros e ->. reflexivity. }
  assert (Hnew_ask : Forall (fun e => push_request e = None) tnew).
  { eapply Forall_impl; [exact Hinit|]. cbv beta. unfold push_request. intros e ->. reflexivity. }
  assert (Hhead_ask : Forall (fun e => push_request e = None) head).
  { eapply Forall_impl; [exact Hhead|]. cbv beta. unfold push_request.
    intros [c x] He. destruct c; try discriminate He; reflexivity. }
  destruct rnew as [b|e].
  2: { destruct Hruns as [Ht Hr]. rewrite Ht, Hr. split.
       - exists head, tnew. split; [reflexivity|]. split; [exact Hhead|].
         eapply Forall_impl; [exact Hnew_side|]. cbv beta. intros e' ->. discriminate.
       - left. rewrite omap_app, Hquiet, (side_no_logs _ Hnew_quiet).
         split; [reflexivity|]. split; [eauto|].
         apply Forall_app_2;
           [eapply Forall_impl; [exact Hhead|] | eapply Forall_impl; [exact Hnew_side|]];
           cbv beta; auto. }
  destruct (Hb b eq_refl) as (_ & _ & _ & _ & _ & Hauth & _). simpl in Hauth.
  destruct Hruns as (tbuild & rbuild & Hbuild & Hruns). cbv zeta in Hruns.
  destruct (Build_can_run_side X b _ taskID "latest" _ _ Hauth Hbuild) as [Hside Hpanic].
  assert (Hrest : Forall (fun e => party_of (ev_call e) <> AirplaneAPI)
                         (tnew ++ Event (LoggerLog "Building...") tt :: tbuild)).
  { apply Forall_app_2.
    - eapply Forall_impl; [exact Hnew_side|]. cbv beta. intros e' ->. discriminate.
    - constructor; [discriminate|].
      eapply Forall_impl; [exact Hside|]. cbv beta. tauto. }
  assert (Hlogs : omap log_of (head ++ tnew ++ Event (LoggerLog "Building...") tt :: tbuild)
                  = ["Building..."]).
  { rewrite !omap_app, Hquiet, (side_no_logs _ Hnew_quiet). simpl.
    rewrite side_no_logs; [reflexivity|].
    eapply Forall_impl; [exact Hside|]. cbv beta. tauto. }
  assert (Hask : Forall (fun e => push_request e = None)
                        (head ++ tnew ++ Event (LoggerLog "Building...") tt :: tbuild)).
  { apply Forall_app_2; [exact Hhead_ask|]. apply Forall_app_2; [exact Hnew_ask|].
    constructor; [reflexivity|].
    eapply Forall_impl; [exact Hside|]. cbv beta. tauto. }
  destruct rbuild as [[bo|e]|q].
  - destruct Hruns as (tpush & rpush & Hpush & Ht & Hr). rewrite Ht, Hr.
    pose proof (can_run_always _ _ _ _ (Push_always X b _ (Tag bo) Hauth) Hpush)
      as [_ Hcalls].
    assert (Hpush_side : Forall (fun e => party_of (ev_call e) <> AirplaneAPI /\
                                          log_of e = None) tpush).
    { eapply Forall_impl; [exact Hcalls|]. intros e. apply Push_call_side. }
    split.
    + exists head, ((tnew ++ Event (LoggerLog "Building...") tt :: tbuild)
                    ++ Event (LoggerLog "Pushing...") tt :: tpush).
      split; [rewrite <- !app_assoc; reflexivity|]. split; [exact Hhead|].
      apply Forall_app_2; [exact Hrest|]. constructor; [discriminate|].
      eapply Forall_impl; [exact Hpush_side|]. cbv beta. tauto.
    + right. right. split.
      * rewrite omap_app, Hlogs. simpl. rewrite side_no_logs; [reflexivity|].
        eapply Forall_impl; [exact Hpush_side|]. cbv beta. tauto.
      * destruct rpush as [e|]; eauto.
  - destruct Hruns as [Ht Hr]. rewrite Ht, Hr. split.
    + exists head, (tnew ++ Event (LoggerLog "Building...") tt :: tbuild). auto.
    + right. left. split; [exact Hlogs|]. split; [exact Hask|]. right. eauto.
  - destruct Hruns as [Ht Hr]. rewrite Ht, Hr. split.
    + exists head, (tnew ++ Event (LoggerLog "Building...") tt :: tbuild). auto.
    + right. left. split; [exact Hlogs|]. split; [exact Hask|]. left.
      destruct (Hpanic q eq_refl) as [Hs ->].
      exists q. split; [reflexivity|]. split; [exact Hs|].
      exists (head ++ tnew). rewrite <- app_assoc. reflexivity.
Qed.

(** *** Every run of the Python generator *)

Lemma python_runs_always (X : Externals) (root : string) (args : option (gmap string string)) :
  let entrypoint := args_get args "entrypoint" in
  let main := filepath_Join X root entrypoint in
  let reqs := filepath_Join X root "requirements.txt" in
  let with_shim := String.eqb (args_get args "shim") "true" in
  always (fun t r =>
            (t = [Event (Stat main) false] /\
             r = Val (Err (MissingFileError (path_Base X main)))) \/
            (t = [Event (Stat main) true] /\
             exists e, r = Val (Err e) /\
                       (GetVersion X NamePython "3" = Err e \/
                        (with_shim = true /\
                         exists cause, e = Wrapf cause "rendering shim" [] /\
                                       PythonShim X entrypoint = Err e))) \/
            (exists base hasreqs,
               t = [Event (Stat main) true; Event (Stat reqs) hasreqs] /\
               GetVersion X NamePython "3" = Ok base /\
               if with_shim then
                 exists shim, PythonShim X entrypoint = Ok shim /\
                              r = Val (Ok (shim_text base shim hasreqs))
               else r = Val (Ok (legacy_text base entrypoint hasreqs))))
         (python X root args).
Proof.
  cbv zeta. unfold python.
  destruct (String.eqb (args_get args "shim") "true") eqn:Hshim; simpl negb; cbv iota.
  - unfold fsx_AssertExistsAll, fsx_Exists. prog_simpl. intros [|]; prog_simpl.
    2: { left. split; reflexivity. }
    destruct (GetVersion X NamePython "3") as [base|e] eqn:Hv; prog_simpl.
    2: { right. left. split; [reflexivity|]. exists e. auto. }
    destruct (PythonShim X (args_get args "entrypoint")) as [shim|e] eqn:Hrender; prog_simpl.
    2: { right. left. split; [reflexivity|]. exists e. split; [reflexivity|]. right.
         split; [reflexivity|]. revert Hrender. unfold PythonShim.
         destruct (applyTemplate _ _) as [ok|cause]; [discriminate|].
         intros [= <-]. exists cause. split; reflexivity. }
    intros hasreqs. destruct hasreqs; simpl.
    all: right; right; eexists base, _.
    all: split; [reflexivity|]; split; [reflexivity|]; exists shim.
    all: split; reflexivity.
  - unfold pythonLegacy, fsx_AssertExistsAll. prog_simpl. intros [|]; prog_simpl.
    2: { left. split; reflexivity. }
    destruct (GetVersion X NamePython "3") as [base|e] eqn:Hv; prog_simpl.
    2: { right. left. split; [reflexivity|]. exists e. auto. }
    intros hasreqs. destruct hasreqs; simpl.
    all: right; right; eexists base, _.
    all: split; [reflexivity|]; split; reflexivity.
Qed.

(** X11. Every run of the Python generator is one of three.  It asks for
    the entrypoint under the root first: if it is missing, that is the only
    call and the result is the missing-file error for it.  If the version
    lookup of the base image fails, or with the shim on the shim cannot be
    rendered, it returns that error (the shim's wrapped as rendering shim)
    without looking for requirements.txt.  Otherwise it asks for
    requirements.txt and returns a recipe: with the shim on (the option
    shim being exactly true) the one that writes the embedded shim, installs
    the dependencies only when requirements.txt exists, and starts the
    shim; with the shim off the one that creates an empty requirements.txt
    only when the file is missing, always installs from it, and starts the
    entrypoint under /airplane. *)
Theorem python_runs {W : Type} (X : Externals) (h : handler W) (w : W)
        (root : string) (args : option (gmap string string)) :
  let entrypoint := args_get args "entrypoint" in
  let main := filepath_Join X root entrypoint in
  let reqs := filepath_Join X root "requirements.txt" in
  let with_shim := String.eqb (args_get args "shim") "true" in
  let t := trace_of (run h (python X root args) w) in
  let r := outcome_of (run h (python X root args) w) in
  (t = [Event (Stat main) false] /\
   r = Val (Err (MissingFileError (path_Base X main)))) \/
  (t = [Event (Stat main) true] /\
   exists e, r = Val (Err e) /\
             (GetVersion X NamePython "3" = Err e \/
              (with_shim = true /\
               exists cause, e = Wrapf cause "rendering shim" [] /\
                             PythonShim X entrypoint = Err e))) \/
  (exists base hasreqs,
     t = [Event (Stat main) true; Event (Stat reqs) hasreqs] /\
     GetVersion X NamePython "3" = Ok base /\
     if with_shim then
       exists shim, PythonShim X entrypoint = Ok shim /\
                    r = Val (Ok (shim_text base shim hasreqs))
     else r = Val (Ok (legacy_text base entrypoint hasreqs))).
Proof.
  intros entrypoint main reqs with_shim t r.
  exact (run_always h _ w _ (python_runs_always X root args)).
Qed.

(** The texts of the recipes name their steps. *)
Lemma recipe_steps (base shim : string) :
  shim_text base shim false = shim_recipe base shim /\
  legacy_text base "main.py" true = legacy_recipe base /\
  strings_Contains (install_step true) "RUN pip install -r requirements.txt" = true /\
  strings_Contains (empty_requirements_step false) "RUN echo > requirements.txt" = true.
Proof. repeat split; reflexivity. Qed.

(** *** Task definitions *)
Section DefinitionFacts.

Import definitions.

Variable Object : Type.
Variable KindDefinition : TaskKind -> Type.
Variable zero : forall k, KindDefinition k.
Variable Decode_options :
  forall k, KindOptions Object -> KindDefinition k -> result (KindDefinition k).
Variable Decode_struct : forall k, KindDefinition k -> result (KindOptions Object).
Variable json_Marshal : any Object -> result string.
Variable Revision : Type.
Variable kind_name : TaskKind -> string.

Local Abbreviation Def := (Definition_0_2 KindDefinition Revision).
Local Abbreviation kind_and_options :=
  (GetKindAndOptions Object KindDefinition Decode_struct json_Marshal Revision).
Local Abbreviation from_task :=
  (NewDefinitionFromTask Object KindDefinition zero Decode_options Revision kind_name).

Lemma GetKindAndOptions_first_set_aux (def : Def) :
  (forall k o,
     kind_and_options def = Ok (k, o) ->
     exists before after,
       precedence = before ++ k :: after /\
       is_set def k = true /\
       Forall (fun k' => is_set def k' = false) before) /\
  (kind_and_options def = Err (Errorf "No kind specified" []) <->
   Forall (fun k => is_set def k = false) precedence).
Proof.
  unfold GetKindAndOptions, decoded, precedence, is_set.
  destruct def as [slug shared deno dockerfile go image node python shell sql rest].
  cbn [Deno Dockerfile Go Image Node Python Shell SQL REST].
  destruct deno as [d|].
  { split.
    - intros k o. destruct (Decode_struct _ d); intros [= <- <-].
      exists [], (tl precedence). repeat split; constructor.
    - split; [destruct (Decode_struct _ d); discriminate|].
      intros Hall. inversion Hall; discriminate. }
  destruct dockerfile as [d|].
  { split.
    - intros k o. destruct (Decode_struct _ d); intros [= <- <-].
      exists (take 1 precedence), (drop 2 precedence). repeat split; repeat constructor.
    - split; [destruct (Decode_struct _ d); discriminate|].
      intros Hall. do 2 (apply Forall_cons_1 in Hall; destruct Hall as [? Hall]).
      discriminate. }
  destruct image as [d|].
  { split.
    - intros k o [= <- <-].
      exists (take 2 precedence), (drop 3 precedence). repeat split; repeat constructor.
    - split; [discriminate|].
      intros Hall. do 3 (apply Forall_cons_1 in Hall; destruct Hall as [? Hall]).
      discriminate. }
  destruct go as [d|].
  { split.
    - intros k o. destruct (Decode_struct _ d); intros [= <- <-].
      exists (take 3 precedence), (drop 4 precedence). repeat split; repeat constructor.
    - split; [destruct (Decode_struct _ d); discriminate|].
      intros Hall. do 4 (apply Forall_cons_1 in Hall; destruct Hall as [? Hall]).
      discriminate. }
  destruct node as [d|].
  { split.
    - intros k o. destruct (Decode_struct _ d); intros [= <- <-].
      exists (take 4 precedence), (drop 5 precedence). repeat split; repeat constructor.
    - split; [destruct (Decode_struct _ d); discriminate|].
      intros Hall. do 5 (apply Forall_cons_1 in Hall; destruct Hall as [? Hall]).
      discriminate. }
  destruct python as [d|].
  { split.
    - intros k o. destruct (Decode_struct _ d); intros [= <- <-].
      exists (take 5 precedence), (drop 6 precedence). repeat split; repeat constructor.
    - split; [destruct (Decode_struct _ d); discriminate|].
      intros Hall. do 6 (apply Forall_cons_1 in Hall; destruct Hall as [? Hall]).
      discriminate. }
  destruct shell as [d|].
  { split.
    - intros k o. destruct (Decode_struct _ d); intros [= <- <-].
      exists (take 6 precedence), (drop 7 precedence). repeat split; repeat constructor.
    - split; [destruct (Decode_struct _ d); discriminate|].
      intros Hall. do 7 (apply Forall_cons_1 in Hall; destruct Hall as [? Hall]).
      discriminate. }
  destruct sql as [d|].
  { split.
    - intros k o. destruct (Decode_struct _ d); intros [= <- <-].
      exists (take 7 precedence), (drop 8 precedence). repeat split; repeat constructor.
    - split; [destruct (Decode_struct _ d); discriminate|].
      intros Hall. do 8 (apply Forall_cons_1 in Hall; destruct Hall as [? Hall]).
      discriminate. }
  destruct rest as [d|].
  { split.
    - intros k o. destruct (Decode_struct _ d) as [options|]; [|discriminate].
      destruct (rest_options _ _ options); intros [= <- <-].
      exists (take 8 precedence), []. repeat split; repeat constructor.
    - split.
      + destruct (Decode_struct _ d) as [options|]; [|discriminate].
        unfold rest_options.
        destruct (get options "jsonBody"); try discriminate;
          [|destruct (json_Marshal _); discriminate].
        destruct (get options "formUrlEncodedBody"); try discriminate.
        destruct (get options "formDataBody"); discriminate.
      + intros Hall. do 9 (apply Forall_cons_1 in Hall; destruct Hall as [? Hall]).
        discriminate. }
  split; [discriminate|]. split; [intros _; repeat constructor | reflexivity].
Qed.

(** X12. [GetKindAndOptions] looks at the pointers of a definition in the
    order Deno, Dockerfile, Image, Go, Node, Python, Shell, SQL, REST: the
    kind it returns is one that is set, with every kind before it in this
    order not set, whatever else is set after it; it fails with No kind
    specified exactly when no kind is set. *)
Theorem GetKindAndOptions_first_set (def : Def) :
  (forall k o,
     kind_and_options def = Ok (k, o) ->
     exists before after,
       precedence = before ++ k :: after /\
       is_set def k = true /\
       Forall (fun k' => is_set def k' = false) before) /\
  (kind_and_options def = Err (Errorf "No kind specified" []) <->
   Forall (fun k => is_set def k = false) precedence).
Proof. exact (GetKindAndOptions_first_set_aux def). Qed.

(** The kinds that [Validate] counts. *)
Lemma counted_kinds (def : Def) :
  length (defined_kinds def)
  = length (filter (fun k => is_set def k = true)
                   [TaskKindDeno; TaskKindDockerfile; TaskKindImage; TaskKindGo;
                    TaskKindNode; TaskKindPython; TaskKindSQL; TaskKindREST]).
Proof.
  destruct def as [slug shared deno dockerfile go image node python shell sql rest].
  unfold defined_kinds, is_set.
  cbn [Deno Dockerfile Go Image Node Python Shell SQL REST].
  destruct deno, dockerfile, go, image, node, python, sql, rest; reflexivity.
Qed.

Lemma Validate_verdict (def : Def) :
  (snd (Validate def) = None <->
   Slug def <> "" /\
   length (filter (fun k => is_set def k = true)
                  [TaskKindDeno; TaskKindDockerfile; TaskKindImage; TaskKindGo;
                   TaskKindNode; TaskKindPython; TaskKindSQL; TaskKindREST]) = 1%nat) /\
  fst (Validate def) = def.
Proof.
  split.
  - rewrite <- counted_kinds. unfold Validate.
    destruct (String.eqb_spec (Slug def) "") as [Hs|Hs].
    { split; [discriminate | tauto]. }
    cbv zeta. destruct (length (defined_kinds def)) as [|[|n]]; simpl.
    + split; [discriminate | intros [_ [=]]].
    + tauto.
    + split; [discriminate | intros [_ [=]]].
  - unfold Validate. destruct (String.eqb _ _); [reflexivity|]. cbv zeta.
    destruct (Nat.eqb _ _); [reflexivity|]. destruct (Nat.ltb _ _); reflexivity.
Qed.

(** X13. [Validate] returns the definition it was given, and it accepts a
    definition exactly when the slug is not empty and exactly one of the
    kinds Deno, Dockerfile, Image, Go, Node, Python, SQL and REST is set.
    The Shell pointer is not looked at: setting or clearing it changes no
    verdict, so a definition with no kind but Shell is refused with No task
    type defined although [GetKindAndOptions] does not fail with No kind
    specified on it. *)
Theorem Validate_counts_all_but_shell (def : Def) :
  fst (Validate def) = def /\
  (snd (Validate def) = None <->
   Slug def <> "" /\
   length (filter (fun k => is_set def k = true)
                  [TaskKindDeno; TaskKindDockerfile; TaskKindImage; TaskKindGo;
                   TaskKindNode; TaskKindPython; TaskKindSQL; TaskKindREST]) = 1%nat) /\
  (forall sh, snd (Validate (with_Shell def sh)) = snd (Validate def)) /\
  (forall sh,
     Slug def <> "" ->
     Forall (fun k => is_set def k = false)
            [TaskKindDeno; TaskKindDockerfile; TaskKindImage; TaskKindGo;
             TaskKindNode; TaskKindPython; TaskKindSQL; TaskKindREST] ->
     snd (Validate (with_Shell def (Some sh)))
     = Some (Errorf "No task type defined" []) /\
     kind_and_options (with_Shell def (Some sh))
     <> Err (Errorf "No kind specified" [])).
Proof.
  split; [|split; [|split]].
  - apply Validate_verdict.
  - apply Validate_verdict.
  - intros sh. unfold Validate. cbn [with_Shell Slug].
    change (defined_kinds (with_Shell def sh)) with (defined_kinds def).
    destruct (String.eqb _ _); [reflexivity|]. cbv zeta.
    destruct (Nat.eqb _ _); [reflexivity|]. destruct (Nat.ltb _ _); reflexivity.
  - intros sh Hs Hnone. split.
    + unfold Validate. cbn [with_Shell Slug].
      destruct (String.eqb_spec (Slug def) "") as [He|_]; [contradiction|].
      cbv zeta.
      replace (length (defined_kinds (with_Shell def (Some sh)))) with 0%nat;
        [reflexivity|].
      change (defined_kinds (with_Shell def (Some sh)))
        with (defined_kinds def).
      rewrite counted_kinds. clear Hs. revert Hnone.
      destruct def as [slug shared deno dockerfile go image node python shell sql rest].
      unfold is_set. cbn [Deno Dockerfile Go Image Node Python Shell SQL REST].
      intros Hall. repeat (apply Forall_cons_1 in Hall; destruct Hall as [? Hall]).
      destruct deno, dockerfile, go, image, node, python, sql, rest;
        try discriminate; reflexivity.
    + intros Hnokind.
      apply (proj2 (GetKindAndOptions_first_set_aux _)) in Hnokind.
      unfold precedence in Hnokind.
      do 6 (apply Forall_cons_1 in Hnokind; destruct Hnokind as [_ Hnokind]).
      apply Forall_cons_1 in Hnokind. destruct Hnokind as [Hshell _].
      discriminate Hshell.
Qed.

(** A definition made from a task has the pointer of the task's kind set
    and no other. *)
Lemma NewDefinitionFromTask_sets_kind (task : Task Object Revision) (def : Def) :
  from_task task = Ok def ->
  Slug def = task_Slug task /\
  Shared def = task_Shared task /\
  forall k, is_set def k = true <-> k = task_Kind task.
Proof.
  unfold NewDefinitionFromTask. cbv zeta.
  destruct (task_Kind task) eqn:Hkind;
    try (destruct (decode_kind _ _ _ _ _ _ task) as [d|e]; [|discriminate]);
    intros [= <-]; try discriminate;
    (split; [reflexivity|]); (split; [reflexivity|]);
    intros k; unfold is_set; cbn [Deno Dockerfile Go Image Node Python Shell SQL REST];
    destruct k; split; (discriminate || reflexivity).
Qed.

(** X14. A definition that [NewDefinitionFromTask] makes from a task keeps
    the task's slug and has the pointer of the task's kind set and no other;
    [GetKindAndOptions] on it returns the task's kind whenever it returns
    one, and never fails with No kind specified; [Validate] accepts it
    exactly when the slug is not empty and the kind is not the shell kind.
    A task of a kind outside the nine named ones yields no definition. *)
Theorem NewDefinitionFromTask_round_trip (task : Task Object Revision) (def : Def) :
  from_task task = Ok def ->
  Slug def = task_Slug task /\
  (forall k, is_set def k = true <-> k = task_Kind task) /\
  (forall k o, kind_and_options def = Ok (k, o) -> k = task_Kind task) /\
  kind_and_options def <> Err (Errorf "No kind specified" []) /\
  (snd (Validate def) = None <->
   task_Slug task <> "" /\ task_Kind task <> TaskKindShell) /\
  (forall name, task_Kind task <> TaskKindOther name).
Proof.
  intros Hdef.
  destruct (NewDefinitionFromTask_sets_kind task def Hdef) as (Hslug & _ & Hset).
  destruct (GetKindAndOptions_first_set_aux def) as [Hfirst Hnone].
  split; [exact Hslug|]. split; [exact Hset|]. split; [|split; [|split]].
  - intros k o Hk. destruct (Hfirst k o Hk) as (_ & _ & _ & Hk' & _).
    apply Hset. exact Hk'.
  - intros Hno. apply Hnone in Hno. rewrite Forall_forall in Hno.
    assert (Hin : task_Kind task ∈ precedence).
    { revert Hdef. unfold NewDefinitionFromTask, precedence.
      destruct (task_Kind task); try discriminate; intros _;
        repeat first [ apply list_elem_of_here | apply list_elem_of_further ]. }
    specialize (Hno _ Hin). rewrite (proj2 (Hset _) eq_refl) in Hno. discriminate.
  - destruct (Validate_verdict def) as [Hverdict _]. rewrite Hverdict, Hslug.
    assert (Hcount :
              length (filter (fun k => is_set def k = true)
                             [TaskKindDeno; TaskKindDockerfile; TaskKindImage; TaskKindGo;
                              TaskKindNode; TaskKindPython; TaskKindSQL; TaskKindREST])
              = match task_Kind task with TaskKindShell => 0%nat | _ => 1%nat end).
    { revert Hdef. unfold NewDefinitionFromTask. cbv zeta.
      destruct (task_Kind task) eqn:Hkind;
        try (destruct (decode_kind _ _ _ _ _ _ task) as [d|e]; [|discriminate]);
        intros [= <-]; try discriminate; reflexivity. }
    rewrite Hcount. destruct (task_Kind task);
      first [ split; [intros [_ [=]] | intros [_ Hne]; congruence]
            | split; [intros [Hs _]; split; [exact Hs | discriminate] | tauto] ].
  - intros name Hother. revert Hdef. unfold NewDefinitionFromTask. rewrite Hother.
    discriminate.
Qed.

(** The options of a REST definition after [rest_options]. *)
Lemma rest_options_cases (options o' : KindOptions Object) :
  rest_options Object json_Marshal options = Ok o' ->
  (exists s,
     (get options "jsonBody" = Str s \/
      exists o, get options "jsonBody" = Obj o /\ json_Marshal (Obj o) = Ok s) /\
     o' = delete "jsonBody"
                 (<["bodyType" := Str "json"]> (<["body" := Str s]> options))) \/
  (get options "jsonBody" = Nil /\
   get options "formUrlEncodedBody" <> Nil /\
   o' = delete "formUrlEncodedBody"
               (<["bodyType" := Str "x-www-form-urlencoded"]>
                  (<["formData" := get options "formUrlEncodedBody"]> options))) \/
  (get options "jsonBody" = Nil /\
   get options "formUrlEncodedBody" = Nil /\
   get options "formDataBody" <> Nil /\
   o' = delete "formDataBody"
               (<["bodyType" := Str "form-data"]>
                  (<["formData" := get options "formDataBody"]> options))) \/
  (get options "jsonBody" = Nil /\
   get options "formUrlEncodedBody" = Nil /\
   get options "formDataBody" = Nil /\
   o' = <["bodyType" := Str "raw"]> options).
Proof.
  unfold rest_options.
  destruct (get options "jsonBody") as [|s|o] eqn:Hjson.
  - destruct (get options "formUrlEncodedBody") as [|s|o] eqn:Hurl.
    + destruct (get options "formDataBody") as [|s|o] eqn:Hform;
        intros [= <-].
      * right. right. right. auto.
      * right. right. left. repeat split; discriminate || reflexivity.
      * right. right. left. repeat split; discriminate || reflexivity.
    + intros [= <-]. right. left. repeat split; discriminate || reflexivity.
    + intros [= <-]. right. left. repeat split; discriminate || reflexivity.
  - intros [= <-]. left. exists s. auto.
  - destruct (json_Marshal (Obj o)) as [s|e] eqn:Hm; [|discriminate].
    intros [= <-]. left. exists s. split; [right; eauto | reflexivity].
Qed.

(** X15. The options that [GetKindAndOptions] returns for a REST definition
    always carry a body type, one of json, x-www-form-urlencoded, form-data
    and raw, chosen by the first of the keys jsonBody, formUrlEncodedBody
    and formDataBody that is not nil in the decoded options (raw when none
    is).  The chosen key is removed; for json the body is stored under body
    as a string, marshalled when it was not one; for the two form types the
    value is stored under formData.  Keys other than these six are left as
    decoded. *)
Theorem GetKindAndOptions_rest_body_type (def : Def) (o' : KindOptions Object) :
  kind_and_options def = Ok (TaskKindREST, o') ->
  exists d options,
    REST def = Some d /\
    Decode_struct TaskKindREST d = Ok options /\
    (forall k, k ∉ ["body"; "bodyType"; "formData"; "jsonBody"; "formUrlEncodedBody";
                    "formDataBody"] -> o' !! k = options !! k) /\
    ((o' !! "bodyType" = Some (Str "json") /\
      get options "jsonBody" <> Nil /\
      o' !! "jsonBody" = None /\
      exists s, o' !! "body" = Some (Str s) /\
                (get options "jsonBody" = Str s \/
                 exists o, get options "jsonBody" = Obj o /\
                           json_Marshal (Obj o) = Ok s)) \/
     (o' !! "bodyType" = Some (Str "x-www-form-urlencoded") /\
      get options "jsonBody" = Nil /\
      get options "formUrlEncodedBody" <> Nil /\
      o' !! "formUrlEncodedBody" = None /\
      o' !! "formData" = Some (get options "formUrlEncodedBody")) \/
     (o' !! "bodyType" = Some (Str "form-data") /\
      get options "jsonBody" = Nil /\
      get options "formUrlEncodedBody" = Nil /\
      get options "formDataBody" <> Nil /\
      o' !! "formDataBody" = None /\
      o' !! "formData" = Some (get options "formDataBody")) \/
     (o' = <["bodyType" := Str "raw"]> options /\
      get options "jsonBody" = Nil /\
      get options "formUrlEncodedBody" = Nil /\
      get options "formDataBody" = Nil)).
Proof.
  intros Hk.
  destruct (proj1 (GetKindAndOptions_first_set_aux def) _ _ Hk) as (_ & _ & _ & Hset & _).
  unfold is_set in Hset. destruct (REST def) as [d|] eqn:Hrest; [|discriminate].
  assert (Hopts : exists options,
             Decode_struct TaskKindREST d = Ok options /\
             rest_options Object json_Marshal options = Ok o').
  { revert Hk. unfold GetKindAndOptions, decoded. rewrite Hrest.
    repeat match goal with
           | |- context [match ?f _ _ def with Some _ => _ | None => _ end] =>
               destruct (f _ _ def)
           | |- context [match Decode_struct ?k ?x with Ok _ => _ | Err _ => _ end] =>
               destruct (Decode_struct k x)
           end; try discriminate.
    destruct (rest_options _ _ _) eqn:Hro; [|discriminate].
    intros [= <-]. eauto. }
  destruct Hopts as (options & Hdec & Hro).
  exists d, options. split; [reflexivity|]. split; [exact Hdec|].
  apply rest_options_cases in Hro.
  assert (Hkeys : forall k : string,
             k ∉ ["body"; "bodyType"; "formData"; "jsonBody"; "formUrlEncodedBody";
                  "formDataBody"] ->
             k <> "body" /\ k <> "bodyType" /\ k <> "formData" /\ k <> "jsonBody" /\
             k <> "formUrlEncodedBody" /\ k <> "formDataBody").
  { intros k Hk'. repeat split; intros ->; apply Hk';
      repeat first [ apply list_elem_of_here | apply list_elem_of_further ]. }
  destruct Hro as [(s & Hs & ->)|[(Hj & Hu & ->)|[(Hj & Hu & Hf & ->)|(Hj & Hu & Hf & ->)]]].
  - split.
    { intros k Hk'. destruct (Hkeys k Hk') as (? & ? & ? & ? & ? & ?).
      rewrite lookup_delete_ne, !lookup_insert_ne by congruence. reflexivity. }
    left. split; [|split; [|split]].
    + rewrite lookup_delete_ne, lookup_insert_eq by discriminate. reflexivity.
    + destruct Hs as [->|(o & -> & _)]; discriminate.
    + apply lookup_delete_eq.
    + exists s. split; [|exact Hs].
      rewrite lookup_delete_ne, lookup_insert_ne, lookup_insert_eq by discriminate.
      reflexivity.
  - split.
    { intros k Hk'. destruct (Hkeys k Hk') as (? & ? & ? & ? & ? & ?).
      rewrite lookup_delete_ne, !lookup_insert_ne by congruence. reflexivity. }
    right. left. split; [|split; [exact Hj|split; [exact Hu|split]]].
    + rewrite lookup_delete_ne, lookup_insert_eq by discriminate. reflexivity.
    + apply lookup_delete_eq.
    + rewrite lookup_delete_ne, lookup_insert_ne, lookup_insert_eq by discriminate.
      reflexivity.
  - split.
    { intros k Hk'. destruct (Hkeys k Hk') as (? & ? & ? & ? & ? & ?).
      rewrite lookup_delete_ne, !lookup_insert_ne by congruence. reflexivity. }
    right. right. left.
    split; [|split; [exact Hj|split; [exact Hu|split; [exact Hf|split]]]].
    + rewrite lookup_delete_ne, lookup_insert_eq by discriminate. reflexivity.
    + apply lookup_delete_eq.
    + rewrite lookup_delete_ne, lookup_insert_ne, lookup_insert_eq by discriminate.
      reflexivity.
  - split.
    { intros k Hk'. destruct (Hkeys k Hk') as (? & ? & ? & ? & ? & ?).
      rewrite lookup_insert_ne by congruence. reflexivity. }
    right. right. right. auto.
Qed.

(** *** The entrypoint of a definition *)

Variable set_Entrypoint : forall k, KindDefinition k -> string -> KindDefinition k.
Variable pathcase_ActualFilename : string -> result string.
Variable filepath_Rel : string -> string -> result string.
Variable filepath_Base : string -> string.

Local Abbreviation kind :=
  (kind_of Object KindDefinition Decode_struct json_Marshal Revision).
Local Abbreviation set_entrypoint :=
  (SetEntrypoint Object KindDefinition Decode_struct json_Marshal Revision kind_name
                 set_Entrypoint pathcase_ActualFilename filepath_Rel filepath_Base).

Lemma kind_of_first_set (def : Def) (k : TaskKind) :
  kind def = k ->
  k <> TaskKindOther "" ->
  exists o before after,
    kind_and_options def = Ok (k, o) /\
    precedence = before ++ k :: after /\
    is_set def k = true /\
    Forall (fun k' => is_set def k' = false) before.
Proof.
  unfold kind_of. intros Hk Hne.
  destruct (kind_and_options def) as [[k' o]|e] eqn:Hget; [|congruence].
  subst k'.
  destruct (proj1 (GetKindAndOptions_first_set_aux def) k o Hget)
    as (before & after & Hprec & Hset & Hbefore).
  exists o, before, after. auto.
Qed.

Lemma is_set_with_Node (def : Def) (d : KindDefinition TaskKindNode) (k : TaskKind) :
  is_set def TaskKindNode = true -> is_set (with_Node def (Some d)) k = is_set def k.
Proof. destruct k; simpl; try reflexivity. intros ->. reflexivity. Qed.

Lemma is_set_with_Python (def : Def) (d : KindDefinition TaskKindPython) (k : TaskKind) :
  is_set def TaskKindPython = true -> is_set (with_Python def (Some d)) k = is_set def k.
Proof. destruct k; simpl; try reflexivity. intros ->. reflexivity. Qed.

Lemma is_set_with_Shell (def : Def) (d : KindDefinition TaskKindShell) (k : TaskKind) :
  is_set def TaskKindShell = true -> is_set (with_Shell def (Some d)) k = is_set def k.
Proof. destruct k; simpl; try reflexivity. intros ->. reflexivity. Qed.

(** X22. [SetEntrypoint] never dereferences a nil pointer: the struct it
    writes to is the one whose kind [GetKindAndOptions] returned, which is
    set.  It returns nil only when the actual file name and the path
    relative to the task root are found and the first kind set, in the
    order of [GetKindAndOptions], is node, python or shell and decodes;
    then the relative path is written to the entrypoint of that kind and
    nothing else changes, also when a later kind is set as well.  When it
    returns an error the definition is unchanged.  A warning is logged
    exactly when the actual file name differs from the one given. *)
Theorem SetEntrypoint_writes_the_first_kind (def : Def) (taskroot absEntrypoint : string) :
  exists def' warnings err,
    set_entrypoint def taskroot absEntrypoint = Val (def', warnings, err) /\
    (forall k, is_set def' k = is_set def k) /\
    (err <> None -> def' = def) /\
    (err = None ->
     exists actual ep o before after,
       pathcase_ActualFilename absEntrypoint = Ok actual /\
       filepath_Rel taskroot actual = Ok ep /\
       kind_and_options def = Ok (kind def, o) /\
       precedence = before ++ kind def :: after /\
       Forall (fun k => is_set def k = false) before /\
       match kind def with
       | TaskKindNode =>
           exists d, Node def = Some d /\
                     def' = with_Node def (Some (set_Entrypoint TaskKindNode d ep))
       | TaskKindPython =>
           exists d, Python def = Some d /\
                     def' = with_Python def (Some (set_Entrypoint TaskKindPython d ep))
       | TaskKindShell =>
           exists d, Shell def = Some d /\
                     def' = with_Shell def (Some (set_Entrypoint TaskKindShell d ep))
       | _ => False
       end) /\
    (warnings <> [] <->
     exists actual, pathcase_ActualFilename absEntrypoint = Ok actual /\
                    actual <> absEntrypoint).
Proof.
  unfold SetEntrypoint.
  destruct (pathcase_ActualFilename absEntrypoint) as [actual|e].
  2: { eexists _, _, _. split; [reflexivity|]. split; [reflexivity|].
       split; [reflexivity|]. split; [discriminate|].
       split; [congruence | intros (actual & Heq & _); discriminate]. }
  assert (Hwarn : forall w : list (string * list string),
             w = (if negb (String.eqb actual absEntrypoint)
                  then [("Using %q instead of %q - different casing may not work on all operating systems",
                         [filepath_Base actual; filepath_Base absEntrypoint])]
                  else []) ->
             w <> [] <-> exists actual', Ok actual = Ok actual' /\ actual' <> absEntrypoint).
  { intros w ->. destruct (String.eqb_spec actual absEntrypoint) as [->|Hne]; simpl.
    - split; [congruence|]. intros (a & [= <-] & Ha). congruence.
    - split; [eauto | discriminate]. }
  destruct (filepath_Rel taskroot actual) as [ep|e] eqn:Hrel.
  2: { eexists _, _, _. split; [reflexivity|]. split; [reflexivity|].
       split; [reflexivity|]. split; [discriminate|]. apply Hwarn. reflexivity. }
  destruct (kind def) as [| | | | | | | | |name] eqn:Hkind;
    try (eexists _, _, _; split; [reflexivity|]; split; [reflexivity|];
         split; [reflexivity|]; split; [discriminate|]; apply Hwarn; reflexivity).
  - destruct (kind_of_first_set def _ Hkind ltac:(discriminate))
      as (o & before & after & Hget & Hprec & Hset & Hbefore).
    simpl in Hset. destruct (Node def) as [d|] eqn:Hnode; [|discriminate].
    eexists _, _, _. split; [reflexivity|]. split.
    { intros k. apply is_set_with_Node. simpl. rewrite Hnode. reflexivity. }
    split; [congruence|]. split; [|apply Hwarn; reflexivity].
    intros _. exists actual, ep, o, before, after.
    repeat (split; [solve [auto]|]). eauto.
  - destruct (kind_of_first_set def _ Hkind ltac:(discriminate))
      as (o & before & after & Hget & Hprec & Hset & Hbefore).
    simpl in Hset. destruct (Python def) as [d|] eqn:Hpython; [|discriminate].
    eexists _, _, _. split; [reflexivity|]. split.
    { intros k. apply is_set_with_Python. simpl. rewrite Hpython. reflexivity. }
    split; [congruence|]. split; [|apply Hwarn; reflexivity].
    intros _. exists actual, ep, o, before, after.
    repeat (split; [solve [auto]|]). eauto.
  - destruct (kind_of_first_set def _ Hkind ltac:(discriminate))
      as (o & before & after & Hget & Hprec & Hset & Hbefore).
    simpl in Hset. destruct (Shell def) as [d|] eqn:Hshell; [|discriminate].
    eexists _, _, _. split; [reflexivity|]. split.
    { intros k. apply is_set_with_Shell. simpl. rewrite Hshell. reflexivity. }
    split; [congruence|]. split; [|apply Hwarn; reflexivity].
    intros _. exists actual, ep, o, before, after.
    repeat (split; [solve [auto]|]). eauto.
Qed.

(** *** Reading a definition *)

Variable Definition_0_1 : Type.
Variable validateYAML : list Byte.byte -> validation.
Variable validateYAML_0_1 : list Byte.byte -> validation.
Variable yaml_Unmarshal : list Byte.byte -> result Def.
Variable yaml_Unmarshal_0_1 : list Byte.byte -> result Definition_0_1.
Variable upgrade : Definition_0_1 -> Def * option error.
Variable newErrReadDefinition : string -> list string -> error.
Variable zero_Definition : Def.

Local Abbreviation unmarshal :=
  (UnmarshalDefinition KindDefinition Revision Definition_0_1 validateYAML
                       validateYAML_0_1 yaml_Unmarshal yaml_Unmarshal_0_1 upgrade
                       newErrReadDefinition zero_Definition).

(** X23. [UnmarshalDefinition] returns a definition without error in three
    cases only: the buffer is valid for the current schema and unmarshals
    to that definition; or it is not valid for the current schema, is valid
    for the schema before, unmarshals there and upgrades without error to
    that definition; or it is not valid for the current schema, is valid
    for the schema before and does not unmarshal there, and then the
    definition returned is the zero definition, without any error.  An
    error it returns comes with the zero definition and tells of the
    current schema only: what the attempt with the schema before reported
    is dropped. *)
Theorem UnmarshalDefinition_accepts (buf : list Byte.byte) (defPath : string) :
  (forall def,
     unmarshal buf defPath = (def, None) <->
     (validateYAML buf = Valid /\ yaml_Unmarshal buf = Ok def) \/
     (validateYAML buf <> Valid /\ validateYAML_0_1 buf = Valid /\
      ((exists old, yaml_Unmarshal_0_1 buf = Ok old /\ upgrade old = (def, None)) \/
       ((exists e, yaml_Unmarshal_0_1 buf = Err e) /\ def = zero_Definition)))) /\
  (forall def e,
     unmarshal buf defPath = (def, Some e) ->
     def = zero_Definition /\
     match validateYAML buf with
     | Valid =>
         exists e0, yaml_Unmarshal buf = Err e0 /\
                    e = Wrapf e0 "unmarshalling task definition" []
     | Refused _ (ErrInvalidYAML text) =>
         e = newErrReadDefinition
               ("Error reading " +:+ defPath +:+ ", invalid YAML:" +:+ newline
                +:+ "  " +:+ text) []
     | Refused _ (ErrSchemaValidation errors) =>
         e = newErrReadDefinition
               ("Error reading " +:+ defPath)
               (map (fun verr => verr.1 +:+ ": " +:+ verr.2) errors)
     | Refused _ (OtherCause e0) => e = Wrapf e0 "reading %s" [defPath]
     end).
Proof.
  unfold UnmarshalDefinition, tryOlderDefinitions.
  destruct (validateYAML buf) as [|err c].
  { split.
    - intros def. destruct (yaml_Unmarshal buf) as [d|e0]; split.
      + intros [= <-]. left. auto.
      + intros [[_ [= <-]]|[Hne _]]; [reflexivity | congruence].
      + discriminate.
      + intros [[_ Heq]|[Hne _]]; [discriminate | congruence].
    - intros def e. destruct (yaml_Unmarshal buf) as [d|e0]; [discriminate|].
      intros [= <- <-]. eauto. }
  assert (Hfail : forall (def : Def) (e : error),
             match c with
             | ErrInvalidYAML text =>
                 (zero_Definition,
                  Some (newErrReadDefinition
                          ("Error reading " +:+ defPath +:+ ", invalid YAML:" +:+ newline
                           +:+ "  " +:+ text) []))
             | ErrSchemaValidation errors =>
                 (zero_Definition,
                  Some (newErrReadDefinition
                          ("Error reading " +:+ defPath)
                          (map (fun verr => verr.1 +:+ ": " +:+ verr.2) errors)))
             | OtherCause e0 => (zero_Definition, Some (Wrapf e0 "reading %s" [defPath]))
             end = (def, Some e) ->
             def = zero_Definition /\
             match c with
             | ErrInvalidYAML text =>
                 e = newErrReadDefinition
                       ("Error reading " +:+ defPath +:+ ", invalid YAML:" +:+ newline
                        +:+ "  " +:+ text) []
             | ErrSchemaValidation errors =>
                 e = newErrReadDefinition
                       ("Error reading " +:+ defPath)
                       (map (fun verr => verr.1 +:+ ": " +:+ verr.2) errors)
             | OtherCause e0 => e = Wrapf e0 "reading %s" [defPath]
             end).
  { intros def e. destruct c; intros [= <- <-]; auto. }
  assert (Hnone : forall def : Def,
             match c with
             | ErrInvalidYAML text =>
                 (zero_Definition,
                  Some (newErrReadDefinition
                          ("Error reading " +:+ defPath +:+ ", invalid YAML:" +:+ newline
                           +:+ "  " +:+ text) []))
             | ErrSchemaValidation errors =>
                 (zero_Definition,
                  Some (newErrReadDefinition
                          ("Error reading " +:+ defPath)
                          (map (fun verr => verr.1 +:+ ": " +:+ verr.2) errors)))
             | OtherCause e0 => (zero_Definition, Some (Wrapf e0 "reading %s" [defPath]))
             end <> (def, None)).
  { intros def. destruct c; discriminate. }
  destruct (validateYAML_0_1 buf) as [|err1 c1].
  2: { split.
       - intros def. split; [intros Heq; destruct (Hnone _ Heq)|].
         intros [[Heq _]|(_ & Heq & _)]; discriminate.
       - apply Hfail. }
  destruct (yaml_Unmarshal_0_1 buf) as [old|e1].
  2: { split.
       - intros def. split.
         + intros [= <-]. right. split; [discriminate|]. split; [reflexivity|].
           right. eauto.
         + intros [[Heq _]|(_ & _ & [(old & Heq & _)|[_ ->]])];
             [discriminate | discriminate | reflexivity].
       - discriminate. }
  destruct (upgrade old) as [d [e1|]] eqn:Hup.
  - split.
    + intros def. split; [intros Heq; destruct (Hnone _ Heq)|].
      intros [[Heq _]|(_ & _ & [(old' & [= <-] & Heq)|[[e Heq] _]])];
        [discriminate | congruence | discriminate].
    + apply Hfail.
  - split.
    + intros def. split.
      * intros [= <-]. right. split; [discriminate|]. split; [reflexivity|].
        left. eauto.
      * intros [[Heq _]|(_ & _ & [(old' & [= <-] & Heq)|[[e Heq] _]])];
          [discriminate | congruence | discriminate].
    + discriminate.
Qed.

End DefinitionFacts.

Lemma NewDefinitionFromTask_round_trip_witness :
  definitions.Slug sample_task_definition = "echo" /\
  (snd (definitions.Validate sample_task_definition) = None <->
   "echo" <> "" /\ definitions.TaskKindPython <> definitions.TaskKindShell).
Proof.
  pose proof (NewDefinitionFromTask_round_trip
                unit (fun _ => unit) (fun _ => tt) (fun _ _ d => Ok d)
                (fun _ _ => Ok ∅) (fun _ => Ok "") unit (fun _ => "python")
                sample_task sample_task_definition eq_refl)
    as (Hslug & _ & _ & _ & Hvalid & _).
  split; [exact Hslug | exact Hvalid].
Defined.

Lemma GetKindAndOptions_rest_body_type_witness :
  exists options : gmap string (definitions.any unit),
    options !! "method" = Some (definitions.Str "GET") /\
    delete "jsonBody"
           (<["bodyType" := definitions.Str "json"]>
              (<["body" := definitions.Str "{}"]> sample_rest_options)) !! "method"
    = options !! "method".
Proof.
  destruct (GetKindAndOptions_rest_body_type
              unit (fun _ => unit) (fun _ _ => Ok sample_rest_options)
              (fun _ => Ok "null") unit sample_rest_definition
              (delete "jsonBody"
                 (<["bodyType" := definitions.Str "json"]>
                    (<["body" := definitions.Str "{}"]> sample_rest_options)))
              eq_refl)
    as (d & options & _ & Hdec & Hkeep & _).
  injection Hdec as <-.
  exists sample_rest_options. split; [reflexivity|].
  apply Hkeep. intros Hin. apply list_elem_of_In in Hin. simpl in Hin.
  repeat (destruct Hin as [Hin|Hin]; [discriminate Hin|]). exact Hin.
Defined.

(** *** Programs over other collaborators *)

Lemma effects_run_always {call : Type} {answer : call -> Type} {W A : Type}
      (h : forall c : call, W -> answer c * W) (p : effects.prog call answer A) (w : W)
      (P : list (effects.event call answer) -> outcome A -> Prop) :
  effects.always P p -> P (effects.run h p w).1.2 (effects.run h p w).1.1.
Proof.
  revert w P. induction p as [a|q|c k IH]; simpl; intros w P HP; auto.
  destruct (h c w) as [x w1].
  specialize (IH x w1 _ (HP x)).
  destruct (effects.run h (k x) w1) as [[r t] w2]. exact IH.
Qed.

Lemma effects_always_mono {call : Type} {answer : call -> Type} {A : Type}
      (P Q : list (effects.event call answer) -> outcome A -> Prop)
      (p : effects.prog call answer A) :
  (forall t r, P t r -> Q t r) -> effects.always P p -> effects.always Q p.
Proof.
  revert P Q. induction p as [a|q|c k IH]; simpl; intros P Q HPQ HP; auto.
  intros x. eapply IH; [|apply HP]. intros t r. apply HPQ.
Qed.

Lemma effects_always_bind {call : Type} {answer : call -> Type} {A B : Type}
      (p : effects.prog call answer A) (f : A -> effects.prog call answer B)
      (P : list (effects.event call answer) -> outcome B -> Prop) :
  effects.always (fun t r => match r with
                             | Val a => effects.always (fun t' r' => P (t ++ t') r') (f a)
                             | Panics q => P t (Panics q)
                             end) p ->
  effects.always P (effects.bind p f).
Proof.
  revert P. induction p as [a|q|c k IH]; simpl; intros P HP.
  - exact HP.
  - exact HP.
  - intros x. apply IH. apply HP.
Qed.

(** *** The HTTP client *)
Section ClientFacts.

Import api.

Variables Payload Reply : Type.
Variable json_Marshal : Payload -> result string.
Variable decode_reply : Response -> result Reply.
Variable decode_Error : Response -> option string.
Variable http_NewRequest : string -> string -> option error.
Variable version_Get : string.

Local Abbreviation client_do :=
  (do Payload Reply json_Marshal decode_reply decode_Error http_NewRequest version_Get).
Local Abbreviation request_of := (api.request_of version_Get).

(** Every run of [do]. *)
Lemma do_always (c : Client) (method path : string) (payload : option Payload)
      (reply : bool) :
  effects.always
    (fun t r =>
       (t = [] /\ exists e, r = Val (Failed (Other e))) \/
       (exists body resp err,
          (Token_ c <> "" \/ (APIKey c <> "" /\ TeamID c <> "")) /\
          match payload with
          | None => body = None
          | Some p => exists buf, json_Marshal p = Ok buf /\ body = Some buf
          end /\
          t = effects.Event (HttpDo (request_of c method path body)) (resp, err)
              :: match resp with
                 | Some resp => [effects.Event (DrainAndClose (Body_ resp)) tt]
                 | None => []
                 end /\
          r = match err, resp with
              | Some e, _ =>
                  Val (Failed (Other (Wrapf e "api: %s %s" [method; URL (request_of c method path body)])))
              | None, None => Panics NilDereference
              | None, Some resp =>
                  if (400 <=? StatusCode resp) && (StatusCode resp <? 600) then
                    match decode_Error resp with
                    | Some message => Val (Failed (Error_ (StatusCode resp) message))
                    | None =>
                        Val (Failed (Other (Errorf "api: %s %s - %s"
                                              [method; URL (request_of c method path body);
                                               Status resp])))
                    end
                  else if reply then
                    match decode_reply resp with
                    | Ok v => Val (Replied (Some v))
                    | Err e =>
                        Val (Failed (Other (Wrapf e "api: %s %s - decoding json"
                                              [method; URL (request_of c method path body)])))
                    end
                  else Val (Replied None)
              end))
    (client_do c method path payload reply).
Proof.
  unfold do, request_of. cbv zeta.
  assert (Hbody :
            match payload with
            | None => True
            | Some p => forall buf, json_Marshal p = Ok buf ->
                                    exists buf', json_Marshal p = Ok buf' /\ Some buf = Some buf'
            end).
  { destruct payload; [eauto | exact I]. }
  destruct payload as [p|]; [destruct (json_Marshal p) as [buf|e] eqn:Hm|].
  2: { simpl. left. eauto. }
  all: destruct (http_NewRequest _ _); [simpl; left; eauto|].
  all: destruct (String.eqb_spec (Token_ c) "") as [Htok|Htok]; simpl negb; cbv iota;
    [destruct (String.eqb_spec (APIKey c) "") as [Hkey|Hkey]; simpl andb; cbv iota;
     [simpl; left; eauto|];
     destruct (String.eqb_spec (TeamID c) "") as [Hteam|Hteam]; [simpl; left; eauto|]
    | simpl andb; cbv iota ].
  all: simpl; intros x; simpl in x; destruct x as [resp err].
  all: unfold deferred; destruct resp as [resp|], err as [e|]; simpl;
    try (intros u; destruct u).
  all: try (destruct ((400 <=? StatusCode resp) && (StatusCode resp <? 600)) eqn:Hstatus;
            [destruct (decode_Error resp) eqn:Hdecode
            |destruct reply; [destruct (decode_reply resp) eqn:Hreply|]]; simpl).
  all: right.
  all: match goal with
       | |- context [effects.Event (HttpDo ?req) (?resp, ?err)] =>
           exists (Body req), resp, err
       end.
  all: (split; [tauto|]); (split; [simpl; eauto|]); (split; [reflexivity|]); simpl.
  all: rewrite ?Hstatus, ?Hdecode, ?Hreply; reflexivity.
Qed.


(** X17. Whenever the transport returns a response to [do], also together
    with an error, the body of that response is drained and closed, once,
    as the last call; without a response nothing is closed.  [do] returns
    nil only for a response without error whose status is outside 400 to
    599, with the reply decoded from it exactly when a reply was asked for;
    it returns an API error only for a response without error whose status
    is within 400 to 599 and whose body decodes, with that status as its
    code; it panics only when the transport returns neither a response nor
    an error. *)
Theorem do_handles_the_response {W : Type}
        (h : forall c : call, W -> answer c * W) (w : W)
        (c : Client) (method path : string) (payload : option Payload) (reply : bool) :
  let t := (effects.run h (client_do c method path payload reply) w).1.2 in
  let r := (effects.run h (client_do c method path payload reply) w).1.1 in
  (t = [] \/
   exists req resp err,
     t = effects.Event (HttpDo req) (resp, err)
         :: match resp with
            | Some resp => [effects.Event (DrainAndClose (Body_ resp)) tt]
            | None => []
            end) /\
  (forall v,
     r = Val (Replied v) ->
     exists req resp,
       In (effects.Event (HttpDo req) (Some resp, None)) t /\
       (StatusCode resp < 400 \/ 600 <= StatusCode resp) /\
       (if reply then exists x, v = Some x /\ decode_reply resp = Ok x
        else v = None)) /\
  (forall code message,
     r = Val (Failed (Error_ code message)) ->
     exists req resp,
       In (effects.Event (HttpDo req) (Some resp, None)) t /\
       code = StatusCode resp /\ 400 <= code < 600 /\
       decode_Error resp = Some message) /\
  (forall q,
     r = Panics q ->
     exists req, t = [effects.Event (HttpDo req) (None, None)]).
Proof.
  intros t r.
  pose proof (effects_run_always h _ w _ (do_always c method path payload reply)) as Hrun.
  fold t r in Hrun.
  destruct Hrun as [[-> [e ->]]|(body & resp & err & Hcred & Hbody & -> & ->)].
  { split; [auto|]. repeat split; discriminate. }
  split; [right; eauto|].
  destruct err as [e|].
  { repeat split; discriminate. }
  destruct resp as [resp|].
  2: { split; [discriminate|]. split; [discriminate|]. intros q _. eauto. }
  destruct ((400 <=? StatusCode resp) && (StatusCode resp <? 600)) eqn:Hstatus.
  - destruct (decode_Error resp) as [message|] eqn:Hdecode.
    + split; [discriminate|]. split; [|discriminate].
      intros code message' [= <- <-]. eexists _, resp. split; [left; reflexivity|].
      split; [reflexivity|]. split; [lia | exact Hdecode].
    + repeat split; discriminate.
  - assert (Hout : StatusCode resp < 400 \/ 600 <= StatusCode resp) by lia.
    destruct reply.
    + destruct (decode_reply resp) as [x|e] eqn:Hreply.
      * split; [|split; discriminate].
        intros v [= <-]. eexists _, resp. split; [left; reflexivity|]. eauto.
      * repeat split; discriminate.
    + split; [|split; discriminate].
      intros v [= <-]. eexists _, resp. split; [left; reflexivity|]. auto.
Qed.

End ClientFacts.

(** *** Listing runs *)
Section TaskFacts.

Import api.

Variables Payload Task : Type.
Variable json_Marshal : Payload -> result string.
Variable decode_reply : Response -> result Task.
Variable decode_Error : Response -> option string.
Variable http_NewRequest : string -> string -> option error.
Variable version_Get : string.
Variable task_Slug : Task -> string.
Variable set_URL : Task -> string -> Task.
Variable zero_Task : Task.
Variable Encode : gmap string (list string) -> string.
Variable TaskURL : Client -> string -> string.
Variable appURL_String : Client -> string.

Local Abbreviation get_task :=
  (GetTask Payload Task json_Marshal decode_reply decode_Error http_NewRequest
           version_Get task_Slug set_URL zero_Task Encode TaskURL appURL_String).

(** What [GetTask] returns for a response that came without an error. *)
Lemma GetTask_always (c : Client) (slug : string) :
  effects.always
    (fun t r =>
       (t = [] /\ exists e, r = Val (NotFound (Other e))) \/
       (exists resp err,
          t = effects.Event
                (HttpDo (request_of version_Get c "GET"
                                    ("/tasks/get?" +:+ Encode {[ "slug" := [slug] ]}) None))
                (resp, err)
              :: match resp with
                 | Some resp => [effects.Event (DrainAndClose (Body_ resp)) tt]
                 | None => []
                 end /\
          match err, resp with
          | Some e, _ => exists e', r = Val (NotFound (Other e'))
          | None, None => r = Panics NilDereference
          | None, Some resp =>
              if (400 <=? StatusCode resp) && (StatusCode resp <? 600) then
                match decode_Error resp with
                | Some message =>
                    if StatusCode resp =? 404 then
                      r = Val (TaskMissingError (appURL_String c) slug)
                    else r = Val (NotFound (Error_ (StatusCode resp) message))
                | None => exists e', r = Val (NotFound (Other e'))
                end
              else
                match decode_reply resp with
                | Ok v => r = Val (Found (set_URL v (TaskURL c (task_Slug v))))
                | Err _ => exists e', r = Val (NotFound (Other e'))
                end
          end))
    (get_task c slug).
Proof.
  unfold GetTask. cbv zeta. apply effects_always_bind.
  eapply effects_always_mono;
    [|apply (do_always Payload Task json_Marshal decode_reply decode_Error
                       http_NewRequest version_Get c "GET" _ None true)].
  intros t r [[-> [e ->]]|(body & resp & err & Hcred & -> & -> & ->)].
  { simpl. left. eauto. }
  destruct err as [e|].
  { simpl. rewrite app_nil_r. right. exists resp, (Some e).
    split; [reflexivity|]. eauto. }
  destruct resp as [resp|].
  2: { right. exists None, None. split; reflexivity. }
  cbv beta iota.
  destruct ((400 <=? StatusCode resp) && (StatusCode resp <? 600)) eqn:Hstatus.
  - destruct (decode_Error resp) as [message|] eqn:Hdec.
    + cbv beta iota zeta.
      destruct (StatusCode resp =? 404) eqn:H404; cbv beta iota zeta;
        cbn [effects.always]; rewrite app_nil_r;
        right; exists (Some resp), None; (split; [reflexivity|]);
        rewrite Hstatus, Hdec, ?H404; reflexivity.
    + cbv beta iota zeta. cbn [effects.always]. rewrite app_nil_r.
      right. exists (Some resp), None. split; [reflexivity|].
      rewrite Hstatus, Hdec. eauto.
  - destruct (decode_reply resp) as [v|e] eqn:Hdec; cbv beta iota zeta;
      cbn [effects.always]; rewrite app_nil_r;
      right; exists (Some resp), None; (split; [reflexivity|]);
      rewrite Hstatus, Hdec; eauto.
Qed.


End TaskFacts.

Section RunsFacts.

Import api.

Variables Run Time : Type.
Variable IsZero : Time -> bool.
Variable Format : Time -> string.
Variable FormatInt : Z -> string.
Variable Encode : gmap string (list string) -> string.
Variable int_bits : Z.

Local Abbreviation list_runs := (ListRuns Run Time IsZero Format FormatInt Encode int_bits).
Local Abbreviation loop := (ListRuns_loop Run FormatInt Encode int_bits).

(** The loop sets the page before it reads the query. *)
Lemma ListRuns_loop_page (fuel : nat) (limit pageLimit i : Z)
      (q q' : gmap string (list string)) (resp page : list Run) :
  delete "page" q = delete "page" q' ->
  loop fuel limit pageLimit q i resp page = loop fuel limit pageLimit q' i resp page.
Proof.
  intros Hq. destruct fuel as [|fuel]; [reflexivity|]. cbn [ListRuns_loop].
  assert (Hset : <["page" := [FormatInt i]]> q = <["page" := [FormatInt i]]> q').
  { rewrite <- (insert_delete_eq q), <- (insert_delete_eq q'), Hq. reflexivity. }
  rewrite Hset. reflexivity.
Qed.

(** X18. [ListRuns] ignores the page of the request: whatever [req.Page]
    is, it asks for the pages from page 0 on, so two requests that differ
    in the page only make the same calls and return the same. *)
Theorem ListRuns_ignores_page (fuel : nat) (req : ListRunsRequest Time) (page : Z) :
  list_runs fuel {| Page := page; TaskID_ := TaskID_ req; Limit := Limit req;
                    Since := Since req; Until := Until req |}
  = list_runs fuel req /\
  exists q k,
    list_runs (S fuel) req
    = effects.Do (GetRuns ("/runs/list?" +:+ Encode q) []) k /\
    q !! "page" = Some [FormatInt 0].
Proof.
  split.
  - unfold ListRuns. cbn [Page TaskID_ Limit Since Until]. cbv zeta.
    apply ListRuns_loop_page.
    destruct (negb (IsZero (Until req))), (negb (IsZero (Since req))),
      (negb (String.eqb (TaskID_ req) ""));
      repeat (rewrite (delete_insert_ne _ "page") by discriminate);
      rewrite !delete_insert_eq; reflexivity.
  - unfold ListRuns. cbv zeta. cbn [ListRuns_loop].
    eexists _, _. split; [reflexivity|]. apply lookup_insert_eq.
Qed.

Lemma up_to_append (limit : Z) (resp page : list Run) :
  (0 < limit -> Z.of_nat (length resp) <= limit) ->
  (if (0 <? limit) && (limit <? Z.of_nat (length resp) + Z.of_nat (length page))
   then slice_to Run page (limit - Z.of_nat (length resp))
   else Val page)
  = Val (match up_to limit (resp ++ page) with
         | l => drop (length resp) l
         end) /\
  resp ++ drop (length resp) (up_to limit (resp ++ page)) = up_to limit (resp ++ page).
Proof.
  intros Hinv. unfold up_to, slice_to.
  destruct (0 <? limit) eqn:Hpos; simpl andb; cbv iota.
  - apply Z.ltb_lt in Hpos. specialize (Hinv Hpos).
    assert (Hle : (length resp <= Z.to_nat limit)%nat) by lia.
    rewrite take_app_ge by exact Hle. rewrite drop_app_length.
    destruct (limit <? Z.of_nat (length resp) + Z.of_nat (length page)) eqn:Hover.
    + destruct (limit - Z.of_nat (length resp) <? 0) eqn:Hneg; [lia|].
      replace (Z.to_nat (limit - Z.of_nat (length resp)))
        with (Z.to_nat limit - length resp)%nat by lia.
      auto.
    + rewrite take_ge by lia. auto.
  - rewrite drop_app_length. auto.
Qed.

Lemma ListRuns_loop_always (fuel : nat) (limit pageLimit i : Z)
      (q : gmap string (list string)) (resp page : list Run) :
  (0 < limit -> Z.of_nat (length resp) <= limit) ->
  effects.always
    (fun t r =>
       exists v,
         r = Val v /\
         (forall runs, v = Some (runs, None) -> runs = up_to limit (resp ++ pages t)) /\
         (forall runs e, v = Some (runs, Some e) -> runs = []) /\
         (0 < limit -> 0 < pageLimit ->
          (Z.to_nat (limit - Z.of_nat (length resp)) < fuel)%nat -> v <> None))
    (loop fuel limit pageLimit q i resp page).
Proof.
  revert q i resp page. induction fuel as [|fuel IH]; intros q i resp page Hinv.
  { simpl. exists None. split; [reflexivity|]. split; [discriminate|].
    split; [discriminate|]. lia. }
  cbn [ListRuns_loop effects.always]. intros [page' [e|]].
  { simpl. eexists. split; [reflexivity|]. split; [discriminate|].
    split; [intros runs e' [= <- _]; reflexivity | discriminate]. }
  destruct (up_to_append limit resp page' Hinv) as [Hruns Happ].
  rewrite Hruns. cbv iota.
  set (runs := drop (length resp) (up_to limit (resp ++ page'))) in *.
  assert (Hpages : forall t : list (effects.event (runs_call Run) (runs_answer Run)),
             pages (effects.Event (GetRuns ("/runs/list?" +:+ Encode
                                             (<["page" := [FormatInt i]]> q)) page)
                                  (page', None) :: t)
             = page' ++ pages t) by reflexivity.
  destruct (negb (Z.of_nat (length page') =? pageLimit)) eqn:Hshort.
  { simpl. eexists. split; [reflexivity|]. split; [|split; discriminate].
    intros runs' [= <-]. rewrite Happ, Hpages. unfold pages. simpl.
    rewrite app_nil_r. reflexivity. }
  destruct ((0 <? limit) && (Z.of_nat (length (resp ++ runs)) =? limit)) eqn:Hfull.
  { simpl. eexists. split; [reflexivity|]. split; [|split; discriminate].
    intros runs' [= <-]. rewrite Happ, Hpages. unfold pages. simpl.
    rewrite app_nil_r. reflexivity. }
  apply negb_false_iff, Z.eqb_eq in Hshort.
  assert (Hlen : Z.of_nat (length (resp ++ runs))
                 = Z.of_nat (length (up_to limit (resp ++ page')))) by (rewrite Happ; reflexivity).
  assert (Hnext : 0 < limit -> Z.of_nat (length (resp ++ runs)) < limit).
  { intros Hpos. assert (Hb : (0 <? limit) = true) by lia. rewrite Hb in Hfull.
    simpl in Hfull. apply Z.eqb_neq in Hfull.
    rewrite Hlen in *. unfold up_to in *. rewrite Hb in *.
    rewrite length_take in *. lia. }
  assert (Hwhole : resp ++ runs = resp ++ page').
  { rewrite Happ. unfold up_to. destruct (0 <? limit) eqn:Hb; [|reflexivity].
    apply take_ge. specialize (Hnext ltac:(lia)). rewrite Hlen in Hnext.
    unfold up_to in Hnext. rewrite Hb, length_take in Hnext. lia. }
  eapply effects_always_mono; [|apply IH; intros Hpos; specialize (Hnext Hpos); lia].
  cbv beta. intros t r (v & -> & Hok & Herr & Hfuel).
  exists v. split; [reflexivity|]. split; [|split; [exact Herr|]].
  - intros runs' Hv. rewrite (Hok runs' Hv), Hwhole, Hpages, app_assoc. reflexivity.
  - intros Hpos Hpage Hlt. apply (Hfuel Hpos Hpage).
    rewrite Hwhole, length_app. rewrite Hwhole, length_app in Hnext.
    specialize (Hnext Hpos). lia.
Qed.


End RunsFacts.

(** *** The check of the config references *)

Section PredeployFacts.

Variable X : Externals.
Variable JoinName : NameTag -> string.
Variable Bold : string -> string.

Local Abbreviation check := (deploy.ensureConfigVarExists X JoinName Bold).

Lemma ensureConfigVarExists_always (envName configName : string) :
  effects.always
    (fun t r =>
       (exists e, configs_ParseName X configName = Err e /\
                  t = [] /\ r = Val (Some (api.Other e))) \/
       (exists cn,
          configs_ParseName X configName = Ok cn /\
          ((t = [effects.Event (deploy.GetConfig (check_request cn)) None] /\
            r = Val None) \/
           (exists e,
              t = [effects.Event (deploy.GetConfig (check_request cn))
                                 (Some (api.Other e))] /\
              r = Val (Some (api.Other (deploy.Cause e)))) \/
           (exists code message,
              code <> 404 /\
              t = [effects.Event (deploy.GetConfig (check_request cn))
                                 (Some (api.Error_ code message))] /\
              r = Val (Some (api.Error_ code message))) \/
           (exists message value secret err,
              t = creation JoinName Bold configName cn message value secret err /\
              r = Val (match err with
                       | Some e => Some (api.Other e)
                       | None => None
                       end)) \/
           (exists message rest e,
              t = effects.Event (deploy.GetConfig (check_request cn))
                                (Some (api.Error_ 404 message)) :: rest /\
              r = Val (Some (api.Other e)) /\
              Forall (fun e => match effects.ev_call e with
                               | deploy.GetConfig _ | deploy.SetConfig _ _ _ => False
                               | _ => True
                               end) rest))))
    (check envName configName).
Proof.
  unfold deploy.ensureConfigVarExists, deploy.createConfig, creation.
  destruct (configs_ParseName X configName) as [cn|e].
  2: { simpl. left. eauto. }
  fold (check_request cn).
  cbn [effects.always]. intros x. simpl in x.
  destruct x as [[code message|e]|].
  3: { simpl. right. exists cn. split; [reflexivity|]. left. auto. }
  2: { simpl. right. exists cn. split; [reflexivity|]. right. left. eauto. }
  destruct (Z.eqb_spec code 404) as [->|Hcode]; simpl negb; cbv iota.
  2: { simpl. right. exists cn. split; [reflexivity|]. right. right. left. eauto 10. }
  cbn [effects.always]. intros can. simpl in can.
  destruct can; simpl negb; cbv iota.
  2: { simpl. right. exists cn. split; [reflexivity|].
       do 4 right. eexists _, _, _. split; [reflexivity|].
       split; [reflexivity|]. repeat constructor. }
  cbn [effects.always]. intros u. simpl in u. destruct u.
  intros c. simpl in c. destruct c as [confirmed [e|]].
  { simpl. right. exists cn. split; [reflexivity|].
    do 4 right. eexists _, _, _. split; [reflexivity|].
    split; [reflexivity|]. repeat constructor. }
  destruct confirmed; simpl negb; cbv iota.
  2: { simpl. right. exists cn. split; [reflexivity|].
       do 4 right. eexists _, _, _. split; [reflexivity|].
       split; [reflexivity|]. repeat constructor. }
  cbn [effects.always]. intros a. simpl in a. destruct a as [secret [e|]].
  { simpl. right. exists cn. split; [reflexivity|].
    do 4 right. eexists _, _, _. split; [reflexivity|].
    split; [reflexivity|]. repeat constructor. }
  cbn [effects.always]. intros v. simpl in v. destruct v as [value|e].
  2: { simpl. right. exists cn. split; [reflexivity|].
       do 4 right. eexists _, _, _. split; [reflexivity|].
       split; [reflexivity|]. repeat constructor. }
  cbn [effects.always]. intros err. simpl in err.
  destruct err as [e|]; simpl; right; exists cn; (split; [reflexivity|]);
    do 3 right; left; eexists message, value, secret, _;
    (split; reflexivity).
Qed.

Lemma no_check_in (rest : list (effects.event deploy.call deploy.answer)) :
  Forall (fun e => match effects.ev_call e with
                   | deploy.GetConfig _ | deploy.SetConfig _ _ _ => False
                   | _ => True
                   end) rest ->
  omap checked rest = [] /\
  forall e cn value secret,
    In e rest -> effects.ev_call e <> deploy.SetConfig cn value secret.
Proof.
  induction 1 as [|e rest He Hrest [IH1 IH2]]; [split; [reflexivity | intros ? ? ? ? []]|].
  split.
  - change (omap checked (e :: rest))
      with (match checked e with
            | Some y => y :: omap checked rest
            | None => omap checked rest
            end).
    rewrite IH1. unfold checked.
    destruct (effects.ev_call e); try reflexivity; contradiction.
  - intros e' cn value secret [<-|Hin]; [|eauto].
    intros Heq. rewrite Heq in He. exact He.
Qed.

(** X20. [ensureConfigVarExists] makes no call when the config name does
    not parse and returns the parse error.  Otherwise its first call asks
    the API for the config by name and tag without asking for the secret,
    and it asks only once.  It writes a config only in a run where the API
    answered 404, the terminal can prompt, the user confirmed the question
    [Create it now?] and then gave the secrecy and the value that are
    written.  It returns nil only when the config exists or was written
    without error, and an API error only when its code is not 404, after the
    one call.  It never panics. *)
Theorem ensureConfigVarExists_asks_before_creating {W : Type}
        (h : forall c : deploy.call, W -> deploy.answer c * W) (w : W)
        (envName configName : string) :
  let t := (effects.run h (check envName configName) w).1.2 in
  let r := (effects.run h (check envName configName) w).1.1 in
  (exists v, r = Val v) /\
  (forall e, configs_ParseName X configName = Err e ->
     t = [] /\ r = Val (Some (api.Other e))) /\
  (forall cn, configs_ParseName X configName = Ok cn ->
     (exists a rest,
        t = effects.Event (deploy.GetConfig (check_request cn)) a :: rest /\
        omap checked rest = []) /\
     (forall e cn' value secret,
        In e t -> effects.ev_call e = deploy.SetConfig cn' value secret ->
        cn' = cn /\
        exists message err,
          t = creation JoinName Bold configName cn message value secret err) /\
     (r = Val None ->
      t = [effects.Event (deploy.GetConfig (check_request cn)) None] \/
      exists message value secret,
        t = creation JoinName Bold configName cn message value secret None) /\
     (forall code message,
        r = Val (Some (api.Error_ code message)) ->
        code <> 404 /\
        t = [effects.Event (deploy.GetConfig (check_request cn))
                           (Some (api.Error_ code message))])).
Proof.
  intros t r.
  pose proof (effects_run_always h _ w _ (ensureConfigVarExists_always envName configName))
    as Hrun.
  fold t r in Hrun.
  destruct Hrun as [(e & Hparse & -> & ->)|(cn & Hparse & Hrun)].
  { split; [eauto|]. split.
    - intros e' He'. rewrite Hparse in He'. injection He' as ->. auto.
    - intros cn Hcn. rewrite Hparse in Hcn. discriminate. }
  assert (Hno : forall a (e : effects.event deploy.call deploy.answer) cn' value secret,
             In e [effects.Event (deploy.GetConfig (check_request cn)) a] ->
             effects.ev_call e <> deploy.SetConfig cn' value secret).
  { intros a e cn' value secret [<-|[]]. discriminate. }
  destruct Hrun as [[-> ->]|[(e & -> & ->)|[(code & message & Hcode & -> & ->)|
                   [(message & value & secret & err & -> & ->)|
                    (message & rest & e & -> & -> & Hrest)]]]].
  - split; [eauto|]. split; [intros e He; rewrite Hparse in He; discriminate|].
    intros cn0 Hcn. rewrite Hparse in Hcn. injection Hcn as <-.
    split; [eauto|]. split; [|split].
    + intros e cn' value secret Hin Heq. destruct (Hno _ _ _ _ _ Hin Heq).
    + auto.
    + discriminate.
  - split; [eauto|]. split; [intros e' He; rewrite Hparse in He; discriminate|].
    intros cn0 Hcn. rewrite Hparse in Hcn. injection Hcn as <-.
    split; [eauto|]. split; [|split].
    + intros e' cn' value secret Hin Heq. destruct (Hno _ _ _ _ _ Hin Heq).
    + discriminate.
    + discriminate.
  - split; [eauto|]. split; [intros e He; rewrite Hparse in He; discriminate|].
    intros cn0 Hcn. rewrite Hparse in Hcn. injection Hcn as <-.
    split; [eauto|]. split; [|split].
    + intros e cn' value secret Hin Heq. destruct (Hno _ _ _ _ _ Hin Heq).
    + discriminate.
    + intros code' message' Heq. injection Heq as <- <-. auto.
  - split; [destruct err; eauto|].
    split; [intros e He; rewrite Hparse in He; discriminate|].
    intros cn0 Hcn. rewrite Hparse in Hcn. injection Hcn as <-.
    split; [unfold creation; eexists _, _; split; [reflexivity | reflexivity]|].
    split; [|split].
    + intros e cn' value' secret' Hin Heq. unfold creation in Hin. simpl in Hin.
      destruct Hin as [<-|[<-|[<-|[<-|[<-|[<-|[<-|[]]]]]]]]; try discriminate.
      simpl in Heq. injection Heq as <- <- <-. eauto.
    + destruct err; [discriminate|]. intros _. right. eauto.
    + destruct err; discriminate.
  - destruct (no_check_in rest Hrest) as [Hchecked Hset].
    split; [eauto|]. split; [intros e' He; rewrite Hparse in He; discriminate|].
    intros cn0 Hcn. rewrite Hparse in Hcn. injection Hcn as <-.
    split; [eauto|]. split; [|split].
    + intros e' cn' value secret [<-|Hin] Heq; [discriminate|].
      destruct (Hset _ _ _ _ Hin Heq).
    + discriminate.
    + discriminate.
Qed.

Lemma omap_checked_app (t1 t2 : list (effects.event deploy.call deploy.answer)) :
  omap checked (t1 ++ t2) = omap checked t1 ++ omap checked t2.
Proof.
  induction t1 as [|e t1 IH]; [reflexivity|].
  change (omap checked ((e :: t1) ++ t2))
    with (match checked e with
          | Some y => y :: omap checked (t1 ++ t2)
          | None => omap checked (t1 ++ t2)
          end).
  change (omap checked (e :: t1))
    with (match checked e with
          | Some y => y :: omap checked t1
          | None => omap checked t1
          end).
  rewrite IH. destruct (checked e); reflexivity.
Qed.

Lemma omap_checked_config_app (l1 l2 : list (string * EnvVarValue)) :
  omap (checked_config X) (l1 ++ l2)
  = omap (checked_config X) l1 ++ omap (checked_config X) l2.
Proof.
  induction l1 as [|kv l1 IH]; [reflexivity|].
  change (omap (checked_config X) ((kv :: l1) ++ l2))
    with (match checked_config X kv with
          | Some y => y :: omap (checked_config X) (l1 ++ l2)
          | None => omap (checked_config X) (l1 ++ l2)
          end).
  change (omap (checked_config X) (kv :: l1))
    with (match checked_config X kv with
          | Some y => y :: omap (checked_config X) l1
          | None => omap (checked_config X) l1
          end).
  rewrite IH. destruct (checked_config X kv); reflexivity.
Qed.

(** One check looks up the config of its entry, once when the name parses
    and not at all otherwise, and returns nil only for a name that
    parses. *)
Lemma ensureConfigVarExists_checked (k : string) (v : EnvVarValue) (config : string) :
  ConfigRef v = Some config ->
  effects.always
    (fun t r =>
       exists err,
         r = Val err /\
         omap checked t = omap (checked_config X) [(k, v)] /\
         (err = None -> exists cn, configs_ParseName X config = Ok cn))
    (check k config).
Proof.
  intros Hconfig.
  eapply effects_always_mono; [|apply ensureConfigVarExists_always].
  intros t r Hrun.
  assert (Hone : omap (checked_config X) [(k, v)]
                 = match configs_ParseName X config with
                   | Ok cn => [check_request cn]
                   | Err _ => []
                   end).
  { change (omap (checked_config X) [(k, v)])
      with (match checked_config X (k, v) with
            | Some y => [y]
            | None => []
            end).
    unfold checked_config. simpl. rewrite Hconfig.
    destruct (configs_ParseName X config); reflexivity. }
  rewrite Hone.
  destruct Hrun as [(e & Hparse & -> & ->)|(cn & Hparse & Hrun)]; rewrite Hparse.
  { eexists. split; [reflexivity|]. split; [reflexivity | discriminate]. }
  destruct Hrun as [[-> ->]|[(e & -> & ->)|[(code & message & Hcode & -> & ->)|
                   [(message & value & secret & err & -> & ->)|
                    (message & rest & e & -> & -> & Hrest)]]]].
  - eexists. split; [reflexivity|]. split; [reflexivity | eauto].
  - eexists. split; [reflexivity|]. split; [reflexivity | discriminate].
  - eexists. split; [reflexivity|]. split; [reflexivity | discriminate].
  - eexists. split; [reflexivity|]. split; [reflexivity | eauto].
  - destruct (no_check_in rest Hrest) as [Hchecked _].
    eexists. split; [reflexivity|]. split; [|discriminate].
    change (omap checked (effects.Event (deploy.GetConfig (check_request cn))
                                        (Some (api.Error_ 404 message)) :: rest))
      with (check_request cn :: omap checked rest).
    rewrite Hchecked. reflexivity.
Qed.

Lemma ensureConfigVarsExist_loop_always (entries : list (string * EnvVarValue)) :
  effects.always
    (fun t r =>
       exists err,
         r = Val err /\
         match err with
         | None =>
             omap checked t = omap (checked_config X) entries /\
             Forall (fun kv => forall config,
                         ConfigRef kv.2 = Some config ->
                         exists cn, configs_ParseName X config = Ok cn) entries
         | Some _ =>
             exists pre kv post,
               entries = pre ++ kv :: post /\
               ConfigRef kv.2 <> None /\
               omap checked t = omap (checked_config X) (pre ++ [kv])
         end)
    (deploy.ensureConfigVarsExist_loop X JoinName Bold entries).
Proof.
  induction entries as [|[k v] entries IH].
  { simpl. exists None. split; [reflexivity|]. split; [reflexivity | constructor]. }
  assert (Hskip : ConfigRef v = None ->
                  omap (checked_config X) ((k, v) :: entries)
                  = omap (checked_config X) entries).
  { intros Hnone.
    change (omap (checked_config X) ((k, v) :: entries))
      with (match checked_config X (k, v) with
            | Some y => y :: omap (checked_config X) entries
            | None => omap (checked_config X) entries
            end).
    unfold checked_config. simpl. rewrite Hnone. reflexivity. }
  cbn [deploy.ensureConfigVarsExist_loop].
  destruct (ConfigRef v) as [config|] eqn:Hconfig.
  2: { eapply effects_always_mono; [|exact IH].
       intros t r (err & -> & Herr). exists err. split; [reflexivity|].
       destruct err as [f|].
       - destruct Herr as (pre & kv & post & -> & Hkv & Ht).
         exists ((k, v) :: pre), kv, post. split; [reflexivity|]. split; [assumption|].
         rewrite Ht. rewrite !omap_checked_config_app.
         change ((k, v) :: pre) with ([(k, v)] ++ pre).
         rewrite omap_checked_config_app.
         change (omap (checked_config X) [(k, v)])
           with (match checked_config X (k, v) with
                 | Some y => [y]
                 | None => []
                 end).
         unfold checked_config at 3. simpl. rewrite Hconfig. reflexivity.
       - destruct Herr as [Ht Hall]. split.
         + rewrite Hskip by reflexivity. exact Ht.
         + constructor; [|exact Hall]. simpl. intros config Hc.
           rewrite Hconfig in Hc. discriminate. }
  apply effects_always_bind.
  eapply effects_always_mono; [|apply (ensureConfigVarExists_checked k v config Hconfig)].
  intros t r (err & -> & Ht & Hnil).
  destruct err as [f|].
  - simpl. rewrite app_nil_r. exists (Some f). split; [reflexivity|].
    exists [], (k, v), entries. split; [reflexivity|]. split.
    + simpl. rewrite Hconfig. discriminate.
    + exact Ht.
  - eapply effects_always_mono; [|exact IH].
    intros t' r' (err & -> & Herr). exists err. split; [reflexivity|].
    change ((k, v) :: entries) with ([(k, v)] ++ entries).
    destruct err as [f|].
    + destruct Herr as (pre & kv & post & -> & Hkv & Ht').
      exists ((k, v) :: pre), kv, post. split; [reflexivity|]. split; [assumption|].
      rewrite omap_checked_app, Ht, Ht'.
      change (((k, v) :: pre) ++ [kv]) with ([(k, v)] ++ (pre ++ [kv])).
      rewrite (omap_checked_config_app [(k, v)]). reflexivity.
    + destruct Herr as [Ht' Hall]. split.
      * rewrite omap_checked_app, Ht, Ht', omap_checked_config_app. reflexivity.
      * constructor; [|exact Hall]. simpl. intros config' Hc.
        rewrite Hconfig in Hc. injection Hc as <-. apply Hnil. reflexivity.
Qed.

(** X21. [ensureConfigVarsExist] returns the error of [GetEnv] without a
    call.  Otherwise it checks the entries of the environment in the order
    of the range, and it checks every entry that names a config, also one
    that has a literal value as well.  When it returns nil, every named
    config parsed and was looked up, in that order, and no other lookup was
    made.  When it returns an error, an entry that names a config made it
    fail: the lookups made are those of the entries up to and including that
    one, and no entry after it was checked.  It never panics. *)
Theorem ensureConfigVarsExist_checks_every_reference {W : Type}
        (h : forall c : deploy.call, W -> deploy.answer c * W) (w : W)
        (GetEnv : result (gmap string EnvVarValue)) :
  let p := deploy.ensureConfigVarsExist X JoinName Bold GetEnv in
  let t := (effects.run h p w).1.2 in
  let r := (effects.run h p w).1.1 in
  (exists err, r = Val err) /\
  (forall e, GetEnv = Err e -> t = [] /\ r = Val (Some (api.Other e))) /\
  (forall env,
     GetEnv = Ok env ->
     (r = Val None ->
      omap checked t = omap (checked_config X) (range_TaskEnv X env) /\
      Forall (fun kv => forall config,
                  ConfigRef kv.2 = Some config ->
                  exists cn, configs_ParseName X config = Ok cn)
             (range_TaskEnv X env)) /\
     (forall f,
        r = Val (Some f) ->
        exists pre kv post,
          range_TaskEnv X env = pre ++ kv :: post /\
          ConfigRef kv.2 <> None /\
          omap checked t = omap (checked_config X) (pre ++ [kv]))).
Proof.
  intros p t r. subst p t r.
  destruct GetEnv as [env|e]; simpl.
  2: { split; [eauto|]. split; [|discriminate].
       intros e' He'. injection He' as ->. auto. }
  pose proof (effects_run_always h _ w _
                (ensureConfigVarsExist_loop_always (range_TaskEnv X env))) as Hrun.
  simpl in Hrun. destruct Hrun as (err & Hr & Herr).
  split; [eauto|]. split; [discriminate|].
  intros env' Henv. injection Henv as <-. rewrite Hr.
  split.
  - intros Heq. injection Heq as ->. exact Herr.
  - intros f Heq. injection Heq as ->. exact Herr.
Qed.

End PredeployFacts.

(** *** The debug log *)

Lemma prefix_newline (c : ascii) (t : string) :
  String.prefix newline (String c t) = Ascii.eqb "010" c.
Proof.
  change (String.prefix newline (String c t))
    with (if ascii_dec "010" c then String.prefix "" t else false).
  destruct (ascii_dec "010" c) as [<-|Hne].
  - destruct t; reflexivity.
  - symmetry. apply Ascii.eqb_neq. exact Hne.
Qed.

Lemma cut_newline_cons (c : ascii) (t : string) :
  cut newline (String c t)
  = if Ascii.eqb "010" c then Some (EmptyString, t)
    else match cut newline t with
         | Some (before, after) => Some (String c before, after)
         | None => None
         end.
Proof.
  cbn [cut]. rewrite prefix_newline. destruct (Ascii.eqb "010" c); reflexivity.
Qed.

Lemma cut_lines (s : string) :
  match cut newline s with
  | Some (before, after) =>
      lines s = before :: lines after /\
      (String.length after < String.length s)%nat /\
      cut newline before = None /\
      s = before +:+ newline +:+ after
  | None => lines s = [s]
  end.
Proof.
  induction s as [|c t IH]; [reflexivity|].
  rewrite cut_newline_cons. cbn [lines].
  destruct (Ascii.eqb_spec "010" c) as [<-|Hne].
  { split; [reflexivity|]. split; [simpl; lia|]. split; reflexivity. }
  destruct (cut newline t) as [[before after]|].
  - destruct IH as (Hl & Hlen & Hb & Ht). rewrite Hl.
    split; [reflexivity|]. split; [simpl; lia|]. split.
    + rewrite cut_newline_cons, Hb.
      destruct (Ascii.eqb_spec "010" c); [contradiction | reflexivity].
    + rewrite append_cons, <- Ht. reflexivity.
  - rewrite IH. reflexivity.
Qed.

Lemma split_loop_lines (n : nat) (s : string) :
  (String.length s <= n)%nat -> split_loop newline n s = lines s.
Proof.
  revert s. induction n as [|n IH]; intros s Hlen.
  - destruct s; [reflexivity | simpl in Hlen; lia].
  - cbn [split_loop]. pose proof (cut_lines s) as Hcut.
    destruct (cut newline s) as [[before after]|].
    + destruct Hcut as (Hl & Hafter & _). rewrite Hl, IH by lia. reflexivity.
    + symmetry. exact Hcut.
Qed.

Lemma strings_Split_lines (s : string) : strings_Split s newline = lines s.
Proof. apply split_loop_lines. lia. Qed.

Lemma lines_one (s : string) : cut newline s = None -> lines s = [s].
Proof. intros Hcut. pose proof (cut_lines s) as H. rewrite Hcut in H. exact H. Qed.

Lemma cut_newline_app (a b : string) :
  cut newline a = None -> cut newline b = None -> cut newline (a +:+ b) = None.
Proof.
  induction a as [|c a IH]; intros Ha Hb; [exact Hb|].
  rewrite append_cons, cut_newline_cons. rewrite cut_newline_cons in Ha.
  destruct (Ascii.eqb "010" c); [discriminate|].
  destruct (cut newline a) as [[? ?]|]; [discriminate|].
  rewrite IH by auto. reflexivity.
Qed.

Lemma lines_app_newline (a b : string) :
  cut newline a = None -> lines (a +:+ newline +:+ b) = a :: lines b.
Proof.
  induction a as [|c a IH]; intros Ha; [reflexivity|].
  rewrite append_cons. cbn [lines]. rewrite cut_newline_cons in Ha.
  destruct (Ascii.eqb "010" c); [discriminate|].
  destruct (cut newline a) as [[? ?]|]; [discriminate|].
  rewrite IH by reflexivity. reflexivity.
Qed.

Lemma lines_no_newline (s : string) :
  Forall (fun l => cut newline l = None) (lines s) /\ lines s <> [].
Proof.
  induction s as [|c t [IH Hne]]; [split; [repeat constructor | discriminate]|].
  cbn [lines]. destruct (Ascii.eqb "010" c) eqn:Hc.
  { split; [constructor; [reflexivity | exact IH] | discriminate]. }
  destruct (lines t) as [|l ls]; [contradiction|].
  split; [|discriminate]. inversion IH as [|? ? Hl Hls]; subst.
  constructor; [|exact Hls].
  rewrite cut_newline_cons, Hc, Hl. reflexivity.
Qed.

Lemma lines_prefixed (prefix : string) (ls : list string) :
  cut newline prefix = None ->
  Forall (fun l => cut newline l = None) ls ->
  ls <> [] ->
  lines (prefix +:+ strings_Join ls (newline +:+ prefix)) = map (append prefix) ls.
Proof.
  intros Hp. induction ls as [|e ls IH]; intros Hall Hne; [contradiction|].
  inversion Hall as [|? ? He Hls]; subst.
  destruct ls as [|e' ls].
  - cbn [strings_Join map]. apply lines_one. apply cut_newline_app; assumption.
  - change (strings_Join (e :: e' :: ls) (newline +:+ prefix))
      with (e +:+ (newline +:+ prefix) +:+ strings_Join (e' :: ls) (newline +:+ prefix)).
    rewrite (append_assoc newline), <- (append_assoc prefix e).
    rewrite lines_app_newline by (apply cut_newline_app; assumption).
    rewrite IH by (auto; discriminate). reflexivity.
Qed.

Section LoggerFacts.

Variable Arg : Type.
Variable Sprintf : string -> list Arg -> string.
Variable Blue : string -> string.

(** X24. [Debug] writes nothing unless debugging is enabled.  When it is,
    and the colour of the word debug holds no newline, it writes one text
    that ends in a newline, and the lines of that text before the last
    newline are the lines of the message, formatted when there are
    arguments, each with the debug prefix put before it: no line of a
    message of many lines is left without the prefix, and an empty message
    gives the prefix alone. *)
Theorem Debug_prefixes_every_line (msg : string) (args : list Arg) :
  strings_Contains (Blue "debug") newline = false ->
  logger.Debug Arg Sprintf Blue false msg args = [] /\
  exists text,
    logger.Debug Arg Sprintf Blue true msg args = [text +:+ newline] /\
    strings_Split text newline
    = map (append (logger.debugPrefix Blue))
          (strings_Split (if Nat.ltb 0 (length args) then Sprintf msg args else msg)
                         newline).
Proof.
  intros Hblue. split; [reflexivity|].
  unfold logger.Debug. cbn [negb]. cbv zeta.
  eexists. split; [reflexivity|].
  assert (Hp : cut newline (logger.debugPrefix Blue) = None).
  { unfold logger.debugPrefix, strings_Contains in *.
    rewrite append_cons, append_nil, cut_newline_cons.
    change (Ascii.eqb "010" "[") with false. cbv iota.
    rewrite cut_newline_app; [reflexivity| |reflexivity].
    destruct (cut newline (Blue "debug")); [discriminate | reflexivity]. }
  rewrite !strings_Split_lines.
  destruct (lines_no_newline (if Nat.ltb 0 (length args) then Sprintf msg args else msg))
    as [Hall Hne].
  apply lines_prefixed; assumption.
Qed.

End LoggerFacts.

Lemma Debug_prefixes_every_line_witness :
  strings_Contains (sample_Blue "debug") newline = false /\
  logger.Debug string sample_Sprintf sample_Blue false ("one" +:+ newline +:+ "two") [] = [] /\
  exists text,
    logger.Debug string sample_Sprintf sample_Blue true ("one" +:+ newline +:+ "two") []
    = [text +:+ newline] /\
    strings_Split text newline
    = map (append (logger.debugPrefix sample_Blue))
          (strings_Split ("one" +:+ newline +:+ "two") newline).
Proof.
  split; [reflexivity|].
  apply (Debug_prefixes_every_line string sample_Sprintf sample_Blue
                                   ("one" +:+ newline +:+ "two") []).
  reflexivity.
Defined.

(** *** The inputs of a run *)
Section ExecuteFacts.

Import execute.

Variable Float : Type.
Variable Other : Type.
Variable strconv_ParseBool : string -> result bool.
Variable strconv_Atoi : string -> result Z.
Variable strconv_ParseFloat : string -> result Float.
Variable APIValueToInput : Parameter_ Float Other -> Value Float Other -> result string.
Variable ParseInput : Parameter_ Float Other -> string -> result (Value Float Other).
Variable YesString NoString : string.
Variable Gray Yellow : string -> list string -> string.
Variable Bold : string -> string.
Variable TaskURL : string -> string.
Variable FormatInt : Z -> string.

Local Abbreviation Values := (gmap string (Value Float Other)) (only parsing).
Local Abbreviation prompt_for :=
  (promptForParam Float Other APIValueToInput YesString NoString Gray).
Local Abbreviation expected :=
  (prompt_of Float Other APIValueToInput YesString NoString Gray).
Local Abbreviation loop :=
  (prompt_loop Float Other APIValueToInput ParseInput YesString NoString Gray Yellow).
Local Abbreviation prompt_values :=
  (promptForParamValues Float Other APIValueToInput ParseInput YesString NoString
                        Gray Yellow Bold TaskURL FormatInt).
Local Abbreviation wrote := (written Float Other ParseInput).
Local Abbreviation flag := (flagset_Func Float Other strconv_ParseBool strconv_Atoi
                                         strconv_ParseFloat).
Local Abbreviation event := (effects.event (call Float Other) (answer Float Other)).

Lemma omap_cons {A B : Type} (f : A -> option B) (x : A) (l : list A) :
  omap f (x :: l) = match f x with
                    | Some y => y :: omap f l
                    | None => omap f l
                    end.
Proof. reflexivity. Qed.

Lemma omap_snoc {A B : Type} (f : A -> option B) (l : list A) (x : A) :
  omap f (l ++ [x]) = omap f l ++ match f x with
                                  | Some y => [y]
                                  | None => []
                                  end.
Proof.
  induction l as [|a l IH]; [rewrite app_nil_l, omap_cons; destruct (f x); reflexivity|].
  rewrite <- app_comm_cons, !omap_cons, IH. destruct (f a); reflexivity.
Qed.

Lemma written_refl (ps : list (Parameter_ Float Other)) (m : Values) : wrote ps m m.
Proof. intros k. left. reflexivity. Qed.

Lemma written_skip (param : Parameter_ Float Other) (ps : list (Parameter_ Float Other))
      (m m' : Values) :
  wrote ps m m' -> wrote (param :: ps) m m'.
Proof.
  intros H k. destruct (H k) as [Hk|(p & i & v & Hin & Hrest)]; [left; exact Hk|].
  right. exists p, i, v. split; [right; exact Hin | exact Hrest].
Qed.

Lemma written_step (param : Parameter_ Float Other) (ps : list (Parameter_ Float Other))
      (input : string) (value : Value Float Other) (m m' : Values) :
  String.eqb (Type_ param) TypeUpload = false ->
  ParseInput param input = Ok value ->
  wrote ps (match value with
            | VNil => m
            | _ => <[Slug param := value]> m
            end) m' ->
  wrote (param :: ps) m m'.
Proof.
  intros Htype Hparse H k.
  destruct (H k) as [Hk|(p & i & v & Hin & Hrest)].
  2: { right. exists p, i, v. split; [right; exact Hin | exact Hrest]. }
  assert (Hcases : value = VNil \/
                   (value <> VNil /\ m' !! k = <[Slug param := value]> m !! k)).
  { destruct value; [left; reflexivity| | | | |];
      right; (split; [discriminate | exact Hk]). }
  destruct Hcases as [->|[Hnil Hk']]; [left; exact Hk|].
  destruct (decide (Slug param = k)) as [Heq|Hne].
  - right. exists param, input, value. rewrite Hk', <- Heq, lookup_insert_eq.
    split; [left; reflexivity|]. auto.
  - left. rewrite Hk', lookup_insert_ne by exact Hne. reflexivity.
Qed.

(** The loop either goes through all parameters and goes on with the
    confirmation, or stops at a parameter that is not an upload. *)
Lemma prompt_loop_always (ps : list (Parameter_ Float Other)) (m : Values)
      (k : Values -> effects.prog (call Float Other) (answer Float Other)
                                  (Values * option error))
      (P : list event -> outcome (Values * option error) -> Prop) :
  (forall m',
     wrote ps m m' ->
     effects.always
       (fun t2 r =>
          forall t1, Forall in_loop t1 -> omap asked t1 = omap expected ps ->
                     P (t1 ++ t2) r)
       (k m')) ->
  (forall t m' e pre param post,
     ps = pre ++ param :: post ->
     String.eqb (Type_ param) TypeUpload = false ->
     wrote pre m m' ->
     Forall in_loop t ->
     omap asked t = omap expected (pre ++ [param]) ->
     P t (Val (m', Some e))) ->
  effects.always P (loop ps m k).
Proof.
  revert m P. induction ps as [|param ps IH]; intros m P Hk Hfail.
  { cbn [prompt_loop]. eapply effects_always_mono; [|apply (Hk m (written_refl [] m))].
    intros t r H. apply (H []); [constructor | reflexivity]. }
  cbn [prompt_loop].
  destruct (String.eqb (Type_ param) TypeUpload) eqn:Htype.
  { cbn [effects.always]. intros u. apply IH.
    - intros m' Hm'. eapply effects_always_mono; [|apply (Hk m' (written_skip _ _ _ _ Hm'))].
      intros t2 r H t1 Ht1 Hasked.
      apply (H (_ :: t1)).
      + constructor; [exact I | exact Ht1].
      + rewrite !omap_cons. unfold prompt_of at 1. rewrite Htype. exact Hasked.
    - intros t m' e pre p post -> Hp Hpre Ht Hasked.
      apply (Hfail _ m' e (param :: pre) p post); auto.
      + apply written_skip. exact Hpre.
      + constructor; [exact I | exact Ht].
      + rewrite <- app_comm_cons, !omap_cons. unfold prompt_of at 1. rewrite Htype.
        exact Hasked. }
  destruct (prompt_for param) as [prompt|e] eqn:Hprompt.
  2: { cbn [effects.always].
       apply (Hfail [] m e [] param ps); auto.
       - apply written_refl.
       - rewrite app_nil_l, omap_cons. unfold prompt_of. rewrite Htype, Hprompt.
         reflexivity. }
  assert (Hone : omap expected [param] = [(prompt, validators param)]).
  { rewrite omap_cons. unfold prompt_of. rewrite Htype, Hprompt. reflexivity. }
  cbn [effects.always]. intros x. simpl in x. destruct x as [inputValue [e|]].
  { cbn [effects.always].
    apply (Hfail _ m _ [] param ps); auto.
    - apply written_refl.
    - repeat constructor. }
  destruct (ParseInput param inputValue) as [value|e] eqn:Hparse.
  2: { cbn [effects.always].
       apply (Hfail _ m _ [] param ps); auto.
       - apply written_refl.
       - repeat constructor. }
  apply IH.
  - intros m' Hm'.
    eapply effects_always_mono;
      [|apply (Hk m' (written_step _ _ _ _ _ _ Htype Hparse Hm'))].
    intros t2 r H t1 Ht1 Hasked.
    apply (H (_ :: t1)).
    + constructor; [exact I | exact Ht1].
    + rewrite (omap_cons expected), (omap_cons asked).
      unfold prompt_of at 1. rewrite Htype, Hprompt. cbn [asked effects.ev_call].
      rewrite Hasked. reflexivity.
  - intros t m' e pre p post -> Hp Hpre Ht Hasked.
    apply (Hfail _ m' e (param :: pre) p post); auto.
    + apply (written_step _ _ _ _ _ _ Htype Hparse Hpre).
    + constructor; [exact I | exact Ht].
    + rewrite <- app_comm_cons, (omap_cons expected), (omap_cons asked).
      unfold prompt_of at 1. rewrite Htype, Hprompt. cbn [asked effects.ev_call].
      rewrite Hasked. reflexivity.
Qed.

Lemma list_parameters_always (ps : list (Parameter_ Float Other))
      (v : Values * option error) :
  effects.always
    (fun t r =>
       r = Val v /\ Forall in_loop t /\ omap asked t = [] /\
       length t = (2 * length ps)%nat)
    (list_parameters Float Other Gray ps (effects.Ret v)).
Proof.
  induction ps as [|param ps IH].
  { simpl. repeat split; constructor. }
  cbn [list_parameters effects.always]. intros u1 u2.
  eapply effects_always_mono; [|exact IH].
  intros t r (-> & Hall & Hasked & Hlen).
  split; [reflexivity|]. split; [repeat constructor; exact Hall|].
  split; [rewrite !omap_cons; exact Hasked|].
  simpl. simpl in Hlen. lia.
Qed.

Lemma expected_In (ps : list (Parameter_ Float Other)) (prompt : Prompt)
      (vs : list (Validator Float Other)) :
  In (prompt, vs) (omap expected ps) ->
  exists param,
    In param ps /\ String.eqb (Type_ param) TypeUpload = false /\
    prompt_for param = Ok prompt /\ vs = validators param.
Proof.
  induction ps as [|param ps IH]; [intros []|].
  rewrite omap_cons. unfold prompt_of at 1.
  destruct (String.eqb (Type_ param) TypeUpload) eqn:Htype.
  { intros Hin. destruct (IH Hin) as (p & Hp & Hrest). exists p. split; [right|]; auto. }
  destruct (prompt_for param) as [pr|e] eqn:Hprompt.
  2: { intros Hin. destruct (IH Hin) as (p & Hp & Hrest). exists p. split; [right|]; auto. }
  intros [[= <- <-]|Hin].
  - exists param. split; [left; reflexivity|]. auto.
  - destruct (IH Hin) as (p & Hp & Hrest). exists p. split; [right|]; auto.
Qed.

Lemma promptForParamValues_always (task : Task Float Other) (m : Values) :
  effects.always
    (fun t r =>
       exists (can : bool) (rest : list event) (values : Values) (err : option error),
         t = effects.Event CanPrompt can :: rest /\
         r = Val (values, err) /\
         if can then
           (exists body confirmed e,
              rest = body ++ [effects.Event AskExecute (confirmed, e)] /\
              Forall in_loop body /\
              omap asked body = omap expected (Parameters task) /\
              wrote (Parameters task) m values /\
              (err = None <-> confirmed = true /\ e = None)) \/
           (exists pre param post,
              err <> None /\
              Forall in_loop rest /\
              Parameters task = pre ++ param :: post /\
              String.eqb (Type_ param) TypeUpload = false /\
              omap asked rest = omap expected (pre ++ [param]) /\
              wrote pre m values)
         else
           Forall in_loop rest /\ omap asked rest = [] /\ values = m /\
           (err = None <-> Parameters task = []) /\
           length rest = match Parameters task with
                         | [] => 0%nat
                         | _ :: _ => S (2 * length (Parameters task))
                         end)
    (prompt_values task m).
Proof.
  unfold promptForParamValues. cbn [effects.always]. intros can. simpl in can.
  destruct can; cbn [negb]; cbv iota.
  2: { destruct (Parameters task) as [|param ps] eqn:Hps.
       - simpl. exists false, [], m, None. repeat split; constructor.
       - change (Nat.eqb (length (param :: ps)) 0) with false. cbv iota.
         cbn [effects.always]. intros u.
         eapply effects_always_mono; [|apply list_parameters_always].
         intros t r (-> & Hall & Hasked & Hlen).
         eexists false, _, m, _. split; [reflexivity|]. split; [reflexivity|].
         split; [constructor; [exact I | exact Hall]|].
         split; [rewrite omap_cons; exact Hasked|].
         split; [reflexivity|]. split; [split; discriminate|].
         cbn [length]. rewrite Hlen. reflexivity. }
  cbn [effects.always]. intros u1 u2 u3.
  apply prompt_loop_always.
  - intros m' Hm'. cbn [effects.always]. intros x. simpl in x.
    destruct x as [confirmed [e|]].
    + cbn [effects.always]. intros t1 Ht1 Hasked.
      eexists true, _, m', _. split; [reflexivity|]. split; [reflexivity|].
      left. eexists (_ :: _ :: _ :: t1), confirmed, (Some e).
      split; [rewrite <- !app_comm_cons; reflexivity|].
      split; [repeat (constructor; [exact I|]); exact Ht1|].
      split; [rewrite !omap_cons; exact Hasked|].
      split; [exact Hm'|]. split; [discriminate | intros [_ ?]; discriminate].
    + destruct confirmed; cbn [negb]; cbv iota; cbn [effects.always];
        intros t1 Ht1 Hasked.
      * eexists true, _, m', _. split; [reflexivity|]. split; [reflexivity|].
        left. eexists (_ :: _ :: _ :: t1), true, None.
        split; [rewrite <- !app_comm_cons; reflexivity|].
        split; [repeat (constructor; [exact I|]); exact Ht1|].
        split; [rewrite !omap_cons; exact Hasked|].
        split; [exact Hm'|]. split; auto.
      * eexists true, _, m', _. split; [reflexivity|]. split; [reflexivity|].
        left. eexists (_ :: _ :: _ :: t1), false, None.
        split; [rewrite <- !app_comm_cons; reflexivity|].
        split; [repeat (constructor; [exact I|]); exact Ht1|].
        split; [rewrite !omap_cons; exact Hasked|].
        split; [exact Hm'|]. split; [discriminate | intros [? _]; discriminate].
  - intros t m' e pre param post Hps Htype Hpre Ht Hasked.
    eexists true, _, m', _. split; [reflexivity|]. split; [reflexivity|].
    right. exists pre, param, post.
    split; [discriminate|].
    split; [repeat (constructor; [exact I|]); exact Ht|].
    split; [exact Hps|]. split; [exact Htype|].
    split; [rewrite !omap_cons; exact Hasked | exact Hpre].
Qed.

Lemma written_app (pre post : list (Parameter_ Float Other)) (m m' : Values) :
  wrote pre m m' -> wrote (pre ++ post) m m'.
Proof.
  intros H k. destruct (H k) as [Hk|(p & i & v & Hin & Hrest)]; [left; exact Hk|].
  right. exists p, i, v. split; [apply in_or_app; left; exact Hin | exact Hrest].
Qed.

Lemma omap_asked_confirm (body : list event) (x : bool * option error) :
  omap asked (body ++ [effects.Event AskExecute x]) = omap asked body.
Proof. rewrite omap_snoc. cbn [asked effects.ev_call]. apply app_nil_r. Qed.

Lemma in_loop_not_confirm (t : list event) (e : event) :
  Forall in_loop t -> In e t -> effects.ev_call e <> AskExecute.
Proof.
  intros Hall Hin Heq. rewrite Forall_forall in Hall.
  apply list_elem_of_In in Hin. specialize (Hall e Hin).
  unfold in_loop in Hall. rewrite Heq in Hall. exact Hall.
Qed.

(** X26. [promptForParamValues] first asks whether it can prompt.  When it
    cannot, it asks nothing, leaves the map as it is, and returns nil only
    for a task without parameters.  When it can, it asks the parameters in
    their order, each with the prompt and the validators made for it, and
    never asks for an upload; the confirmation is asked only after all of
    them were asked and parsed, as the last call, and nil is returned only
    when it was confirmed.  The map is written as it goes: whatever is
    returned, a key holds what it held before or a value, not nil, parsed
    from an input of a parameter with that slug, so the values entered
    before an error or a refusal stay in the map. *)
Theorem promptForParamValues_asks_in_order {W : Type}
        (h : forall c : call Float Other, W -> answer Float Other c * W) (w : W)
        (task : Task Float Other) (paramValues : Values) :
  let t := (effects.run h (prompt_values task paramValues) w).1.2 in
  let r := (effects.run h (prompt_values task paramValues) w).1.1 in
  exists (can : bool) (rest : list event) (values : Values) (err : option error),
    t = effects.Event CanPrompt can :: rest /\
    r = Val (values, err) /\
    wrote (Parameters task) paramValues values /\
    (forall prompt vs,
       In (prompt, vs) (omap asked rest) ->
       exists param,
         In param (Parameters task) /\
         String.eqb (Type_ param) TypeUpload = false /\
         prompt_for param = Ok prompt /\ vs = validators param) /\
    (can = false ->
     Forall in_loop rest /\ omap asked rest = [] /\ values = paramValues /\
     (err = None <-> Parameters task = [])) /\
    (forall e,
       In e rest -> effects.ev_call e = AskExecute ->
       exists body,
         rest = body ++ [e] /\ Forall in_loop body /\
         omap asked body = omap expected (Parameters task)) /\
    (can = true -> err = None ->
     exists body,
       rest = body ++ [effects.Event AskExecute (true, None)] /\
       Forall in_loop body).
Proof.
  intros t r.
  pose proof (effects_run_always h _ w _ (promptForParamValues_always task paramValues))
    as (can & rest & values & err & Ht & Hr & Hrun).
  fold t r in Ht, Hr.
  exists can, rest, values, err. split; [exact Ht|]. split; [exact Hr|].
  destruct can.
  - destruct Hrun as [(body & confirmed & e & -> & Hbody & Hasked & Hw & Herr)|
                      (pre & param & post & Herr & Hall & Hps & Htype & Hasked & Hw)].
    + split; [exact Hw|]. split.
      { intros prompt vs Hin. rewrite omap_asked_confirm, Hasked in Hin.
        apply expected_In. exact Hin. }
      split; [discriminate|]. split.
      { intros e' Hin Hcall. apply in_app_or in Hin. destruct Hin as [Hin|[<-|[]]].
        - destruct (in_loop_not_confirm _ _ Hbody Hin Hcall).
        - exists body. auto. }
      intros _ Hnone. destruct (proj1 Herr Hnone) as [-> ->]. exists body. auto.
    + split; [rewrite Hps; apply written_app; exact Hw|]. split.
      { intros prompt vs Hin. rewrite Hasked in Hin.
        destruct (expected_In _ _ _ Hin) as (p & Hp & Hrest).
        exists p. split; [|exact Hrest]. rewrite Hps.
        apply in_app_or in Hp. apply in_or_app.
        destruct Hp as [Hp|[<-|[]]]; [left; exact Hp | right; left; reflexivity]. }
      split; [discriminate|]. split.
      { intros e' Hin Hcall. destruct (in_loop_not_confirm _ _ Hall Hin Hcall). }
      intros _ Hnone. contradiction.
  - destruct Hrun as (Hall & Hasked & -> & Herr & Hlen).
    split; [apply written_refl|]. split.
    { intros prompt vs Hin. rewrite Hasked in Hin. destruct Hin. }
    split; [auto|]. split.
    { intros e' Hin Hcall. destruct (in_loop_not_confirm _ _ Hall Hin Hcall). }
    discriminate.
Qed.

(** X25. The function that [flagset] registers for a parameter writes to
    the key of its slug only, and writes nothing when it returns an error.
    An empty value stores the default of the parameter, whatever the type,
    also for an upload and also when the default is nil.  A value that is
    not empty is refused for an upload, is dropped without an error for a
    type that is none of the seven, and is otherwise stored as the type
    says: as it is for a string, a date and a datetime, and as what
    [ParseBool], [Atoi] and [ParseFloat] made of it for a boolean, an
    integer and a float, whose error is returned as it is. *)
Theorem flagset_Func_writes_its_own_flag (p : Parameter_ Float Other) (args : Values)
        (v : string) :
  let args' := (flag p args v).1 in
  let err := (flag p args v).2 in
  (forall k, k <> Slug p -> args' !! k = args !! k) /\
  (err <> None -> args' = args) /\
  (v = "" -> args' = <[Slug p := Default_ p]> args /\ err = None) /\
  (v <> "" -> Type_ p = TypeUpload ->
   err = Some (Errorf "uploads are not supported from the CLI" [])) /\
  (v <> "" ->
   ~ In (Type_ p) [TypeString; TypeBoolean; TypeInteger; TypeFloat; TypeUpload;
                   TypeDate; TypeDatetime] ->
   args' = args /\ err = None) /\
  (v <> "" -> err = None ->
   In (Type_ p) [TypeString; TypeBoolean; TypeInteger; TypeFloat; TypeDate;
                 TypeDatetime] ->
   exists value,
     args' = <[Slug p := value]> args /\
     match value with
     | VString s => s = v /\ In (Type_ p) [TypeString; TypeDate; TypeDatetime]
     | VBool b => Type_ p = TypeBoolean /\ strconv_ParseBool v = Ok b
     | VInt n => Type_ p = TypeInteger /\ strconv_Atoi v = Ok n
     | VFloat f => Type_ p = TypeFloat /\ strconv_ParseFloat v = Ok f
     | VNil | VOther _ => False
     end) /\
  (forall e, err = Some e ->
     e = Errorf "uploads are not supported from the CLI" [] \/
     strconv_ParseBool v = Err e \/ strconv_Atoi v = Err e \/
     strconv_ParseFloat v = Err e).
Proof.
  intros args' err. subst args' err. unfold flagset_Func.
  destruct (String.eqb_spec v "") as [->|Hv].
  { cbn [fst snd]. split; [intros k Hk; apply lookup_insert_ne; congruence|].
    split; [congruence|]. split; [auto|]. repeat split; congruence. }
  unfold TypeString, TypeBoolean, TypeInteger, TypeFloat, TypeUpload, TypeDate,
    TypeDatetime.
  destruct (String.eqb_spec (Type_ p) "string") as [Ht|Hstring].
  { rewrite Ht. cbn [fst snd].
    split; [intros k Hk; apply lookup_insert_ne; congruence|].
    split; [congruence|]. split; [congruence|]. split; [discriminate|].
    split; [intros _ Hnot; exfalso; apply Hnot; left; reflexivity|].
    split; [|discriminate].
    intros _ _ _. exists (VString v). split; [reflexivity|].
    split; [reflexivity | left; reflexivity]. }
  destruct (String.eqb_spec (Type_ p) "boolean") as [Ht|Hboolean].
  { rewrite Ht. destruct (strconv_ParseBool v) as [b|e] eqn:Hparse; cbn [fst snd].
    - split; [intros k Hk; apply lookup_insert_ne; congruence|].
      split; [congruence|]. split; [congruence|]. split; [discriminate|].
      split; [intros _ Hnot; exfalso; apply Hnot; right; left; reflexivity|].
      split; [|discriminate].
      intros _ _ _. exists (VBool b). auto.
    - split; [reflexivity|]. split; [reflexivity|]. split; [congruence|].
      split; [discriminate|].
      split; [intros _ Hnot; exfalso; apply Hnot; right; left; reflexivity|].
      split; [discriminate|]. intros e' [= <-]. auto. }
  destruct (String.eqb_spec (Type_ p) "integer") as [Ht|Hinteger].
  { rewrite Ht. destruct (strconv_Atoi v) as [n|e] eqn:Hparse; cbn [fst snd].
    - split; [intros k Hk; apply lookup_insert_ne; congruence|].
      split; [congruence|]. split; [congruence|]. split; [discriminate|].
      split; [intros _ Hnot; exfalso; apply Hnot; do 2 right; left; reflexivity|].
      split; [|discriminate].
      intros _ _ _. exists (VInt n). auto.
    - split; [reflexivity|]. split; [reflexivity|]. split; [congruence|].
      split; [discriminate|].
      split; [intros _ Hnot; exfalso; apply Hnot; do 2 right; left; reflexivity|].
      split; [discriminate|]. intros e' [= <-]. auto. }
  destruct (String.eqb_spec (Type_ p) "float") as [Ht|Hfloat].
  { rewrite Ht. destruct (strconv_ParseFloat v) as [n|e] eqn:Hparse; cbn [fst snd].
    - split; [intros k Hk; apply lookup_insert_ne; congruence|].
      split; [congruence|]. split; [congruence|]. split; [discriminate|].
      split; [intros _ Hnot; exfalso; apply Hnot; do 3 right; left; reflexivity|].
      split; [|discriminate].
      intros _ _ _. exists (VFloat n). auto.
    - split; [reflexivity|]. split; [reflexivity|]. split; [congruence|].
      split; [discriminate|].
      split; [intros _ Hnot; exfalso; apply Hnot; do 3 right; left; reflexivity|].
      split; [discriminate|]. intros e' [= <-]. auto. }
  destruct (String.eqb_spec (Type_ p) "upload") as [Ht|Hupload].
  { rewrite Ht. cbn [fst snd].
    split; [reflexivity|]. split; [reflexivity|]. split; [congruence|].
    split; [reflexivity|].
    split; [intros _ Hnot; exfalso; apply Hnot; do 4 right; left; reflexivity|].
    split; [discriminate|]. intros e' [= <-]. auto. }
  destruct (String.eqb_spec (Type_ p) "date") as [Ht|Hdate].
  { rewrite Ht. cbn [fst snd].
    split; [intros k Hk; apply lookup_insert_ne; congruence|].
    split; [congruence|]. split; [congruence|]. split; [discriminate|].
    split; [intros _ Hnot; exfalso; apply Hnot; do 5 right; left; reflexivity|].
    split; [|discriminate].
    intros _ _ _. exists (VString v). split; [reflexivity|].
    split; [reflexivity | right; left; reflexivity]. }
  destruct (String.eqb_spec (Type_ p) "datetime") as [Ht|Hdatetime].
  { rewrite Ht. cbn [fst snd].
    split; [intros k Hk; apply lookup_insert_ne; congruence|].
    split; [congruence|]. split; [congruence|]. split; [discriminate|].
    split; [intros _ Hnot; exfalso; apply Hnot; do 6 right; left; reflexivity|].
    split; [|discriminate].
    intros _ _ _. exists (VString v). split; [reflexivity|].
    split; [reflexivity | right; right; left; reflexivity]. }
  cbn [fst snd].
  split; [reflexivity|]. split; [reflexivity|]. split; [congruence|].
  split; [congruence|]. split; [auto|].
  split; [|discriminate].
  intros _ _ Hin. simpl in Hin.
  destruct Hin as [H|[H|[H|[H|[H|[H|[]]]]]]]; symmetry in H; contradiction.
Qed.

End ExecuteFacts.
